(** * Content pipeline of the news and video schedulers

  A shallow embedding of [scripts/alternative-scheduler.js] (class
  [NewsScheduler]) and of the video scheduler (class
  [AlternativeVideoScheduler]): content filters, approval, configuration
  fallbacks, retention planning and the timing of the cycles. *)

From Stdlib Require Import ZArith String Ascii List Bool Lia QArith Qround.
From Stdlib Require Import Sorting.Sorted Sorting.Permutation.
From stdpp Require Import gmap strings list fin_maps sorting.

Local Open Scope string_scope.
Local Open Scope Z_scope.

(** ** JavaScript values, objects and strings *)

Module Js.

(** The values that the REST payloads and the settings objects carry.
    Numbers are the integers the schema stores. *)
#[warnings="-register-all"]
Inductive jsval : Type :=
| JUndefined
| JNull
| JBool (b : bool)
| JNum (n : Z)
| JStr (s : string)
| JArr (l : list jsval)
| JObj (fields : gmap string jsval).

(** [ToBoolean]: what [if (v)], [v || d] and [v && w] test. *)
Definition truthy (v : jsval) : bool :=
  match v with
  | JUndefined | JNull => false
  | JBool b => b
  | JNum n => negb (n =? 0)
  | JStr s => negb (String.eqb s "")
  | JArr _ | JObj _ => true
  end.

(** [v || d] *)
Definition orElse (v d : jsval) : jsval := if truthy v then v else d.

(** [o.k]: a property the object lacks reads as [undefined]. *)
Definition get (o : gmap string jsval) (k : string) : jsval :=
  default JUndefined (o !! k).

(** [v === 'text'] *)
Definition isStr (v : jsval) (s : string) : bool :=
  match v with JStr t => String.eqb t s | _ => false end.

(** [{ ...a, ...b }]: the properties of [b] win. *)
Definition spread (a b : gmap string jsval) : gmap string jsval := b ∪ a.

(** [String.prototype.toLowerCase], on byte strings: the letters A-Z
    fold, every other byte is kept. *)
Definition lowerAscii (c : ascii) : ascii :=
  let n := N_of_ascii c in
  if ((65 <=? n) && (n <=? 90))%N then ascii_of_N (n + 32) else c.

Fixpoint toLowerCase (s : string) : string :=
  match s with
  | EmptyString => EmptyString
  | String c s' => String (lowerAscii c) (toLowerCase s')
  end.

(** [s.startsWith(k)] *)
Fixpoint startsWith (s k : string) {struct k} : bool :=
  match k, s with
  | EmptyString, _ => true
  | String _ _, EmptyString => false
  | String b k', String a s' => Ascii.eqb a b && startsWith s' k'
  end.

(** [s.includes(k)] *)
Fixpoint includes (s k : string) : bool :=
  startsWith s k ||
  match s with
  | EmptyString => false
  | String _ s' => includes s' k
  end.

(** [s.endsWith(k)] *)
Fixpoint endsWith (s k : string) : bool :=
  String.eqb s k ||
  match s with
  | EmptyString => false
  | String _ s' => endsWith s' k
  end.

(** [Array.prototype.slice(start)], for an integer [start]: a negative
    start counts from the end of the array. *)
Definition slice {A : Type} (start : Z) (l : list A) : list A :=
  if start <? 0
  then drop (Z.to_nat (Z.max (Z.of_nat (length l) + start) 0)) l
  else drop (Z.to_nat start) l.

(** [Array.prototype.slice(0, n)] for a natural [n]. *)
Definition sliceTo {A : Type} (n : nat) (l : list A) : list A := take n l.

(** [array.length > 0] *)
Definition nonEmpty {A : Type} (l : list A) : bool :=
  match l with [] => false | _ :: _ => true end.

(** Outcome of a block of code: a value, or a thrown error. *)
Inductive Exc (A : Type) : Type :=
| Ok (a : A)
| Throw (message : string).
Arguments Ok {A} a.
Arguments Throw {A} message.

#[global] Instance Exc_ret : MRet Exc := @Ok.
#[global] Instance Exc_bind : MBind Exc := fun A B k c =>
  match c with
  | Ok a => k a
  | Throw m => Throw m
  end.

#[global] Instance Exc_fmap : FMap Exc := fun A B f c =>
  match c with
  | Ok a => Ok (f a)
  | Throw m => Throw m
  end.

(** [try { body } catch (error) { handler }] *)
Definition tryCatch {A : Type} (body : Exc A) (handler : string -> Exc A) : Exc A :=
  match body with
  | Ok a => Ok a
  | Throw m => handler m
  end.

(** [await axios.get(url)]: the request fails, or it answers with the
    [data.data] of the body ([None] when that is [null] or missing). *)
Inductive Response (A : Type) : Type :=
| NetworkError (message : string)
| Reply (data : option A).
Arguments NetworkError {A} message.
Arguments Reply {A} data.

Definition await {A : Type} (r : Response A) : Exc (option A) :=
  match r with
  | NetworkError m => Throw m
  | Reply d => Ok d
  end.

End Js.

Import Js.

Abbreviation obj := (gmap string jsval).

(** ** The video scheduler: class [AlternativeVideoScheduler] *)

Module Video.

(** Built-in content safety keywords - fallback when database is empty *)
Definition builtInBannedKeywords : list obj :=
  [ {[ "Keyword" := JStr "scam"; "MatchType" := JStr "contains"; "IsActive" := JBool true ]};
    {[ "Keyword" := JStr "fake"; "MatchType" := JStr "contains"; "IsActive" := JBool true ]};
    {[ "Keyword" := JStr "illegal"; "MatchType" := JStr "contains"; "IsActive" := JBool true ]};
    {[ "Keyword" := JStr "dangerous"; "MatchType" := JStr "contains"; "IsActive" := JBool true ]};
    {[ "Keyword" := JStr "adult"; "MatchType" := JStr "contains"; "IsActive" := JBool true ]};
    {[ "Keyword" := JStr "gambling"; "MatchType" := JStr "contains"; "IsActive" := JBool true ]} ].

(** Built-in trending topics - fallback when database is empty *)
Definition builtInTopic (title category : string) (priority : Z) : obj :=
  {[ "Title" := JStr title; "Category" := JStr category;
     "Priority" := JNum priority; "IsActive" := JBool true ]}.

Definition builtInTopics : list obj :=
  [ builtInTopic "Thailand Travel" "Travel" 1;
    builtInTopic "Pattaya Tourism" "Travel" 1;
    builtInTopic "Bangkok Street Food" "Food" 2;
    builtInTopic "Thai Culture" "Culture" 2;
    builtInTopic "Island Hopping Thailand" "Adventure" 2;
    builtInTopic "Thai Temples" "Culture" 3;
    builtInTopic "Muay Thai Training" "Sports" 3;
    builtInTopic "Thai Cooking Classes" "Food" 3;
    builtInTopic "Scuba Diving Thailand" "Adventure" 2;
    builtInTopic "Bangkok Nightlife" "Entertainment" 3 ].

Definition emergencyTopic (title category : string) (priority : Z) : obj :=
  {[ "Title" := JStr title; "Category" := JStr category;
     "Priority" := JNum priority; "IsActive" := JBool true;
     "Source" := JStr "emergency" ]}.

Definition getEmergencyTopics : list obj :=
  [ emergencyTopic "Thailand" "Travel" 1;
    emergencyTopic "Pattaya" "Travel" 1;
    emergencyTopic "Bangkok" "Travel" 1;
    emergencyTopic "Thai Food" "Food" 2;
    emergencyTopic "Tourism" "Travel" 2 ].

(** The REST endpoints the scheduler reads, each with the query string
    of its call site. *)
Record Api : Type := {
  (** [/trending-tags-videos?filters[active][$eq]=true&filters[featured][$eq]=true] *)
  featuredTrendingTags : Response (list obj);
  (** [/trending-tags-videos?filters[active][$eq]=true] *)
  activeTrendingTags : Response (list obj);
  (** [/trusted-channels-videos?filters[active][$eq]=true&filters[verification_status][$eq]=Verified] *)
  verifiedTrustedChannels : Response (list obj);
  (** [/content-safety-keywords] *)
  contentSafetyKeywords : Response (list obj);
  (** [/trusted-channels-videos?filters[channel_id][$eq]=${channelId}&filters[active][$eq]=true] *)
  trustedChannelsOf : string -> Response (list obj);
  (** [/banned-channels-videos?filters[channel_id][$eq]=${channelId}&filters[active][$eq]=true] *)
  bannedChannelsOf : string -> Response (list obj);
  (** [/banned-keywords-videos?filters[active][$eq]=true] *)
  activeBannedKeywords : Response (list obj)
}.

(** The collections behind the endpoints. *)
Record Store : Type := {
  trending_tags_videos : list obj;
  trusted_channels_videos : list obj;
  banned_channels_videos : list obj;
  banned_keywords_videos : list obj;
  content_safety_keywords : list obj
}.

(** [filters[field][$eq]=true] and [filters[field][$eq]=text] of the
    content store: the entries whose field has exactly that value. *)
Definition eqTrue (field : string) (o : obj) : bool :=
  match get o field with JBool true => true | _ => false end.

Definition eqText (field text : string) (o : obj) : bool :=
  isStr (get o field) text.

(** A reachable content store answering every query. *)
Definition strapi (st : Store) : Api := {|
  featuredTrendingTags :=
    Reply (Some (List.filter (fun o => eqTrue "active" o && eqTrue "featured" o)
                             (trending_tags_videos st)));
  activeTrendingTags :=
    Reply (Some (List.filter (eqTrue "active") (trending_tags_videos st)));
  verifiedTrustedChannels :=
    Reply (Some (List.filter (fun o => eqTrue "active" o && eqText "verification_status" "Verified" o)
                             (trusted_channels_videos st)));
  contentSafetyKeywords := Reply (Some (content_safety_keywords st));
  trustedChannelsOf := fun channelId =>
    Reply (Some (List.filter (fun o => eqText "channel_id" channelId o && eqTrue "active" o)
                             (trusted_channels_videos st)));
  bannedChannelsOf := fun channelId =>
    Reply (Some (List.filter (fun o => eqText "channel_id" channelId o && eqTrue "active" o)
                             (banned_channels_videos st)));
  activeBannedKeywords :=
    Reply (Some (List.filter (eqTrue "active") (banned_keywords_videos st)))
|}.

(** *** [determineApprovalStatus] *)

Definition determineApprovalStatus (api : Api) (channelId : string) : Exc string :=
  tryCatch
    (data ← await (trustedChannelsOf api channelId);
     let trustedChannels := default [] data in
     match trustedChannels with
     | first :: _ =>
         if isStr (get first "verification_status") "Verified"
            && truthy (get first "auto_approve")
         then mret "Approved"
         else mret "Pending Review"
     | [] => mret "Pending Review"
     end)
    (fun _ => mret "Pending Review").

(** *** [isContentFiltered] *)

(** The body of the [for (const keywordObj of bannedKeywords)] loop for one
    rule: [Throw] when [keywordObj.keyword] has no [toLowerCase]. *)
Definition keywordMatches (title description : string) (keywordObj : obj) : Exc bool :=
  match get keywordObj "keyword" with
  | JStr k =>
      let keyword := toLowerCase k in
      let matchType := orElse (get keywordObj "match_type") (JStr "Contains") in
      let appliesTo := orElse (get keywordObj "applies_to") (JStr "All") in
      let contentText := toLowerCase (title +:+ " " +:+ description) in
      let textToCheck :=
        if isStr appliesTo "Title" then toLowerCase title
        else if isStr appliesTo "Description" then toLowerCase description
        else contentText in
      let isMatch :=
        if isStr matchType "Exact" then String.eqb textToCheck keyword
        else if isStr matchType "Contains" then includes textToCheck keyword
        else if isStr matchType "Starts With" then startsWith textToCheck keyword
        else if isStr matchType "Ends With" then endsWith textToCheck keyword
        else includes textToCheck keyword in
      mret isMatch
  | _ => Throw "keywordObj.keyword.toLowerCase is not a function"
  end.

Fixpoint keywordLoop (title description : string) (bannedKeywords : list obj) : Exc bool :=
  match bannedKeywords with
  | [] => mret false
  | keywordObj :: rest =>
      isMatch ← keywordMatches title description keywordObj;
      if (isMatch : bool) then mret true else keywordLoop title description rest
  end.

(** [bannedChannels.length > 0 && bannedChannels[0].ban_level !== 'Under Review'] *)
Definition channelIsBanned (bannedChannels : list obj) : bool :=
  match bannedChannels with
  | first :: _ => negb (isStr (get first "ban_level") "Under Review")
  | [] => false
  end.

Definition isContentFiltered (api : Api) (title description channelId : string) : Exc bool :=
  tryCatch
    (data ← await (bannedChannelsOf api channelId);
     let bannedChannels := default [] data in
     if channelIsBanned bannedChannels then mret true
     else
       data ← await (activeBannedKeywords api);
       let bannedKeywords := default builtInBannedKeywords data in
       keywordLoop title description bannedKeywords)
    (fun _ => mret false).

(** *** [isContentSafe] *)

(** A search result, as far as the filters read it: [video.snippet]. *)
Record Snippet : Type := {
  title : string;
  description : string;
  channelId : string
}.

Fixpoint safetyLoop (title description : string) (bannedKeywords : list obj) : Exc bool :=
  match bannedKeywords with
  | [] => mret true
  | bannedKeyword :: rest =>
      match get bannedKeyword "Keyword" with
      | JStr k =>
          let keyword := toLowerCase k in
          if isStr (get bannedKeyword "MatchType") "contains"
             && (includes title keyword || includes description keyword)
          then mret false
          else safetyLoop title description rest
      | _ => Throw "bannedKeyword.Keyword.toLowerCase is not a function"
      end
  end.

Definition isContentSafe (api : Api) (video : Snippet) : Exc bool :=
  let title := toLowerCase (title video) in
  let description := toLowerCase (description video) in
  bannedKeywords ←
    tryCatch
      (data ← await (contentSafetyKeywords api);
       match data with
       | Some keywords =>
           let contentTypeKeywords :=
             List.filter (fun k => truthy (get k "IsActive")) keywords in
           if nonEmpty contentTypeKeywords then mret contentTypeKeywords else mret []
       | None => Throw "Cannot read properties of undefined (reading 'filter')"
       end)
      (fun _ => mret []);
  let bannedKeywords :=
    if nonEmpty bannedKeywords then bannedKeywords
    else List.filter (fun k => truthy (get k "IsActive")) builtInBannedKeywords in
  safetyLoop title description bannedKeywords.

(** The two guards of the loop of [fetchRealYouTubeVideos]: a video goes on
    to approval and storage when [isContentSafe] holds and
    [isContentFiltered] does not. *)
Definition passesFilters (api : Api) (video : Snippet) : Exc bool :=
  safe ← isContentSafe api video;
  if (safe : bool) then
    filtered ← isContentFiltered api (title video) (description video) (channelId video);
    mret (negb filtered)
  else mret false.

(** *** [performFetch], step 1: the topics of the cycle *)

(** [trendingTags.map(tag => ({ ... }))] *)
Definition tagTopic (tag : obj) : obj :=
  {[ "Title" := get tag "tag";
     "Category" := get tag "category";
     "Priority" := JNum (if isStr (get tag "priority") "High" then 1
                         else if isStr (get tag "priority") "Medium" then 2
                         else 3);
     "IsActive" := get tag "active";
     "Source" := JStr "trending-tags-video" ]}.

(** One round of the loop of [generateTopicsFromTrustedChannels]. *)
Definition channelTopic (channel : obj) : Exc obj :=
  let channelName := orElse (get channel "channel_name") (JStr "Unknown") in
  let channelCategory := orElse (get channel "category") (JStr "Entertainment") in
  match channelName with
  | JStr name =>
      let lower := toLowerCase name in
      let topicCategory :=
        if includes lower "travel" || includes lower "nomad" then JStr "Travel"
        else if includes lower "food" || includes lower "cooking" then JStr "Food"
        else channelCategory in
      mret ({[ "Title" := JStr (name +:+ " Content");
               "Category" := topicCategory;
               "Priority" := JNum (if isStr (get channel "trust_level") "High" then 1 else 2);
               "IsActive" := JBool true;
               "Source" := JStr "trusted_channel" ]} : obj)
  | _ => Throw "channelName.toLowerCase is not a function"
  end.

Fixpoint channelTopics (channels : list obj) : Exc (list obj) :=
  match channels with
  | [] => mret []
  | channel :: rest =>
      topic ← channelTopic channel;
      topics ← channelTopics rest;
      mret (topic :: topics)
  end.

Definition generateTopicsFromTrustedChannels (trustedChannels : list obj) : Exc (list obj) :=
  channelTopics (sliceTo 3 trustedChannels).

(** The [try] block of the first tier: the active trending tags. *)
Definition trendingTagTopics (api : Api) : Exc (list obj) :=
  data ← await (activeTrendingTags api);
  let trendingTags := default [] data in
  if nonEmpty trendingTags then mret (tagTopic <$> trendingTags) else mret [].

Definition topicsFromTrendingTags (api : Api) : Exc (list obj) :=
  tryCatch (trendingTagTopics api) (fun _ => mret []).

(** The [try] block of fallback 1: topics generated from the verified
    trusted channels. *)
Definition trustedChannelTopics (api : Api) : Exc (list obj) :=
  data ← await (verifiedTrustedChannels api);
  let trustedChannels := default [] data in
  if nonEmpty trustedChannels
  then generateTopicsFromTrustedChannels trustedChannels
  else mret [].

Definition topicsFromTrustedChannels (api : Api) : Exc (list obj) :=
  tryCatch (trustedChannelTopics api) (fun _ => mret []).

(** Step 1 of [performFetch], up to the test [activeTopics.length === 0]
    that would skip the fetch. *)
Definition activeTopics (api : Api) : Exc (list obj) :=
  activeTopics ← topicsFromTrendingTags api;
  if nonEmpty activeTopics then mret activeTopics
  else
    activeTopics ← topicsFromTrustedChannels api;
    let activeTopics :=
      if nonEmpty activeTopics then activeTopics
      else List.filter (fun t => truthy (get t "IsActive")) builtInTopics in
    let activeTopics :=
      if nonEmpty activeTopics then activeTopics else getEmergencyTopics in
    mret activeTopics.

(** *** [scheduleNextFetch] and [checkTrendingTags] *)

(** [new Date()] read in local time. *)
Record LocalTime : Type := {
  hours : Z;
  minutes : Z
}.

Definition getHours (now : LocalTime) : Z := hours now.

Definition checkTrendingTags (api : Api) : Exc bool :=
  tryCatch
    (data ← await (featuredTrendingTags api);
     let activeTags := default [] data in
     mret (nonEmpty activeTags))
    (fun _ => mret false).

(** The delay in milliseconds that [scheduleNextFetch] hands to
    [setTimeout]; [random] is the value of [Math.random()]. *)
Definition nextInterval (hasTrendingTags : bool) (currentHour : Z) (random : Q) : Z :=
  if hasTrendingTags then Qfloor (random * 5 + 5) * 60 * 1000
  else if (6 <=? currentHour) && (currentHour <=? 23) then 30 * 60 * 1000
  else 2 * 60 * 60 * 1000.

Definition scheduleNextFetch (isRunning : bool) (api : Api) (now : LocalTime) (random : Q)
  : Exc (option Z) :=
  if negb isRunning then mret None
  else
    let currentHour := getHours now in
    hasTrendingTags ← checkTrendingTags api;
    mret (Some (nextInterval hasTrendingTags currentHour random)).

(** *** The cycles of the scheduler *)

(** The fields of the instance that the cycle touches.  [isRunning] is
    set by [start] and cleared on SIGINT. *)
Record Scheduler : Type := {
  isRunning : bool;
  cycleCount : nat;
  errors : list string
}.

(** [performFetch] up to its first [await]: no test, the cycle starts. *)
Definition performFetch_enter (s : Scheduler) : Scheduler :=
  {| isRunning := isRunning s; cycleCount := S (cycleCount s); errors := errors s |}.

(** [performFetch] from the end of its [try] block, whose outcome is
    [body], to its return. *)
Definition performFetch_leave (body : Exc unit) (s : Scheduler) : Scheduler :=
  match body with
  | Ok _ => s
  | Throw message =>
      {| isRunning := isRunning s; cycleCount := cycleCount s;
         errors := errors s ++ [message] |}
  end.

(** The instance with its cycles in flight and its pending timer. *)
Record Runtime : Type := {
  sched : Scheduler;
  inFlight : nat;
  timerArmed : bool
}.

Inductive Event : Type :=
| Start                       (** [start()] up to its [await this.performFetch()] *)
| Call                        (** a call of [performFetch()] *)
| Settle (body : Exc unit)    (** a cycle returns; its caller runs [scheduleNextFetch] *)
| TimerFires.                 (** the [setTimeout] callback *)

Definition step (e : Event) (r : Runtime) : option Runtime :=
  match e with
  | Start =>
      let s := sched r in
      let s := {| isRunning := true; cycleCount := cycleCount s; errors := errors s |} in
      Some {| sched := performFetch_enter s; inFlight := S (inFlight r);
              timerArmed := timerArmed r |}
  | Call =>
      Some {| sched := performFetch_enter (sched r); inFlight := S (inFlight r);
              timerArmed := timerArmed r |}
  | Settle body =>
      match inFlight r with
      | O => None
      | S n =>
          let s := performFetch_leave body (sched r) in
          Some {| sched := s; inFlight := n; timerArmed := isRunning s |}
      end
  | TimerFires =>
      if timerArmed r then
        if isRunning (sched r)
        then Some {| sched := performFetch_enter (sched r); inFlight := S (inFlight r);
                     timerArmed := false |}
        else Some {| sched := sched r; inFlight := inFlight r; timerArmed := false |}
      else None
  end.

Fixpoint run (events : list Event) (r : Runtime) : option Runtime :=
  match events with
  | [] => Some r
  | e :: rest =>
      match step e r with
      | Some r' => run rest r'
      | None => None
      end
  end.

(** [new AlternativeVideoScheduler()] *)
Definition constructed : Runtime :=
  {| sched := {| isRunning := false; cycleCount := 0; errors := [] |};
     inFlight := 0; timerArmed := false |}.

End Video.

(** ** The news scheduler: class [NewsScheduler] *)

Module News.

(** Built-in fallback news settings (matching schema defaults) *)
Definition builtInNewsSettings : obj :=
  list_to_map
    [ ("fetchIntervalMinutes", JNum 30);
      ("moderationKeywords",
        JArr [JStr "spam"; JStr "fake"; JStr "clickbait"; JStr "scam"; JStr "adult"; JStr "explicit"]);
      ("autoModerationEnabled", JBool true);
      ("maxArticlesPerFetch", JNum 20);
      ("enableVoting", JBool true);
      ("cronJobEnabled", JBool true);
      ("newsApiCountry", JStr "us");
      ("newsApiCategory", JStr "general");
      ("maxArticleLimit", JNum 21);
      ("maxArticleAgeHours", JNum 24);
      ("cleanupMode", JStr "both_count_and_age");
      ("cleanupFrequencyMinutes", JNum 60);
      ("preservePinnedArticles", JBool true);
      ("preserveBreakingNews", JBool true);
      ("cleanupStats",
        JObj {[ "totalDeleted" := JNum 0; "lastDeletedCount" := JNum 0;
                "lastCleanupDate" := JNull ]});
      ("enableAlgoliaSync", JBool false) ].

(** *** [getNewsSettings] *)

(** [settingsResponse] is the answer of [GET /api/news-settings]. *)
Definition getNewsSettings (settingsResponse : Response obj) : Exc obj :=
  tryCatch
    (dbSettings ← await settingsResponse;
     match dbSettings with
     | Some db =>
         if decide (0 < size db)%nat
         then mret (spread builtInNewsSettings db)
         else mret builtInNewsSettings
     | None => mret builtInNewsSettings
     end)
    (fun _ => mret builtInNewsSettings).

(** *** [shouldModerateContent] *)

Record Moderation : Type := {
  shouldModerate : bool;
  reason : option string
}.

Fixpoint moderationLoop (textToCheck : string) (moderationKeywords : list jsval)
  : Exc Moderation :=
  match moderationKeywords with
  | [] => mret {| shouldModerate := false; reason := None |}
  | JStr keyword :: rest =>
      if includes textToCheck (toLowerCase keyword)
      then mret {| shouldModerate := true;
                   reason := Some ("Contains moderation keyword: " +:+ keyword) |}
      else moderationLoop textToCheck rest
  | _ :: _ => Throw "keyword.toLowerCase is not a function"
  end.

(** [for (const keyword of v)]: an array gives its elements, a string its
    characters; nothing else that is truthy can be iterated. *)
Definition iterate (v : jsval) : Exc (list jsval) :=
  match v with
  | JArr l => mret l
  | JStr s => mret ((fun c => JStr (String c EmptyString)) <$> list_ascii_of_string s)
  | _ => Throw "moderationKeywords is not iterable"
  end.

Definition shouldModerateContent (title content : string) (settings : obj) : Exc Moderation :=
  if negb (truthy (get settings "autoModerationEnabled"))
  then mret {| shouldModerate := false; reason := None |}
  else
    let textToCheck := toLowerCase (title +:+ " " +:+ content) in
    moderationKeywords ← iterate (orElse (get settings "moderationKeywords") (JArr []));
    moderationLoop textToCheck moderationKeywords.

(** *** [fetchNews]: from a feed item to the record that is posted *)

(** An item of the parsed feed: the parser gives text fields or leaves
    them out; [pubDate] is kept as the time it parses to. *)
Record FeedItem : Type := {
  title : option string;
  link : string;
  contentSnippet : option string;
  content : option string;
  summary : option string;
  pubDate : option Z
}.

(** [a || b] on optional text: the empty string is falsy. *)
Definition orText (a : option string) (b : string) : string :=
  match a with
  | Some EmptyString | None => b
  | Some s => s
  end.

Fixpoint hasGt (s : string) : bool :=
  match s with
  | EmptyString => false
  | String c s' => Ascii.eqb c ">" || hasGt s'
  end.

(** [text.replace(/<[^>]*>/g, '')]: every [<] that is followed somewhere
    by a [>] goes, with everything up to the first such [>]. *)
Fixpoint strip (inTag : bool) (s : string) : string :=
  match s with
  | EmptyString => EmptyString
  | String c s' =>
      if inTag then
        if Ascii.eqb c ">" then strip false s' else strip true s'
      else if Ascii.eqb c "<" && hasGt s' then strip true s'
      else String c (strip false s')
  end.

Definition stripTags (s : string) : string := strip false s.

(** [settings.maxContentLength || 500], an integer of the settings schema
    when it is present. *)
Definition contentLimit (settings : obj) : Z :=
  match orElse (get settings "maxContentLength") (JNum 500) with
  | JNum n => n
  | _ => 500
  end.

Definition cleanContentOf (settings : obj) (item : FeedItem) : string :=
  let cleanContent :=
    orText (contentSnippet item) (orText (content item) (orText (summary item) "")) in
  substring 0 (Z.to_nat (contentLimit settings)) (stripTags cleanContent).

Definition breakingKeywords : list string :=
  ["breaking"; "urgent"; "alert"; "emergency"; "developing"; "just in"].

(** The fields of [breakingNewsData] that later stages read. *)
Record BreakingNewsData : Type := {
  Title : string;
  Summary : string;
  Severity : string;
  Source : string;
  URL : string;
  IsBreaking : bool;
  PublishedTimestamp : Z;
  data_isPinned : bool;
  moderationStatus : string;
  data_publishedAt : Z
}.

(** The body of [for (const item of articles)], from the duplicate check
    to the record handed to [axios.post]: [None] when the item is skipped
    as a duplicate or by moderation, [Throw] when the enclosing
    [catch (createError)] skips it.  [now] is the value of [new Date()].
    The search for a featured image, which only fills the image fields,
    is left out. *)
Definition breakingNewsDataOf (settings : obj) (sourceName : string) (now : Z)
    (isDuplicate : bool) (item : FeedItem) : Exc (option BreakingNewsData) :=
  if isDuplicate then mret None
  else
    let cleanContent := cleanContentOf settings item in
    moderationResult ← shouldModerateContent (orText (title item) "") cleanContent settings;
    if shouldModerate moderationResult then mret None
    else
      match title item with
      | None => Throw "Cannot read properties of undefined (reading 'toLowerCase')"
      | Some itemTitle =>
          let isBreaking :=
            existsb (fun keyword =>
                       includes (toLowerCase itemTitle) keyword
                       || includes (toLowerCase cleanContent) keyword)
                    breakingKeywords in
          mret (Some {| Title := itemTitle;
                        Summary := cleanContent;
                        Severity := if isBreaking then "high" else "medium";
                        Source := sourceName;
                        URL := link item;
                        IsBreaking := isBreaking;
                        PublishedTimestamp := default now (pubDate item);
                        data_isPinned := false;
                        moderationStatus := "approved";
                        data_publishedAt := now |})
      end.

(** *** Stored articles *)

(** An entry of [GET /api/breaking-news-plural], as far as the cleanup
    reads it: [id], [publishedAt] (the time [new Date(article.publishedAt)]
    denotes), [isPinned], and the truthiness of [article.isBreaking].
    [stored_IsBreaking] is the attribute [IsBreaking] of the collection. *)
Record Article : Type := {
  id : Z;
  publishedAt : Z;
  isPinned : bool;
  isBreaking : bool;
  stored_IsBreaking : bool
}.

(** The entry that a successful [axios.post] of [data] adds.  The
    attributes of the collection are those of [breakingNewsData]; it has
    none called [isBreaking], which therefore reads [undefined]. *)
Definition created (newId : Z) (data : BreakingNewsData) : Article :=
  {| id := newId;
     publishedAt := data_publishedAt data;
     isPinned := data_isPinned data;
     isBreaking := false;
     stored_IsBreaking := IsBreaking data |}.

(** *** [performAdvancedCleanup] *)

Record CleanupStats : Type := {
  totalDeleted : Z;
  lastDeletedCount : Z;
  lastCleanupDate : option Z
}.

(** The fields of [settings] that the cleanup reads, at the types of the
    settings schema. *)
Record CleanupSettings : Type := {
  cleanupMode : string;
  maxArticleLimit : Z;
  maxArticleAgeHours : Z;
  preservePinnedArticles : bool;
  preserveBreakingNews : bool;
  cleanupStats : CleanupStats
}.

Definition cutoffTime (settings : CleanupSettings) (currentTime : Z) : Z :=
  let maxAgeMs := maxArticleAgeHours settings * 60 * 60 * 1000 in
  currentTime - maxAgeMs.

(** The callback of the filters that select old articles. *)
Definition oldArticle (settings : CleanupSettings) (cutoffTime : Z) (article : Article) : bool :=
  let shouldDelete := publishedAt article <? cutoffTime in
  if preservePinnedArticles settings && isPinned article then false
  else if preserveBreakingNews settings && isBreaking article then false
  else shouldDelete.

(** The callback of the filters that drop preserved articles. *)
Definition notPreserved (settings : CleanupSettings) (article : Article) : bool :=
  if preservePinnedArticles settings && isPinned article then false
  else if preserveBreakingNews settings && isBreaking article then false
  else true.

(** [articles.sort((a, b) => new Date(b.publishedAt) - new Date(a.publishedAt))]:
    newest first.  The sort of an array is stable, and every stable sort
    gives the same array for this comparator; insertion computes it. *)
Fixpoint insertNewestFirst (a : Article) (sorted : list Article) : list Article :=
  match sorted with
  | [] => [a]
  | b :: rest =>
      if publishedAt a <? publishedAt b
      then b :: insertNewestFirst a rest
      else a :: b :: rest
  end.

Definition sortNewestFirst (articles : list Article) : list Article :=
  foldr insertNewestFirst [] articles.

(** [oldArticles.includes(article)]: the entries of one answer are
    distinct objects with distinct [id]s, so the same object is the same
    [id]. *)
Definition includesArticle (articles : list Article) (article : Article) : bool :=
  existsb (fun other => id other =? id article) articles.

(** The [switch (settings.cleanupMode)]: the value of [articlesToDelete]
    after it. *)
Definition articlesToDelete (settings : CleanupSettings) (currentTime : Z)
    (allArticles : list Article) : list Article :=
  let cutoffTime := cutoffTime settings currentTime in
  if String.eqb (cleanupMode settings) "age_only" then
    List.filter (oldArticle settings cutoffTime) allArticles
  else if String.eqb (cleanupMode settings) "count_only" then
    if Z.of_nat (length allArticles) >? maxArticleLimit settings then
      let sortedArticles := sortNewestFirst allArticles in
      List.filter (notPreserved settings) (slice (maxArticleLimit settings) sortedArticles)
    else []
  else
    let oldArticles := List.filter (oldArticle settings cutoffTime) allArticles in
    let remainingArticles :=
      List.filter (fun article => negb (includesArticle oldArticles article)) allArticles in
    let excessArticles :=
      if Z.of_nat (length remainingArticles) >? maxArticleLimit settings then
        let sortedRemaining := sortNewestFirst remainingArticles in
        List.filter (notPreserved settings) (slice (maxArticleLimit settings) sortedRemaining)
      else [] in
    oldArticles ++ excessArticles.

(** The content store during one run: its articles and the statistics
    last written to the settings; and the requests of the run that fail. *)
Record Backend : Type := {
  collection : list Article;
  savedStats : option CleanupStats
}.

Record Faults : Type := {
  listFails : bool;
  deleteFails : Z -> bool;
  updateFails : bool
}.

(** What the run logs: the articles it tried to delete and the count of
    its line [Cleanup completed: n articles removed]. *)
Record Report : Type := {
  attempted : list Article;
  removedLogged : option Z
}.

(** [axios.delete] of one article: it throws on a fault and on an [id]
    the collection does not hold; the [catch] around it only logs. *)
Definition deleteArticle (deleteFails : Z -> bool) (article : Article)
    (collection : list Article) : list Article :=
  if deleteFails (id article) || negb (includesArticle collection article)
  then collection
  else List.filter (fun other => negb (id other =? id article)) collection.

Fixpoint deleteAll (deleteFails : Z -> bool) (articlesToDelete collection : list Article)
  : list Article :=
  match articlesToDelete with
  | [] => collection
  | article :: rest =>
      deleteAll deleteFails rest (deleteArticle deleteFails article collection)
  end.

Definition performAdvancedCleanup (faults : Faults) (settings : CleanupSettings)
    (currentTime : Z) (backend : Backend) : Exc (Backend * Report) :=
  tryCatch
    (data ← await (if listFails faults then NetworkError "Network Error"
                   else Reply (Some (collection backend)));
     let allArticles := default [] data in
     let articlesToDelete := articlesToDelete settings currentTime allArticles in
     if nonEmpty articlesToDelete then
       let collection' :=
         deleteAll (deleteFails faults) articlesToDelete (collection backend) in
       let updatedStats :=
         {| totalDeleted := totalDeleted (cleanupStats settings)
                            + Z.of_nat (length articlesToDelete);
            lastDeletedCount := Z.of_nat (length articlesToDelete);
            lastCleanupDate := Some currentTime |} in
       let saved := if updateFails faults then savedStats backend else Some updatedStats in
       mret ({| collection := collection'; savedStats := saved |},
             {| attempted := articlesToDelete;
                removedLogged := Some (Z.of_nat (length articlesToDelete)) |})
     else mret (backend, {| attempted := []; removedLogged := None |}))
    (fun _ => mret (backend, {| attempted := []; removedLogged := None |})).

(** *** The cycles of the scheduler *)

Record Scheduler : Type := {
  isRunning : bool;
  fetchCount : nat
}.

(** [fetchNews] up to its first [await]: [false] when the call returns at
    the test of [isRunning]. *)
Definition fetchNews_enter (s : Scheduler) : Scheduler * bool :=
  if isRunning s then (s, false)
  else ({| isRunning := true; fetchCount := S (fetchCount s) |}, true).

(** [fetchNews] from the end of its [try] block, whose outcome is [body],
    through [catch] and [finally]. *)
Definition fetchNews_leave (body : Exc unit) (s : Scheduler) : Scheduler * Exc unit :=
  let result := tryCatch body (fun _ => mret tt) in
  ({| isRunning := false; fetchCount := fetchCount s |}, result).

(** The instance with its cycles in flight. *)
Record Runtime : Type := {
  sched : Scheduler;
  inFlight : nat
}.

Inductive Event : Type :=
| Trigger                     (** a call of [fetchNews()], by [start] or by the interval *)
| Settle (body : Exc unit).   (** a cycle in flight reaches the end of its [try] block *)

Definition step (e : Event) (r : Runtime) : option Runtime :=
  match e with
  | Trigger =>
      let '(s, started) := fetchNews_enter (sched r) in
      Some {| sched := s; inFlight := if started then S (inFlight r) else inFlight r |}
  | Settle body =>
      match inFlight r with
      | O => None
      | S n => Some {| sched := fst (fetchNews_leave body (sched r)); inFlight := n |}
      end
  end.

Fixpoint run (events : list Event) (r : Runtime) : option Runtime :=
  match events with
  | [] => Some r
  | e :: rest =>
      match step e r with
      | Some r' => run rest r'
      | None => None
      end
  end.

(** [new NewsScheduler()] *)
Definition constructed : Runtime :=
  {| sched := {| isRunning := false; fetchCount := 0 |}; inFlight := 0 |}.

End News.

(** ** The specification's vocabulary *)

Module Spec.

(** A keyword ban rule: pattern, match strategy, scope, active flag. *)
Inductive Strategy : Type := Exact | Contains | StartsWith | EndsWith.
Inductive Scope : Type := TitleOnly | DescriptionOnly | All.

Record BanRule : Type := {
  pattern : string;
  strategy : Strategy;
  scope : Scope;
  active : bool
}.

(** The entry of the collection [banned-keywords-videos] that holds a
    rule, with the attribute names and the enumeration values that
    [isContentFiltered] reads. *)
Definition strategyName (s : Strategy) : string :=
  match s with
  | Exact => "Exact"
  | Contains => "Contains"
  | StartsWith => "Starts With"
  | EndsWith => "Ends With"
  end.

Definition scopeName (s : Scope) : string :=
  match s with
  | TitleOnly => "Title"
  | DescriptionOnly => "Description"
  | All => "All"
  end.

Definition stored (r : BanRule) : obj :=
  {[ "keyword" := JStr (pattern r);
     "match_type" := JStr (strategyName (strategy r));
     "applies_to" := JStr (scopeName (scope r));
     "active" := JBool (active r) ]}.

(** The text a rule looks at: title only, description only, or both
    joined by a space; lower-cased. *)
Definition scopedText (sc : Scope) (title description : string) : string :=
  match sc with
  | TitleOnly => toLowerCase title
  | DescriptionOnly => toLowerCase description
  | All => toLowerCase (title +:+ " " +:+ description)
  end.

(** The lower-cased match of a rule under its strategy. *)
Definition matches (r : BanRule) (title description : string) : Prop :=
  let text := scopedText (scope r) title description in
  let p := toLowerCase (pattern r) in
  match strategy r with
  | Exact => text = p
  | Contains => exists before after, text = before +:+ p +:+ after
  | StartsWith => exists after, text = p +:+ after
  | EndsWith => exists before, text = before +:+ p
  end.

(** The keywords of the built-in minimal rule set of the video scheduler. *)
Definition builtInWords : list string :=
  ["scam"; "fake"; "illegal"; "dangerous"; "adult"; "gambling"].

(** An active ban of the channel: the first active entry of
    [banned-channels-videos] for it has a level other than Under Review. *)
Definition channelBanned (st : Video.Store) (channelId : string) : Prop :=
  exists first rest,
    List.filter (fun o => Video.eqText "channel_id" channelId o && Video.eqTrue "active" o)
                (Video.banned_channels_videos st) = first :: rest
    /\ get first "ban_level" <> JStr "Under Review".

(** The resolver: the first provider that succeeds with a non-empty
    result wins; the default when none does. *)
Fixpoint resolve {A : Type} (providers : list (Exc (list A))) (default : list A) : list A :=
  match providers with
  | [] => default
  | Ok (x :: l) :: _ => x :: l
  | _ :: rest => resolve rest default
  end.

(** A provider that failed or came back empty. *)
Definition unavailable {A : Type} (r : Response (list A)) : Prop :=
  match r with
  | Reply (Some (_ :: _)) => False
  | _ => True
  end.

(** The order of a list sorted newest first, and of one sorted oldest
    first. *)
Definition newerOrEqual (a b : News.Article) : Prop :=
  News.publishedAt b <= News.publishedAt a.

Definition olderOrEqual (a b : News.Article) : Prop :=
  News.publishedAt a <= News.publishedAt b.

(** The daytime window 06:00-23:00. *)
Definition daytime (now : Video.LocalTime) : Prop :=
  6 * 60 <= Video.hours now * 60 + Video.minutes now <= 23 * 60.

End Spec.

(** ** The video scheduler: topics to stored videos *)

Module VideoIngest.

Import Video.

(** Category mapping: trending-topics to video schema *)
Definition categoryMapping : gmap string string :=
  {[ "Tourism" := "Travel";
     "Food" := "Food";
     "Nightlife" := "Nightlife";
     "Culture" := "Culture";
     "Events" := "Events";
     "Entertainment" := "Entertainment";
     "Business" := "Business";
     "Shopping" := "Business" ]}.

(** The names every object inherits from [Object.prototype]: for them
    [categoryMapping[name]] is the inherited member, which is truthy and is
    no text. *)
Definition objectPrototypeNames : list string :=
  [ "constructor"; "__defineGetter__"; "__defineSetter__"; "hasOwnProperty";
    "__lookupGetter__"; "__lookupSetter__"; "isPrototypeOf";
    "propertyIsEnumerable"; "toString"; "valueOf"; "__proto__"; "toLocaleString" ].

(** [mapCategoryForVideo], for a category that is text: [None] stands for
    an inherited member of [Object.prototype] handed back as it is. *)
Definition mapCategoryForVideo (trendingCategory : string) : option string :=
  match categoryMapping !! trendingCategory with
  | Some mappedCategory => Some mappedCategory
  | None =>
      if bool_decide (trendingCategory ∈ objectPrototypeNames) then None
      else Some "Entertainment"
  end.

(** Built-in trusted channels - fallback when database is empty *)
Definition builtInTrustedChannel (channelId channelName : string) : obj :=
  {[ "Platform" := JStr "youtube"; "ChannelId" := JStr channelId;
     "ChannelName" := JStr channelName; "IsVerified" := JBool true ]}.

Definition builtInTrustedChannels : list obj :=
  [ builtInTrustedChannel "UCYfdidRxbB8Qhf0Nx7ioOYw" "World Nomads";
    builtInTrustedChannel "UCMke6DOgpX-dqeTvHKD5upw" "Kara and Nate";
    builtInTrustedChannel "UCu16_yDbSoaq_eKUhIZNpOg" "Mark Wiens";
    builtInTrustedChannel "UCxDZs_ltFFvn0FDHT6kmoXA" "Travel with Mansoureh" ].

(** [isChannelTrusted]; [channelsResponse] is the answer of
    [GET /trusted-channels]. *)
Definition isChannelTrusted (channelsResponse : Response (list obj)) (channelId : string)
  : Exc bool :=
  trustedChannels ←
    tryCatch
      (data ← await channelsResponse;
       match data with
       | Some channels =>
           let contentTypeChannels :=
             List.filter (fun c => isStr (get c "Platform") "youtube") channels in
           if nonEmpty contentTypeChannels then mret contentTypeChannels else mret []
       | None => Throw "Cannot read properties of undefined (reading 'filter')"
       end)
      (fun _ => mret []);
  let trustedChannels :=
    if nonEmpty trustedChannels then trustedChannels
    else List.filter (fun c => isStr (get c "Platform") "youtube") builtInTrustedChannels in
  mret (existsb (fun channel => isStr (get channel "ChannelId") channelId) trustedChannels).

(** A topic whose [Title] and [Category] are text. *)
Record Topic : Type := {
  Title : string;
  Category : string
}.

(** An entry of the answer of the YouTube search: [video.id.videoId] and
    the parts of [video.snippet] that the scheduler stores. *)
Record SearchResult : Type := {
  snippet : Snippet;
  videoId : string;
  channelTitle : string;
  publishedAt : string
}.

(** The fields of [videoData] that decide what the store holds; the
    thumbnail, the counters and the duration are left out. *)
Record VideoData : Type := {
  video_title : string;
  video_description : string;
  video_id : string;
  channel_id : string;
  channel_name : string;
  videostatus : string;
  category : option string;
  source_keyword : string;
  video_published_at : option string
}.

(** [axios.post] of a video to a store that holds [videos]: it throws
    ([None]) or it resolves with a status, the record being stored. *)
Definition Post : Type := list VideoData -> VideoData -> option Z.

(** [try { response = await axios.post(...); if (status is 200 or 201)
    createdCount++ } catch { log }] *)
Definition postVideo (post : Post) (videoData : VideoData)
    (state : list VideoData * nat) : list VideoData * nat :=
  let '(videos, createdCount) := state in
  match post videos videoData with
  | Some status =>
      ((videos ++ [videoData])%list,
       if (status =? 200) || (status =? 201) then S createdCount else createdCount)
  | None => (videos, createdCount)
  end.

(** [text.replace(/\s+/g, '_')] on byte strings: every run of blanks
    (space, tab, line feed, vertical tab, form feed, carriage return)
    becomes one underscore. *)
Definition isBlank (c : ascii) : bool :=
  let n := N_of_ascii c in
  ((9 <=? n) && (n <=? 13) || (n =? 32))%N.

Fixpoint underscoreBlanks (inRun : bool) (s : string) : string :=
  match s with
  | EmptyString => EmptyString
  | String c s' =>
      if isBlank c then
        if inRun then underscoreBlanks true s'
        else String "_" (underscoreBlanks true s')
      else String c (underscoreBlanks false s')
  end.

(** The clock of one call of [createSampleVideos]: the year of
    [new Date()], the decimal text of the two values of [Date.now()] that
    go into the identifiers, and the text of [new Date().toISOString()]. *)
Record Clock : Type := {
  year : string;
  stamp1 : string;
  stamp2 : string;
  isoNow : string
}.

(** The array [sampleVideos]. *)
Definition sampleVideos (clock : Clock) (topic : Topic) : list VideoData :=
  [ {| video_title := Title topic +:+ " - Complete Guide " +:+ year clock;
       video_description :=
         "Comprehensive guide about " +:+ Title topic +:+ " in " +:+ Category topic;
       video_id :=
         "sample_" +:+ underscoreBlanks false (toLowerCase (Title topic))
         +:+ "_" +:+ stamp1 clock +:+ "_1";
       channel_id := "channel_" +:+ toLowerCase (Category topic);
       channel_name := Category topic +:+ " Explorer";
       videostatus := "pending";
       category := mapCategoryForVideo (Category topic);
       source_keyword := Title topic;
       video_published_at := None |};
    {| video_title := "Best " +:+ Title topic +:+ " Experience Guide";
       video_description := "Complete guide for " +:+ Title topic +:+ " experiences";
       video_id :=
         "sample_" +:+ underscoreBlanks false (toLowerCase (Title topic))
         +:+ "_" +:+ stamp2 clock +:+ "_2";
       channel_id := "channel_" +:+ toLowerCase (Category topic) +:+ "_guide";
       channel_name := Category topic +:+ " Guide Channel";
       videostatus := "pending";
       category := Some (Category topic);
       source_keyword := Title topic;
       video_published_at := Some (isoNow clock) |} ].

Definition withStatus (videoData : VideoData) (approvalStatus : string) : VideoData :=
  {| video_title := video_title videoData;
     video_description := video_description videoData;
     video_id := video_id videoData;
     channel_id := channel_id videoData;
     channel_name := channel_name videoData;
     videostatus := approvalStatus;
     category := category videoData;
     source_keyword := source_keyword videoData;
     video_published_at := video_published_at videoData |}.

(** The loop of [createSampleVideos]: an error inside one round is logged
    and the loop goes on. *)
Fixpoint sampleLoop (api : Api) (post : Post) (samples : list VideoData)
    (state : list VideoData * nat) : list VideoData * nat :=
  match samples with
  | [] => state
  | videoData :: rest =>
      let state' :=
        match determineApprovalStatus api (channel_id videoData) with
        | Ok approvalStatus => postVideo post (withStatus videoData approvalStatus) state
        | Throw _ => state
        end in
      sampleLoop api post rest state'
  end.

(** [createSampleVideos]: the store after it, and the count it returns. *)
Definition createSampleVideos (api : Api) (post : Post) (clock : Clock) (topic : Topic)
    (videos : list VideoData) : list VideoData * nat :=
  sampleLoop api post (sampleVideos clock topic) (videos, 0%nat).

(** The record that [fetchRealYouTubeVideos] posts for a search result. *)
Definition videoDataOf (topic : Topic) (video : SearchResult) (approvalStatus : string)
  : VideoData :=
  {| video_title := title (snippet video);
     video_description := description (snippet video);
     video_id := videoId video;
     channel_id := channelId (snippet video);
     channel_name := channelTitle video;
     videostatus := approvalStatus;
     category := mapCategoryForVideo (Category topic);
     source_keyword := Title topic;
     video_published_at := Some (publishedAt video) |}.

(** The loop [for (const video of videos)] of [fetchRealYouTubeVideos]:
    the store as it stands when the loop ends or throws, and the count or
    the error. *)
Fixpoint searchLoop (api : Api) (post : Post) (topic : Topic) (results : list SearchResult)
    (state : list VideoData * nat) : list VideoData * Exc nat :=
  match results with
  | [] => (fst state, Ok (snd state))
  | video :: rest =>
      match isContentSafe api (snippet video) with
      | Throw message => (fst state, Throw message)
      | Ok false => searchLoop api post topic rest state
      | Ok true =>
          match isContentFiltered api (title (snippet video))
                  (description (snippet video)) (channelId (snippet video)) with
          | Throw message => (fst state, Throw message)
          | Ok true => searchLoop api post topic rest state
          | Ok false =>
              match determineApprovalStatus api (channelId (snippet video)) with
              | Throw message => (fst state, Throw message)
              | Ok approvalStatus =>
                  searchLoop api post topic rest
                    (postVideo post (videoDataOf topic video approvalStatus) state)
              end
          end
      end
  end.

(** [fetchRealYouTubeVideos]; [search] is the answer of the YouTube search
    with its [data.items]. *)
Definition fetchRealYouTubeVideos (api : Api) (post : Post) (clock : Clock)
    (search : Response (list SearchResult)) (topic : Topic) (videos : list VideoData)
  : list VideoData * nat :=
  match search with
  | NetworkError _ => createSampleVideos api post clock topic videos
  | Reply None | Reply (Some []) => (videos, 0%nat)
  | Reply (Some results) =>
      match searchLoop api post topic results (videos, 0%nat) with
      | (videos', Ok createdCount) => (videos', createdCount)
      | (videos', Throw _) => createSampleVideos api post clock topic videos'
      end
  end.

(** [fetchVideosForTopic]; [youtubeApiKey] is [process.env.YOUTUBE_API_KEY]. *)
Definition fetchVideosForTopic (api : Api) (post : Post) (clock : Clock)
    (youtubeApiKey : option string) (search : Response (list SearchResult))
    (topic : Topic) (videos : list VideoData) : list VideoData * nat :=
  match youtubeApiKey with
  | Some key =>
      if negb (String.eqb key "") && negb (String.eqb key "your_youtube_api_key_here")
      then fetchRealYouTubeVideos api post clock search topic videos
      else createSampleVideos api post clock topic videos
  | None => createSampleVideos api post clock topic videos
  end.

(** *** [performCleanup] *)

(** A stored video, as far as the cleanup reads it.  The collection is
    kept in the order of creation, the order of [sort=createdAt:asc]. *)
Record StoredVideo : Type := {
  documentId : string;
  stored_video_id : string
}.

(** [axios.delete] of one video: it throws on a fault and on a
    [documentId] the collection does not hold. *)
Definition deleteVideo (deleteFails : string -> bool) (video : StoredVideo)
    (state : list StoredVideo * nat) : list StoredVideo * nat :=
  let '(videos, deletedCount) := state in
  if deleteFails (documentId video)
     || negb (existsb (fun other => String.eqb (documentId other) (documentId video)) videos)
  then (videos, deletedCount)
  else (List.filter (fun other => negb (String.eqb (documentId other) (documentId video)))
                    videos,
        S deletedCount).

(** [performCleanup]: the collection after it and the [deletedCount] it
    logs ([None] when it logs none). *)
Definition performCleanup (listFails : bool) (deleteFails : string -> bool)
    (videos : list StoredVideo) : list StoredVideo * option nat :=
  if listFails then (videos, None)
  else
    let data := take 100 videos in
    let totalVideos := length videos in
    if (50 <? Z.of_nat totalVideos) then
      let excessCount := (totalVideos - 50)%nat in
      let oldVideos := take excessCount data in
      let '(videos', deletedCount) :=
        foldl (fun state video => deleteVideo deleteFails video state)
              (videos, 0%nat) oldVideos in
      (videos', Some deletedCount)
    else (videos, None).

(** *** Where a stored video comes from *)

(** A search result that passed both filters, stored with the approval
    status of its channel. *)
Definition filteredResult (api : Api) (topic : Topic) (results : list SearchResult)
    (v : VideoData) : Prop :=
  exists video approvalStatus,
    video ∈ results
    /\ passesFilters api (snippet video) = Ok true
    /\ determineApprovalStatus api (channelId (snippet video)) = Ok approvalStatus
    /\ v = videoDataOf topic video approvalStatus.

(** One of the sample videos of the topic, stored with the approval
    status of its channel. *)
Definition sampleVideo (api : Api) (clock : Clock) (topic : Topic) (v : VideoData) : Prop :=
  exists sample approvalStatus,
    sample ∈ sampleVideos clock topic
    /\ determineApprovalStatus api (channel_id sample) = Ok approvalStatus
    /\ v = withStatus sample approvalStatus.

End VideoIngest.

(** ** The news scheduler: sources, timers and the plain cleanup *)

Module NewsOps.

Import News.

(** Built-in fallback news sources *)
Definition builtInNewsSource (sourceId name url sourceCategory : string) (priority : Z)
  : obj :=
  {[ "id" := JStr sourceId; "name" := JStr name; "url" := JStr url;
     "sourceType" := JStr "rss_feed"; "isActive" := JBool true;
     "category" := JStr sourceCategory; "priority" := JNum priority ]}.

Definition builtInNewsSources : list obj :=
  [ builtInNewsSource "fallback-1" "Pattaya Mail" "http://www.pattayamail.com/rss.xml"
      "Local News" 1;
    builtInNewsSource "fallback-2" "The Pattaya News" "http://thepattayanews.com/feed/"
      "Local News" 1;
    builtInNewsSource "fallback-3" "Bangkok Post"
      "http://www.bangkokpost.com/rss/data/news.xml" "National News" 2;
    builtInNewsSource "fallback-4" "The Nation Thailand"
      "http://www.nationthailand.com/rss/home.xml" "National News" 2 ].

(** [s.isActive === true] *)
Definition isActive (s : obj) : bool :=
  match get s "isActive" with JBool true => true | _ => false end.

(** The head of [fetchNews]: the sources of the cycle and
    [usingFallbackSources]; [sourcesResponse] is the answer of
    [GET /api/news-sources]. *)
Definition activeSources (sourcesResponse : Response (list obj)) : Exc (list obj * bool) :=
  tryCatch
    (data ← await sourcesResponse;
     let dbSources := default [] data in
     let activeSources := List.filter isActive dbSources in
     if nonEmpty activeSources then mret (activeSources, false)
     else mret (builtInNewsSources, true))
    (fun _ => mret (builtInNewsSources, true)).

(** [source.sourceType === 'rss_feed' && source.url]: the sources whose
    feed the loop of [fetchNews] reads. *)
Definition isRssFeed (source : obj) : bool :=
  isStr (get source "sourceType") "rss_feed" && truthy (get source "url").

(** *** [start], [stop] and [getStatus] *)

(** [this.interval], a timer handle when it is set, and the timers that
    [setInterval] has left running: each with its handle and its
    [fetchInterval]. *)
Record Controls : Type := {
  interval : option nat;
  timers : list (nat * jsval);
  nextHandle : nat
}.

(** [new NewsScheduler()]: the constructor assigns no [interval]. *)
Definition constructedControls : Controls :=
  {| interval := None; timers := []; nextHandle := 0 |}.

(** [intervalMinutes || settings.fetchIntervalMinutes || 5] *)
Definition fetchIntervalOf (intervalMinutes : jsval) (settings : obj) : jsval :=
  orElse (orElse intervalMinutes (get settings "fetchIntervalMinutes")) (JNum 5).

(** [start(intervalMinutes)]: the controls after it and the
    [fetchInterval] it logs.  The handle that [setInterval] returns is
    dropped. *)
Definition start (intervalMinutes : jsval) (settingsResponse : Response obj)
    (c : Controls) : Exc (Controls * jsval) :=
  settings ← getNewsSettings settingsResponse;
  let fetchInterval := fetchIntervalOf intervalMinutes settings in
  mret ({| interval := interval c;
           timers := (timers c ++ [(nextHandle c, fetchInterval)])%list;
           nextHandle := S (nextHandle c) |},
        fetchInterval).

(** [stop()] *)
Definition stop (c : Controls) : Controls :=
  match interval c with
  | Some handle =>
      {| interval := None;
         timers := List.filter (fun t => negb (Nat.eqb (fst t) handle)) (timers c);
         nextHandle := nextHandle c |}
  | None => c
  end.

(** [getStatus().running] *)
Definition running (c : Controls) : bool :=
  match interval c with Some _ => true | None => false end.

Inductive Call : Type :=
| CallStart (intervalMinutes : jsval) (settingsResponse : Response obj)
| CallStop.

Definition call (k : Call) (c : Controls) : Exc Controls :=
  match k with
  | CallStart intervalMinutes settingsResponse =>
      fst <$> start intervalMinutes settingsResponse c
  | CallStop => mret (stop c)
  end.

Fixpoint calls (ks : list Call) (c : Controls) : Exc Controls :=
  match ks with
  | [] => mret c
  | k :: rest => c' ← call k c; calls rest c'
  end.

(** *** [cleanupOldArticles] *)

(** [collection] holds the articles in the order of creation; the answer
    of [GET ...?sort=createdAt:desc&pagination[limit]=200] is its last 200
    entries, newest first.  [cleanupSettings] is the answer of
    [getNewsSettings] at the types of the settings schema. *)
Definition cleanupOldArticles (listFails : bool) (deleteFails : Z -> bool)
    (cleanupSettings : CleanupSettings) (collection : list Article) : list Article :=
  let maxArticleLimit := maxArticleLimit cleanupSettings in
  if listFails then collection
  else
    let articles := take 200 (reverse collection) in
    if Z.of_nat (length articles) >? maxArticleLimit then
      let articlesToDelete := slice maxArticleLimit articles in
      deleteAll deleteFails articlesToDelete collection
    else collection.

(** *** The count limit of [performAdvancedCleanup] *)

(** The value of [excessArticles] in the [switch] of
    [performAdvancedCleanup], for the articles that the count limit is
    applied to; the mode [count_only] applies it to all of them. *)
Definition excessArticles (settings : CleanupSettings) (articles : list Article)
  : list Article :=
  if Z.of_nat (length articles) >? maxArticleLimit settings then
    let sortedArticles := sortNewestFirst articles in
    List.filter (notPreserved settings) (slice (maxArticleLimit settings) sortedArticles)
  else [].

End NewsOps.

(** ** The breaking-news service *)

Module Service.

(** The defaults of [getSettings]. *)
Definition defaultSettings : obj :=
  {[ "fetchIntervalMinutes" := JNum 30;
     "moderationKeywords" :=
       JArr [JStr "spam"; JStr "fake"; JStr "clickbait"; JStr "scam"; JStr "adult";
             JStr "explicit"];
     "autoModerationEnabled" := JBool true;
     "maxArticlesPerFetch" := JNum 20;
     "cronJobEnabled" := JBool true;
     "newsApiCountry" := JStr "us";
     "newsApiCategory" := JStr "general" ]}.

(** [getSettings]; [found] is the outcome of [entityService.findMany] on
    the settings: the stored object, [null], or an error. *)
Definition getSettings (found : Exc (option obj)) : obj :=
  match found with
  | Ok (Some settings) => settings
  | Ok None => defaultSettings
  | Throw _ => defaultSettings
  end.

Fixpoint keywordsLoop (content : string) (keywords : list jsval) : Exc string :=
  match keywords with
  | [] => mret "approved"
  | JStr keyword :: rest =>
      if includes content (toLowerCase keyword) then mret "needs_review"
      else keywordsLoop content rest
  | _ :: _ => Throw "keyword.toLowerCase is not a function"
  end.

Definition checkModerationKeywords (found : Exc (option obj)) (title summary : string)
  : Exc string :=
  let settings := getSettings found in
  if negb (truthy (get settings "autoModerationEnabled")) then mret "approved"
  else
    let content := toLowerCase (title +:+ " " +:+ summary) in
    keywords ← News.iterate (orElse (get settings "moderationKeywords") (JArr []));
    keywordsLoop content keywords.

(** An article handed to [processArticle]. *)
Record Article : Type := {
  title : option string;
  description : option string;
  url : string;
  publishedAt : option Z
}.

(** The fields of the entry that [processArticle] creates. *)
Record Entry : Type := {
  Title : string;
  Summary : string;
  Source : string;
  URL : string;
  IsBreaking : bool;
  PublishedTimestamp : Z;
  isPinned : bool;
  moderationStatus : string;
  entry_publishedAt : option Z
}.

(** [processArticle]: [existing] is the number of stored entries with
    the [URL] of the article, [createFails] whether
    [entityService.create] throws, [now] the value of [new Date()].
    [None] is the [null] of a skipped or failed article. *)
Definition processArticle (found : Exc (option obj)) (existing : Exc nat)
    (createFails : bool) (now : Z) (article : Article) (sourceName : string)
  : option Entry :=
  match
    (existingCount ← existing;
     if (0 <? Z.of_nat existingCount) then mret None
     else
       moderationStatus ←
         checkModerationKeywords found (News.orText (title article) "")
           (News.orText (description article) "");
       if createFails then Throw "create failed"
       else
         mret (Some {| Title := News.orText (title article) "No Title";
                       Summary := News.orText (description article) "";
                       Source := sourceName;
                       URL := url article;
                       IsBreaking := false;
                       PublishedTimestamp := default now (publishedAt article);
                       isPinned := false;
                       moderationStatus := moderationStatus;
                       entry_publishedAt :=
                         if String.eqb moderationStatus "approved" then Some now
                         else None |}))
  with
  | Ok result => result
  | Throw _ => None
  end.

(** *** The loop of [fetchAndProcessNews] *)

(** One round of the loop: the article and the source name handed to
    [processArticle], and what that call meets: the time, the outcome of
    reading the settings, and whether its [findMany] on the entries or its
    [create] throws. *)
Record Round : Type := {
  article : Article;
  sourceName : string;
  now : Z;
  found : Exc (option obj);
  findManyFails : bool;
  createFails : bool
}.

(** [findMany] with [filters: { URL: article.url }] on the stored
    entries: the number of entries it returns. *)
Definition existingEntries (findManyFails : bool) (entries : list Entry) (articleUrl : string)
  : Exc nat :=
  if findManyFails then Throw "findMany failed"
  else mret (length (List.filter (fun e => String.eqb (URL e) articleUrl) entries)).

(** The counters of the loop: [totalProcessed], [totalApproved] and
    [totalReview]. *)
Record Tally : Type := {
  total : nat;
  approved : nat;
  needsReview : nat
}.

Definition processRound (r : Round) (state : list Entry * Tally) : list Entry * Tally :=
  let '(entries, tally) := state in
  let processed :=
    processArticle (found r) (existingEntries (findManyFails r) entries (url (article r)))
                   (createFails r) (now r) (article r) (sourceName r) in
  match processed with
  | Some entry =>
      ((entries ++ [entry])%list,
       if String.eqb (moderationStatus entry) "approved"
       then {| total := S (total tally); approved := S (approved tally);
               needsReview := needsReview tally |}
       else {| total := S (total tally); approved := approved tally;
               needsReview := S (needsReview tally) |})
  | None => (entries, tally)
  end.

(** [fetchAndProcessNews] from its loop on: the entries after it and the
    counts it returns, for the articles that its sources gave. *)
Definition fetchAndProcessNews (rounds : list Round) (entries : list Entry)
  : list Entry * Tally :=
  foldl (fun state r => processRound r state)
        (entries, {| total := 0; approved := 0; needsReview := 0 |}) rounds.

End Service.

(** ** Sample data *)

Module Samples.

Definition noStats : News.CleanupStats :=
  {| News.totalDeleted := 0; News.lastDeletedCount := 0; News.lastCleanupDate := None |}.

(** A store whose only entry bans the channel UCbad; no keyword rule. *)
Definition bannedChannelStore : Video.Store :=
  {| Video.trending_tags_videos := [];
     Video.trusted_channels_videos := [];
     Video.banned_channels_videos :=
       [ {[ "channel_id" := JStr "UCbad"; "active" := JBool true;
            "ban_level" := JStr "Permanent" ]} ];
     Video.banned_keywords_videos := [];
     Video.content_safety_keywords := [] |}.

Definition scamRule : Spec.BanRule :=
  {| Spec.pattern := "scam"; Spec.strategy := Spec.Contains;
     Spec.scope := Spec.All; Spec.active := true |}.

Definition promoRule : Spec.BanRule :=
  {| Spec.pattern := "promo"; Spec.strategy := Spec.StartsWith;
     Spec.scope := Spec.TitleOnly; Spec.active := false |}.

Definition ruleStore : Video.Store :=
  {| Video.trending_tags_videos := [];
     Video.trusted_channels_videos := [];
     Video.banned_channels_videos := [];
     Video.banned_keywords_videos := Spec.stored <$> [promoRule; scamRule];
     Video.content_safety_keywords := [] |}.

(** The content store cannot be reached. *)
Definition unreachable : Video.Api :=
  {| Video.featuredTrendingTags := NetworkError "connect ECONNREFUSED";
     Video.activeTrendingTags := NetworkError "connect ECONNREFUSED";
     Video.verifiedTrustedChannels := NetworkError "connect ECONNREFUSED";
     Video.contentSafetyKeywords := NetworkError "connect ECONNREFUSED";
     Video.trustedChannelsOf := fun _ => NetworkError "connect ECONNREFUSED";
     Video.bannedChannelsOf := fun _ => NetworkError "connect ECONNREFUSED";
     Video.activeBannedKeywords := NetworkError "connect ECONNREFUSED" |}.

(** The store answers, except for the banned keywords; its safety
    keywords hold one entry of their own. *)
Definition bannedKeywordsDown : Video.Api :=
  {| Video.featuredTrendingTags := Reply (Some []);
     Video.activeTrendingTags := Reply (Some []);
     Video.verifiedTrustedChannels := Reply (Some []);
     Video.contentSafetyKeywords :=
       Reply (Some [ {[ "Keyword" := JStr "violence"; "MatchType" := JStr "contains";
                        "IsActive" := JBool true ]} ]);
     Video.trustedChannelsOf := fun _ => Reply (Some []);
     Video.bannedChannelsOf := fun _ => Reply (Some []);
     Video.activeBannedKeywords := NetworkError "Request failed with status code 500" |}.

Definition scamVideo : Video.Snippet :=
  {| Video.title := "Buy now, limited time scam offer";
     Video.description := "Only today";
     Video.channelId := "UCok" |}.

(** Trust records of the channel UCx: a verified, auto-approved one that
    is not active; and an active unverified one ahead of an active
    verified, auto-approved one. *)
Definition trustRecord (status : string) (autoApprove isActive : bool) : obj :=
  {[ "channel_id" := JStr "UCx"; "verification_status" := JStr status;
     "auto_approve" := JBool autoApprove; "active" := JBool isActive ]}.

Definition trustStore (records : list obj) : Video.Store :=
  {| Video.trending_tags_videos := [];
     Video.trusted_channels_videos := records;
     Video.banned_channels_videos := [];
     Video.banned_keywords_videos := [];
     Video.content_safety_keywords := [] |}.

Definition emptyStore : Video.Store :=
  {| Video.trending_tags_videos := [];
     Video.trusted_channels_videos := [];
     Video.banned_channels_videos := [];
     Video.banned_keywords_videos := [];
     Video.content_safety_keywords := [] |}.

(** Stored articles and cleanup settings with both preserve flags set. *)
Definition article (articleId time : Z) (pinned : bool) : News.Article :=
  {| News.id := articleId; News.publishedAt := time; News.isPinned := pinned;
     News.isBreaking := false; News.stored_IsBreaking := false |}.

Definition cleanup (mode : string) (limit ageHours : Z) : News.CleanupSettings :=
  {| News.cleanupMode := mode; News.maxArticleLimit := limit;
     News.maxArticleAgeHours := ageHours;
     News.preservePinnedArticles := true; News.preserveBreakingNews := true;
     News.cleanupStats := noStats |}.

(** Four articles, the oldest one pinned. *)
Definition fourArticles : list News.Article :=
  [article 1 10 true; article 2 40 false; article 3 20 false; article 4 30 false].

(** Two articles older than a day at the time 86400100, and a run in
    which the deletion of the first one fails. *)
Definition twoOldArticles : list News.Article :=
  [article 1 10 false; article 2 20 false].

Definition firstDeleteFails : News.Faults :=
  {| News.listFails := false;
     News.deleteFails := fun articleId => articleId =? 1;
     News.updateFails := false |}.

(** A feed item whose title carries a breaking keyword. *)
Definition floodItem : News.FeedItem :=
  {| News.title := Some "Breaking: flood closes Beach Road";
     News.link := "http://www.pattayamail.com/flood";
     News.contentSnippet := Some "Heavy rain since the morning.";
     News.content := None;
     News.summary := None;
     News.pubDate := Some 1000 |}.

(** The built-in settings with auto-moderation switched off. *)
Definition moderationOff : obj :=
  <[ "autoModerationEnabled" := JBool false ]> News.builtInNewsSettings.

Definition builtInModerationKeywords : list string :=
  ["spam"; "fake"; "clickbait"; "scam"; "adult"; "explicit"].

(** The banned keywords hold a rule without a keyword ahead of a rule
    that bans the word scam. *)
Definition malformedRuleApi : Video.Api :=
  {| Video.featuredTrendingTags := Reply (Some []);
     Video.activeTrendingTags := Reply (Some []);
     Video.verifiedTrustedChannels := Reply (Some []);
     Video.contentSafetyKeywords := Reply (Some []);
     Video.trustedChannelsOf := fun _ => Reply (Some []);
     Video.bannedChannelsOf := fun _ => Reply (Some []);
     Video.activeBannedKeywords :=
       Reply (Some [ {[ "match_type" := JStr "Contains"; "active" := JBool true ]};
                     Spec.stored scamRule ]) |}.

End Samples.

(** ** Strings *)

Section StringFacts.

Lemma startsWith_spec (s k : string) :
  startsWith s k = true <-> exists after, s = k +:+ after.
Proof.
  revert s. induction k as [|b k IH]; intros s; simpl.
  - split; [intros _; exists s; reflexivity | reflexivity].
  - destruct s as [|a s]; simpl.
    + split; [discriminate | intros [after H]; discriminate].
    + rewrite andb_true_iff, Ascii.eqb_eq, IH. split.
      * intros [-> [after ->]]. exists after. reflexivity.
      * intros [after H]. injection H as -> ->. split; [reflexivity | eauto].
Qed.

Lemma includes_spec (s k : string) :
  includes s k = true <-> exists before after, s = before +:+ k +:+ after.
Proof.
  induction s as [|a s IH].
  - cbn [includes]. rewrite orb_false_r, startsWith_spec. split.
    + intros [after H]. exists EmptyString, after. exact H.
    + intros [before [after H]]. destruct before as [|c before]; simpl in H.
      * exists after. exact H.
      * discriminate.
  - cbn [includes]. rewrite orb_true_iff, startsWith_spec, IH. split.
    + intros [[after H] | [before [after H]]].
      * exists EmptyString, after. exact H.
      * exists (String a before), after. simpl. rewrite H. reflexivity.
    + intros [before [after H]]. destruct before as [|c before]; simpl in H.
      * left. exists after. exact H.
      * right. injection H as -> ->. exists before, after. reflexivity.
Qed.

Lemma endsWith_spec (s k : string) :
  endsWith s k = true <-> exists before, s = before +:+ k.
Proof.
  induction s as [|a s IH].
  - cbn [endsWith]. rewrite orb_false_r, String.eqb_eq. split.
    + intros <-. exists EmptyString. reflexivity.
    + intros [before H]. destruct before as [|c before]; simpl in H.
      * exact H.
      * discriminate.
  - cbn [endsWith]. rewrite orb_true_iff, String.eqb_eq, IH. split.
    + intros [<- | [before ->]].
      * exists EmptyString. reflexivity.
      * exists (String a before). reflexivity.
    + intros [before H]. destruct before as [|c before]; simpl in H.
      * left. exact H.
      * right. injection H as -> ->. exists before. reflexivity.
Qed.

Lemma isStr_spec (v : jsval) (s : string) : isStr v s = true <-> v = JStr s.
Proof.
  destruct v; simpl; try (split; [discriminate | intros H; discriminate H]).
  rewrite String.eqb_eq. split; [intros ->; reflexivity | intros H; injection H as ->; reflexivity].
Qed.

Lemma isStr_JStr (a b : string) : isStr (JStr a) b = String.eqb a b.
Proof. reflexivity. Qed.

End StringFacts.

(** ** The content filters *)

Section Classifier.

Import Video.

Lemma get_stored_keyword (r : Spec.BanRule) :
  get (Spec.stored r) "keyword" = JStr (Spec.pattern r).
Proof. reflexivity. Qed.

Lemma get_stored_match_type (r : Spec.BanRule) :
  get (Spec.stored r) "match_type" = JStr (Spec.strategyName (Spec.strategy r)).
Proof. reflexivity. Qed.

Lemma get_stored_applies_to (r : Spec.BanRule) :
  get (Spec.stored r) "applies_to" = JStr (Spec.scopeName (Spec.scope r)).
Proof. reflexivity. Qed.

Lemma get_stored_active (r : Spec.BanRule) :
  get (Spec.stored r) "active" = JBool (Spec.active r).
Proof. reflexivity. Qed.

(** One rule of the store, as the loop of [isContentFiltered] reads it. *)
Lemma keywordMatches_stored (r : Spec.BanRule) (title description : string) :
  exists isMatch,
    keywordMatches title description (Spec.stored r) = Ok isMatch
    /\ (isMatch = true <-> Spec.matches r title description).
Proof.
  unfold keywordMatches.
  rewrite get_stored_keyword, get_stored_match_type, get_stored_applies_to.
  eexists. split; [reflexivity|].
  unfold Spec.matches.
  destruct r as [p strat sc act]; destruct strat, sc; cbn;
    first [ apply String.eqb_eq | apply includes_spec
          | apply startsWith_spec | apply endsWith_spec ].
Qed.

Lemma keywordLoop_stored (rules : list Spec.BanRule) (title description : string) :
  exists blocked,
    keywordLoop title description (Spec.stored <$> rules) = Ok blocked
    /\ (blocked = true <-> exists r, r ∈ rules /\ Spec.matches r title description).
Proof.
  induction rules as [|r rules [blocked [Hloop Hiff]]]; simpl.
  - exists false. split; [reflexivity|]. split; [discriminate|].
    intros [r [Hin _]]. inversion Hin.
  - destruct (keywordMatches_stored r title description) as [isMatch [-> Hm]].
    cbn. destruct isMatch.
    + exists true. split; [reflexivity|]. split; [|reflexivity].
      intros _. exists r. split; [left | apply Hm; reflexivity].
    + exists blocked. split; [exact Hloop|]. rewrite Hiff. split.
      * intros [r' [Hin H]]. exists r'. split; [right; exact Hin | exact H].
      * intros [r' [Hin H]]. inversion Hin; subst.
        -- apply Hm in H. discriminate.
        -- exists r'. split; assumption.
Qed.

(** The query [filters[active][$eq]=true] keeps the active rules. *)
Lemma active_rules_of_store (rules : list Spec.BanRule) :
  List.filter (eqTrue "active") (Spec.stored <$> rules)
  = Spec.stored <$> List.filter Spec.active rules.
Proof.
  induction rules as [|r rules IH]; [reflexivity|].
  cbn [fmap list_fmap List.filter]. unfold eqTrue at 1.
  rewrite get_stored_active.
  destruct (Spec.active r) eqn:Hact; cbn [List.filter fmap list_fmap] in *; rewrite IH.
  - reflexivity.
  - reflexivity.
Qed.

Lemma isContentFiltered_store (st : Store) (rules : list Spec.BanRule)
    (title description channelId : string) :
  banned_keywords_videos st = Spec.stored <$> rules ->
  exists blocked,
    isContentFiltered (strapi st) title description channelId = Ok blocked
    /\ (blocked = true <->
        Spec.channelBanned st channelId
        \/ exists r, r ∈ rules /\ Spec.active r = true
                     /\ Spec.matches r title description).
Proof.
  intros Hrules. unfold isContentFiltered, Spec.channelBanned. cbn.
  rewrite Hrules, active_rules_of_store.
  destruct (List.filter _ (banned_channels_videos st)) as [|first rest] eqn:Hbans.
  - destruct (keywordLoop_stored (List.filter Spec.active rules) title description)
      as [blocked [Hloop Hiff]].
    exists blocked. cbn. rewrite Hloop. split; [reflexivity|].
    rewrite Hiff. split.
    + intros [r [Hin Hm]]. right. exists r.
      apply list_elem_of_In, filter_In in Hin as [Hin Hact].
      split; [apply list_elem_of_In; exact Hin | split; assumption].
    + intros [[first [rest [Habs _]]] | [r [Hin [Hact Hm]]]]; [discriminate|].
      exists r. split; [|exact Hm].
      apply list_elem_of_In, filter_In. split; [apply list_elem_of_In; exact Hin | exact Hact].
  - destruct (isStr (get first "ban_level") "Under Review") eqn:Hlevel;
      cbn; rewrite ?Hlevel; cbn.
    + destruct (keywordLoop_stored (List.filter Spec.active rules) title description)
        as [blocked [Hloop Hiff]].
      exists blocked. rewrite Hloop. split; [reflexivity|].
      apply isStr_spec in Hlevel.
      rewrite Hiff. split.
      * intros [r [Hin Hm]]. right. exists r.
        apply list_elem_of_In, filter_In in Hin as [Hin Hact].
        split; [apply list_elem_of_In; exact Hin | split; assumption].
      * intros [[first' [rest' [Heq Hne]]] | [r [Hin [Hact Hm]]]].
        -- injection Heq as <- <-. contradiction.
        -- exists r. split; [|exact Hm].
           apply list_elem_of_In, filter_In.
           split; [apply list_elem_of_In; exact Hin | exact Hact].
    + exists true. split; [reflexivity|]. split; [|reflexivity].
      intros _. left. exists first, rest. split; [reflexivity|].
      intros Heq. apply isStr_spec in Heq. congruence.
Qed.

Lemma moderationLoop_strings (textToCheck : string) (keywords : list string) :
  exists m,
    News.moderationLoop textToCheck (JStr <$> keywords) = Ok m
    /\ (News.shouldModerate m = true <->
        exists k, k ∈ keywords /\ includes textToCheck (toLowerCase k) = true).
Proof.
  induction keywords as [|k keywords [m [Hloop Hiff]]]; simpl.
  - eexists. split; [reflexivity|]. simpl. split; [discriminate|].
    intros [k [Hin _]]. inversion Hin.
  - destruct (includes textToCheck (toLowerCase k)) eqn:Hk.
    + eexists. split; [reflexivity|]. simpl. split; [|reflexivity].
      intros _. exists k. split; [left | exact Hk].
    + exists m. split; [exact Hloop|]. rewrite Hiff. split.
      * intros [k' [Hin H]]. exists k'. split; [right; exact Hin | exact H].
      * intros [k' [Hin H]]. inversion Hin; subst; [congruence|].
        exists k'. split; assumption.
Qed.

Lemma shouldModerateContent_strings (settings : obj) (keywords : list string)
    (title content : string) :
  get settings "moderationKeywords" = JArr (JStr <$> keywords) ->
  exists m,
    News.shouldModerateContent title content settings = Ok m
    /\ (News.shouldModerate m = true <->
        truthy (get settings "autoModerationEnabled") = true
        /\ exists k, k ∈ keywords
             /\ exists before after,
                  toLowerCase (title +:+ " " +:+ content)
                  = before +:+ toLowerCase k +:+ after).
Proof.
  intros Hkeywords. unfold News.shouldModerateContent.
  destruct (truthy (get settings "autoModerationEnabled")); cbn [negb].
  - rewrite Hkeywords. cbn.
    destruct (moderationLoop_strings (toLowerCase (title +:+ " " +:+ content)) keywords)
      as [m [Hloop Hiff]].
    exists m. split; [exact Hloop|]. rewrite Hiff. split.
    + intros [k [Hin H]]. split; [reflexivity|]. exists k. split; [exact Hin|].
      apply includes_spec. exact H.
    + intros [_ [k [Hin H]]]. exists k. split; [exact Hin|].
      apply includes_spec. exact H.
  - eexists. split; [reflexivity|]. simpl. split; [discriminate | intros [H _]; discriminate].
Qed.

(** C1, as amended.  [isContentFiltered] blocks a video exactly when its
    channel has an active ban or at least one active keyword rule of the
    store matches its scoped, lower-cased text under the rule's strategy
    (title, description, or both joined by a space; exact, contains,
    starts with, ends with): with no ban, an empty or all-inactive rule
    set allows everything.  [shouldModerateContent] blocks an article
    exactly when auto-moderation is enabled and one of the moderation
    keywords is contained in the lower-cased title and content. *)
Theorem C1_block_iff_ban_or_active_rule_matches
    (st : Store) (rules : list Spec.BanRule) (settings : obj) (keywords : list string)
    (title description channelId : string) :
  banned_keywords_videos st = Spec.stored <$> rules ->
  get settings "moderationKeywords" = JArr (JStr <$> keywords) ->
  (exists blocked,
     isContentFiltered (strapi st) title description channelId = Ok blocked
     /\ (blocked = true <->
         Spec.channelBanned st channelId
         \/ exists r, r ∈ rules /\ Spec.active r = true
                      /\ Spec.matches r title description))
  /\ (exists m,
        News.shouldModerateContent title description settings = Ok m
        /\ (News.shouldModerate m = true <->
            truthy (get settings "autoModerationEnabled") = true
            /\ exists k, k ∈ keywords
                 /\ exists before after,
                      toLowerCase (title +:+ " " +:+ description)
                      = before +:+ toLowerCase k +:+ after)).
Proof.
  intros Hrules Hkeywords. split.
  - apply isContentFiltered_store. exact Hrules.
  - apply shouldModerateContent_strings. exact Hkeywords.
Qed.

Lemma C1_witness :
  (exists blocked,
     isContentFiltered (strapi Samples.ruleStore)
       "Buy now, limited time scam offer" "" "UCok" = Ok blocked
     /\ (blocked = true <->
         Spec.channelBanned Samples.ruleStore "UCok"
         \/ exists r, r ∈ [Samples.promoRule; Samples.scamRule] /\ Spec.active r = true
                      /\ Spec.matches r "Buy now, limited time scam offer" ""))
  /\ (exists m,
        News.shouldModerateContent "Buy now, limited time scam offer" ""
          News.builtInNewsSettings = Ok m
        /\ (News.shouldModerate m = true <->
            truthy (get News.builtInNewsSettings "autoModerationEnabled") = true
            /\ exists k, k ∈ Samples.builtInModerationKeywords
                 /\ exists before after,
                      toLowerCase ("Buy now, limited time scam offer" +:+ " " +:+ "")
                      = before +:+ toLowerCase k +:+ after)).
Proof.
  apply (C1_block_iff_ban_or_active_rule_matches Samples.ruleStore
           [Samples.promoRule; Samples.scamRule] News.builtInNewsSettings
           Samples.builtInModerationKeywords);
    reflexivity.
Defined.

(** C1 as stated fails: a video of a banned channel is blocked although
    the rule set is empty, and with auto-moderation off an article is
    allowed although a keyword matches it. *)
Lemma C1_counterexample :
  ~ (isContentFiltered (strapi Samples.bannedChannelStore)
       "Pattaya beach walk" "A quiet morning" "UCbad" = Ok true
     <-> exists r, r ∈ [] /\ Spec.active r = true
                   /\ Spec.matches r "Pattaya beach walk" "A quiet morning")
  /\ ~ (News.shouldModerate <$> News.shouldModerateContent "This is spam content" "Buy now!"
                                  Samples.moderationOff = Ok true
        <-> exists k, k ∈ Samples.builtInModerationKeywords
              /\ includes (toLowerCase ("This is spam content" +:+ " " +:+ "Buy now!"))
                          (toLowerCase k) = true).
Proof.
  split.
  - intros [Hblock _]. destruct (Hblock eq_refl) as [r [Hin _]]. inversion Hin.
  - intros [_ Hmod].
    assert (H : News.shouldModerate <$> News.shouldModerateContent "This is spam content"
                  "Buy now!" Samples.moderationOff = Ok true).
    { apply Hmod. exists "spam". split; [left | reflexivity]. }
    vm_compute in H. discriminate.
Qed.

(** *** Failing lookups *)

Lemma builtInWords_are_builtInBannedKeywords :
  (fun k => get k "Keyword") <$> builtInBannedKeywords = JStr <$> Spec.builtInWords
  /\ List.filter (fun k => truthy (get k "IsActive")) builtInBannedKeywords
     = builtInBannedKeywords.
Proof. split; reflexivity. Qed.

Lemma safetyLoop_contains (title description k : string) (rest : list obj) :
  safetyLoop title description
    ({[ "Keyword" := JStr k; "MatchType" := JStr "contains"; "IsActive" := JBool true ]}
       :: rest)
  = if includes title (toLowerCase k) || includes description (toLowerCase k)
    then Ok false
    else safetyLoop title description rest.
Proof. reflexivity. Qed.

Lemma safetyLoop_builtIn (title description : string) :
  safetyLoop title description builtInBannedKeywords
  = Ok (negb (existsb (fun k => includes title k || includes description k)
                      Spec.builtInWords)).
Proof.
  unfold builtInBannedKeywords, Spec.builtInWords.
  rewrite !safetyLoop_contains.
  repeat match goal with
         | |- context [toLowerCase ?s] =>
             let s' := eval vm_compute in (toLowerCase s) in
             change (toLowerCase s) with s'
         end.
  cbn [existsb safetyLoop].
  repeat match goal with
         | |- context [includes title ?k || includes description ?k] =>
             destruct (includes title k || includes description k);
             cbn [orb negb]; [reflexivity|]
         end.
  reflexivity.
Qed.

Lemma isContentSafe_fetch_failure (api : Api) (video : Snippet) (message : string) :
  contentSafetyKeywords api = NetworkError message ->
  isContentSafe api video
  = Ok (negb (existsb (fun k => includes (toLowerCase (title video)) k
                                || includes (toLowerCase (description video)) k)
                      Spec.builtInWords)).
Proof.
  intros Hfail. unfold isContentSafe. rewrite Hfail. cbn -[safetyLoop builtInBannedKeywords].
  change (List.filter _ builtInBannedKeywords) with builtInBannedKeywords.
  apply safetyLoop_builtIn.
Qed.

(** [isContentFiltered] never throws. *)
Lemma isContentFiltered_total (api : Api) (title description channelId : string) :
  exists filtered, isContentFiltered api title description channelId = Ok filtered.
Proof.
  unfold isContentFiltered.
  destruct (bannedChannelsOf api channelId) as [m|data]; cbn; [eauto|].
  destruct (channelIsBanned (default [] data)); cbn; [eauto|].
  destruct (activeBannedKeywords api) as [m|data']; cbn; [eauto|].
  destruct (keywordLoop title description (default builtInBannedKeywords data'));
    cbn; eauto.
Qed.

(** On an answer without a body [isContentFiltered] takes the built-in
    list, whose entries carry [Keyword] and not [keyword]: the loop throws
    at the first entry and the [catch] lets the video through. *)
Lemma isContentFiltered_empty_body (api : Api) (title description channelId : string) :
  bannedChannelsOf api channelId = Reply (Some []) ->
  activeBannedKeywords api = Reply None ->
  isContentFiltered api title description channelId = Ok false.
Proof.
  intros Hchannels Hkeywords. unfold isContentFiltered.
  rewrite Hchannels. cbn. rewrite Hkeywords. reflexivity.
Qed.

(** Scenario B of the specification: the title contains the built-in
    keyword scam. *)
Example scenario_B :
  News.shouldModerateContent "Buy now, limited time scam offer" ""
    News.builtInNewsSettings
  = Ok {| News.shouldModerate := true;
          News.reason := Some "Contains moderation keyword: scam" |}
  /\ isContentSafe Samples.unreachable
       {| title := "Buy now, limited time scam offer"; description := "";
          channelId := "UCok" |} = Ok false
  /\ isContentFiltered (strapi Samples.ruleStore)
       "Buy now, limited time scam offer" "" "UCok" = Ok true.
Proof. repeat split. Qed.

(** C2, as amended.  When the content-safety keywords cannot be fetched,
    [isContentSafe] falls back to the built-in keywords: it rejects a video
    exactly when its lower-cased title or description contains one of
    them, and such a video never passes the filters, whatever the other
    lookups answer.  [isContentFiltered] never propagates an error; when
    its banned-keyword lookup fails it applies no keyword rule and lets
    through every video whose channel is not banned. *)
Theorem C2_builtin_fallback_when_safety_keywords_fail
    (api : Api) (video : Snippet) (message : string) :
  contentSafetyKeywords api = NetworkError message ->
  let hit :=
    existsb (fun k => includes (toLowerCase (title video)) k
                      || includes (toLowerCase (description video)) k)
            Spec.builtInWords in
  isContentSafe api video = Ok (negb hit)
  /\ (exists filtered,
        isContentFiltered api (title video) (description video) (channelId video)
        = Ok filtered
        /\ passesFilters api video = Ok (negb hit && negb filtered))
  /\ (forall message',
        activeBannedKeywords api = NetworkError message' ->
        isContentFiltered api (title video) (description video) (channelId video)
        = Ok (match bannedChannelsOf api (channelId video) with
              | Reply data => channelIsBanned (default [] data)
              | NetworkError _ => false
              end)).
Proof.
  intros Hfail hit.
  pose proof (isContentSafe_fetch_failure api video message Hfail) as Hsafe.
  fold hit in Hsafe. clearbody hit. split; [exact Hsafe|]. split.
  - destruct (isContentFiltered_total api (title video) (description video) (channelId video))
      as [filtered Hfiltered].
    exists filtered. split; [exact Hfiltered|].
    unfold passesFilters. rewrite Hsafe. cbn.
    destruct hit; cbn; [reflexivity|]. rewrite Hfiltered. reflexivity.
  - intros message' Hkeywords. unfold isContentFiltered.
    destruct (bannedChannelsOf api (channelId video)) as [m|data]; cbn; [reflexivity|].
    destruct (channelIsBanned (default [] data)); cbn; [reflexivity|].
    rewrite Hkeywords. reflexivity.
Qed.

Lemma C2_witness :
  isContentSafe Samples.unreachable Samples.scamVideo = Ok false
  /\ passesFilters Samples.unreachable Samples.scamVideo = Ok false
  /\ isContentFiltered Samples.unreachable "Buy now, limited time scam offer"
       "Only today" "UCok" = Ok false.
Proof.
  destruct (C2_builtin_fallback_when_safety_keywords_fail
              Samples.unreachable Samples.scamVideo "connect ECONNREFUSED" eq_refl)
    as [Hsafe [[filtered [Hfiltered Hpass]] Hopen]].
  split; [exact Hsafe|]. split.
  - rewrite Hpass. reflexivity.
  - exact (Hopen "connect ECONNREFUSED" eq_refl).
Defined.

(** C2 as stated fails: the banned keywords cannot be fetched, the title
    contains the built-in keyword scam, and the video passes both filters;
    [isContentFiltered] does not fall back to the built-in rule set. *)
Lemma C2_counterexample :
  activeBannedKeywords Samples.bannedKeywordsDown
  = NetworkError "Request failed with status code 500"
  /\ existsb (fun k => includes (toLowerCase (title Samples.scamVideo)) k)
             Spec.builtInWords = true
  /\ isContentFiltered Samples.bannedKeywordsDown "Buy now, limited time scam offer"
       "Only today" "UCok" = Ok false
  /\ passesFilters Samples.bannedKeywordsDown Samples.scamVideo = Ok true.
Proof. repeat split. Qed.

End Classifier.

(** ** Approval *)

Section Approval.

Import Video.

Lemma determineApprovalStatus_cases (api : Api) (channelId : string) :
  determineApprovalStatus api channelId
  = match trustedChannelsOf api channelId with
    | Reply (Some (first :: _)) =>
        if isStr (get first "verification_status") "Verified"
           && truthy (get first "auto_approve")
        then Ok "Approved" else Ok "Pending Review"
    | _ => Ok "Pending Review"
    end.
Proof.
  unfold determineApprovalStatus.
  destruct (trustedChannelsOf api channelId) as [m|[[|first rest]|]]; cbn;
    try reflexivity.
  destruct (isStr _ _ && truthy _); reflexivity.
Qed.

(** C5, as amended.  The decision is Approved exactly when the trust
    lookup answers and the first record it returns (the first active trust
    record of the channel) has verification status Verified and its
    auto-approve flag set; in every other case (another first record, an
    unknown channel, a failed lookup) it is Pending Review. *)
Theorem C5_approved_iff_first_active_record_trusted
    (api : Api) (st : Store) (channelId : string) :
  (determineApprovalStatus api channelId = Ok "Approved"
   \/ determineApprovalStatus api channelId = Ok "Pending Review")
  /\ (determineApprovalStatus api channelId = Ok "Approved" <->
      exists first rest,
        trustedChannelsOf api channelId = Reply (Some (first :: rest))
        /\ get first "verification_status" = JStr "Verified"
        /\ truthy (get first "auto_approve") = true)
  /\ (determineApprovalStatus (strapi st) channelId = Ok "Approved" <->
      exists first rest,
        List.filter (fun o => eqText "channel_id" channelId o && eqTrue "active" o)
                    (trusted_channels_videos st) = first :: rest
        /\ get first "verification_status" = JStr "Verified"
        /\ truthy (get first "auto_approve") = true).
Proof.
  assert (Hgen : forall api',
    (determineApprovalStatus api' channelId = Ok "Approved"
     \/ determineApprovalStatus api' channelId = Ok "Pending Review")
    /\ (determineApprovalStatus api' channelId = Ok "Approved" <->
        exists first rest,
          trustedChannelsOf api' channelId = Reply (Some (first :: rest))
          /\ get first "verification_status" = JStr "Verified"
          /\ truthy (get first "auto_approve") = true)).
  { intros api'. rewrite determineApprovalStatus_cases.
    destruct (trustedChannelsOf api' channelId) as [m|[[|first rest]|]].
    - split; [right; reflexivity|]. split; [discriminate|].
      intros [f [r [H _]]]. discriminate.
    - split; [right; reflexivity|]. split; [discriminate|].
      intros [f [r [H _]]]. discriminate.
    - destruct (isStr (get first "verification_status") "Verified") eqn:Hv;
        destruct (truthy (get first "auto_approve")) eqn:Ha; cbn.
      + split; [left; reflexivity|]. split; [|reflexivity].
        intros _. exists first, rest. apply isStr_spec in Hv. auto.
      + split; [right; reflexivity|]. split; [discriminate|].
        intros [f [r [H [_ Hauto]]]]. injection H as <- <-. congruence.
      + split; [right; reflexivity|]. split; [discriminate|].
        intros [f [r [H [Hver _]]]]. injection H as <- <-.
        apply isStr_spec in Hver. congruence.
      + split; [right; reflexivity|]. split; [discriminate|].
        intros [f [r [H [_ Hauto]]]]. injection H as <- <-. congruence.
    - split; [right; reflexivity|]. split; [discriminate|].
      intros [f [r [H _]]]. discriminate. }
  split; [apply Hgen|]. split; [apply Hgen|].
  destruct (Hgen (strapi st)) as [_ ->]. cbn. split.
  - intros [first [rest [H Hrest]]]. injection H as H. eauto.
  - intros [first [rest [H Hrest]]]. exists first, rest. rewrite H. auto.
Qed.

(** C5 as stated fails: the channel has a trust record that is Verified
    with auto-approve set, yet the decision is Pending Review, because that
    record is not active, or because another active record of the channel
    comes first. *)
Lemma C5_counterexample :
  ~ (determineApprovalStatus
       (strapi (Samples.trustStore [Samples.trustRecord "Verified" true false])) "UCx"
     = Ok "Approved"
     <-> exists r, r ∈ [Samples.trustRecord "Verified" true false]
           /\ get r "channel_id" = JStr "UCx"
           /\ get r "verification_status" = JStr "Verified"
           /\ truthy (get r "auto_approve") = true)
  /\ ~ (determineApprovalStatus
          (strapi (Samples.trustStore [Samples.trustRecord "Pending" false true;
                                       Samples.trustRecord "Verified" true true])) "UCx"
        = Ok "Approved"
        <-> exists r, r ∈ [Samples.trustRecord "Pending" false true;
                           Samples.trustRecord "Verified" true true]
              /\ get r "channel_id" = JStr "UCx"
              /\ get r "verification_status" = JStr "Verified"
              /\ truthy (get r "auto_approve") = true).
Proof.
  split; intros [_ Hclaim].
  - assert (H : determineApprovalStatus
       (strapi (Samples.trustStore [Samples.trustRecord "Verified" true false])) "UCx"
       = Ok "Approved").
    { apply Hclaim. eexists. split; [left|]. repeat split. }
    vm_compute in H. discriminate.
  - assert (H : determineApprovalStatus
       (strapi (Samples.trustStore [Samples.trustRecord "Pending" false true;
                                    Samples.trustRecord "Verified" true true])) "UCx"
       = Ok "Approved").
    { apply Hclaim. eexists. split; [right; left|]. repeat split. }
    vm_compute in H. discriminate.
Qed.

(** Scenario D of the specification. *)
Example scenario_D :
  determineApprovalStatus
    (strapi (Samples.trustStore [Samples.trustRecord "Verified" true true])) "UCx"
  = Ok "Approved"
  /\ determineApprovalStatus
       (strapi (Samples.trustStore [Samples.trustRecord "Verified" false true])) "UCx"
     = Ok "Pending Review"
  /\ determineApprovalStatus
       (strapi (Samples.trustStore [Samples.trustRecord "Verified" true true])) "UCunknown"
     = Ok "Pending Review"
  /\ determineApprovalStatus Samples.unreachable "UCx" = Ok "Pending Review".
Proof. repeat split. Qed.

End Approval.

(** ** Configuration fallbacks *)

Section Fallbacks.

Import Video.

Lemma builtInTopics_active :
  List.filter (fun t => truthy (get t "IsActive")) builtInTopics = builtInTopics.
Proof. reflexivity. Qed.

Lemma activeTopics_resolve (api : Api) :
  activeTopics api
  = Ok (Spec.resolve [trendingTagTopics api; trustedChannelTopics api; Ok builtInTopics]
                     getEmergencyTopics).
Proof.
  unfold activeTopics, topicsFromTrendingTags, topicsFromTrustedChannels.
  rewrite builtInTopics_active.
  destruct (trendingTagTopics api) as [[|t ts]|m]; cbn -[builtInTopics];
    try reflexivity;
    destruct (trustedChannelTopics api) as [[|t' ts']|m']; reflexivity.
Qed.

Lemma trendingTagTopics_unavailable (api : Api) :
  Spec.unavailable (activeTrendingTags api) ->
  trendingTagTopics api = Ok [] \/ exists m, trendingTagTopics api = Throw m.
Proof.
  unfold trendingTagTopics, Spec.unavailable.
  destruct (activeTrendingTags api) as [m|[[|t ts]|]]; cbn; intros H;
    try contradiction; eauto.
Qed.

Lemma trustedChannelTopics_unavailable (api : Api) :
  Spec.unavailable (verifiedTrustedChannels api) ->
  trustedChannelTopics api = Ok [] \/ exists m, trustedChannelTopics api = Throw m.
Proof.
  unfold trustedChannelTopics, Spec.unavailable.
  destruct (verifiedTrustedChannels api) as [m|[[|t ts]|]]; cbn; intros H;
    try contradiction; eauto.
Qed.

Lemma generateTopics_nonempty (channels topics : list obj) :
  channels <> [] ->
  generateTopicsFromTrustedChannels channels = Ok topics ->
  topics <> [].
Proof.
  unfold generateTopicsFromTrustedChannels, sliceTo.
  destruct channels as [|c channels]; [congruence|]. intros _. cbn.
  destruct (channelTopic c) as [t|m]; cbn; [|discriminate].
  destruct (channelTopics (take 2 channels)) as [ts|m]; cbn; [|discriminate].
  intros H. injection H as <-. discriminate.
Qed.

Lemma getNewsSettings_cases (settingsResponse : Response obj) :
  News.getNewsSettings settingsResponse
  = match settingsResponse with
    | Reply (Some db) =>
        if decide (0 < size db)%nat
        then Ok (spread News.builtInNewsSettings db)
        else Ok News.builtInNewsSettings
    | _ => Ok News.builtInNewsSettings
    end.
Proof.
  unfold News.getNewsSettings.
  destruct settingsResponse as [m|[db|]]; cbn -[News.builtInNewsSettings];
    try reflexivity.
  destruct (decide (0 < size db)%nat); reflexivity.
Qed.

(** C4.  The topics of a cycle are those of the first tier that succeeds
    with a non-empty result: the active trending tags, else the topics
    generated from the verified trusted channels, else the built-in
    topics.  The news settings are the stored settings (laid over the
    built-in ones, field by field) when the store answers with a non-empty
    object, else the built-in settings, whose [fetchIntervalMinutes] is 30.
    Neither resolution throws. *)
Theorem C4_first_available_provider_else_builtin
    (api : Api) (settingsResponse : Response obj) :
  activeTopics api
  = Ok (Spec.resolve [trendingTagTopics api; trustedChannelTopics api; Ok builtInTopics]
                     getEmergencyTopics)
  /\ (forall tags,
        activeTrendingTags api = Reply (Some tags) -> tags <> [] ->
        activeTopics api = Ok (tagTopic <$> tags))
  /\ (forall channels topics,
        Spec.unavailable (activeTrendingTags api) ->
        verifiedTrustedChannels api = Reply (Some channels) -> channels <> [] ->
        generateTopicsFromTrustedChannels channels = Ok topics ->
        activeTopics api = Ok topics)
  /\ (Spec.unavailable (activeTrendingTags api) ->
      Spec.unavailable (verifiedTrustedChannels api) ->
      activeTopics api = Ok builtInTopics)
  /\ (exists settings, News.getNewsSettings settingsResponse = Ok settings)
  /\ (forall db,
        settingsResponse = Reply (Some db) -> db <> ∅ ->
        exists settings,
          News.getNewsSettings settingsResponse = Ok settings
          /\ (forall k v, db !! k = Some v -> settings !! k = Some v)
          /\ (forall k, db !! k = None -> settings !! k = News.builtInNewsSettings !! k))
  /\ ((forall db, settingsResponse = Reply (Some db) -> db = ∅) ->
      News.getNewsSettings settingsResponse = Ok News.builtInNewsSettings)
  /\ get News.builtInNewsSettings "fetchIntervalMinutes" = JNum 30.
Proof.
  split; [apply activeTopics_resolve|].
  split.
  { intros tags Htags Hne. rewrite activeTopics_resolve.
    unfold trendingTagTopics at 1. rewrite Htags.
    destruct tags as [|t ts]; [congruence|]. reflexivity. }
  split.
  { intros channels topics Hfirst Hsecond Hne Hgen. rewrite activeTopics_resolve.
    pose proof (generateTopics_nonempty channels topics Hne Hgen) as Htopics.
    assert (Hprov : trustedChannelTopics api = Ok topics).
    { unfold trustedChannelTopics. rewrite Hsecond.
      destruct channels as [|c cs]; [congruence|]. exact Hgen. }
    rewrite Hprov.
    destruct topics as [|t ts]; [congruence|].
    destruct (trendingTagTopics_unavailable api Hfirst) as [-> | [m ->]]; reflexivity. }
  split.
  { intros Hfirst Hsecond. rewrite activeTopics_resolve.
    destruct (trendingTagTopics_unavailable api Hfirst) as [-> | [m ->]];
      destruct (trustedChannelTopics_unavailable api Hsecond) as [-> | [m' ->]];
      reflexivity. }
  split.
  { rewrite getNewsSettings_cases.
    destruct settingsResponse as [m|[db|]]; eauto.
    destruct (decide (0 < size db)%nat); eauto. }
  split.
  { intros db -> Hne. rewrite getNewsSettings_cases.
    destruct (decide (0 < size db)%nat) as [_|Hsize].
    - eexists. split; [reflexivity|]. unfold spread. split.
      + intros k v Hk. apply lookup_union_Some_l. exact Hk.
      + intros k Hk. apply lookup_union_r. exact Hk.
    - exfalso. apply Hne. apply map_size_empty_iff. lia. }
  split.
  { intros Hempty. rewrite getNewsSettings_cases.
    destruct settingsResponse as [m|[db|]]; try reflexivity.
    rewrite (Hempty db eq_refl). reflexivity. }
  reflexivity.
Qed.

(** Scenario A of the specification: the store is unreachable. *)
Lemma C4_witness :
  activeTopics Samples.unreachable = Ok builtInTopics
  /\ News.getNewsSettings (NetworkError "connect ECONNREFUSED")
     = Ok News.builtInNewsSettings
  /\ get News.builtInNewsSettings "fetchIntervalMinutes" = JNum 30.
Proof.
  destruct (C4_first_available_provider_else_builtin Samples.unreachable
              (NetworkError "connect ECONNREFUSED"))
    as (_ & _ & _ & Hbuiltin & _ & _ & Hdefault & Hinterval).
  split; [exact (Hbuiltin I I)|].
  split; [|exact Hinterval].
  apply Hdefault. intros db H. discriminate H.
Defined.

Lemma resolve_first_available {A : Type} (failing : list (Exc (list A)))
    (x : A) (l : list A) (rest : list (Exc (list A))) (default : list A) :
  Forall (fun p => p = Ok [] \/ exists m, p = Throw m) failing ->
  Spec.resolve (failing ++ Ok (x :: l) :: rest) default = x :: l.
Proof.
  induction 1 as [|p failing [-> | [m ->]] _ IH]; cbn; auto.
Qed.

Lemma resolve_default {A : Type} (failing : list (Exc (list A))) (default : list A) :
  Forall (fun p => p = Ok [] \/ exists m, p = Throw m) failing ->
  Spec.resolve failing default = default.
Proof.
  induction 1 as [|p failing [-> | [m ->]] _ IH]; cbn; auto.
Qed.

End Fallbacks.

(** ** The delay to the next video cycle *)

Section Timing.

Import Video.




(** Without a trending tag the delay follows the daytime window, except
    from 23:01 to 23:59, where the test on the hour alone still sees day. *)
Lemma nextInterval_window (now : LocalTime) (random : Q) :
  0 <= hours now <= 23 -> 0 <= minutes now <= 59 ->
  (Spec.daytime now -> nextInterval false (getHours now) random = 30 * 60 * 1000)
  /\ (~ Spec.daytime now -> hours now <> 23 ->
      nextInterval false (getHours now) random = 2 * 60 * 60 * 1000)
  /\ (hours now = 23 -> 1 <= minutes now ->
      ~ Spec.daytime now
      /\ nextInterval false (getHours now) random = 30 * 60 * 1000).
Proof.
  destruct now as [h m]. unfold Spec.daytime, nextInterval, getHours. cbn.
  intros Hh Hm. repeat split.
  - intros Hday.
    destruct (6 <=? h) eqn:H6; destruct (h <=? 23) eqn:H23; cbn; try reflexivity; lia.
  - intros Hnight Hne.
    destruct (6 <=? h) eqn:H6; destruct (h <=? 23) eqn:H23; cbn; try reflexivity; lia.
  - lia.
  - subst h. reflexivity.
Qed.

(** C8.  At 23:30 local time, which is outside the daytime window
    06:00-23:00, and with no active featured trending tag, the next fetch
    is scheduled after 30 minutes, the daytime delay, not after the 2 hours
    of the night: the test [currentHour <= 23] holds for the whole hour
    from 23:00 to 23:59. *)
Theorem C8_half_past_eleven_pm_gets_daytime_delay (random : Q) :
  let now := {| hours := 23; minutes := 30 |} in
  ~ Spec.daytime now
  /\ checkTrendingTags (strapi Samples.emptyStore) = Ok false
  /\ scheduleNextFetch true (strapi Samples.emptyStore) now random
     = Ok (Some (30 * 60 * 1000))
  /\ 30 * 60 * 1000 <> 2 * 60 * 60 * 1000.
Proof.
  cbv zeta. split.
  - unfold Spec.daytime. cbn. lia.
  - repeat split. discriminate.
Qed.

End Timing.

(** ** Retention *)

Section Retention.

Import News.

Lemma insertNewestFirst_Permutation (a : Article) (l : list Article) :
  Permutation (insertNewestFirst a l) (a :: l).
Proof.
  induction l as [|b l IH]; simpl; [reflexivity|].
  destruct (publishedAt a <? publishedAt b); [|reflexivity].
  rewrite IH. apply perm_swap.
Qed.

Lemma sortNewestFirst_Permutation (l : list Article) :
  Permutation (sortNewestFirst l) l.
Proof.
  induction l as [|a l IH]; simpl; [reflexivity|].
  rewrite insertNewestFirst_Permutation, IH. reflexivity.
Qed.

Lemma sortNewestFirst_length (l : list Article) :
  length (sortNewestFirst l) = length l.
Proof. apply Permutation_length, sortNewestFirst_Permutation. Qed.

Lemma insertNewestFirst_sorted (a : Article) (l : list Article) :
  StronglySorted Spec.newerOrEqual l -> StronglySorted Spec.newerOrEqual (insertNewestFirst a l).
Proof.
  induction 1 as [|b l Hsorted IH Hb]; simpl.
  - repeat constructor.
  - destruct (publishedAt a <? publishedAt b) eqn:Hlt.
    + constructor; [exact IH|].
      rewrite insertNewestFirst_Permutation. constructor; [|exact Hb].
      unfold Spec.newerOrEqual. lia.
    + constructor; [constructor; assumption|].
      constructor; [unfold Spec.newerOrEqual; lia|].
      eapply Forall_impl; [exact Hb|]. unfold Spec.newerOrEqual. intros c. cbn. lia.
Qed.

Lemma sortNewestFirst_sorted (l : list Article) :
  StronglySorted Spec.newerOrEqual (sortNewestFirst l).
Proof.
  induction l as [|a l IH]; simpl; [constructor|].
  apply insertNewestFirst_sorted, IH.
Qed.

Lemma StronglySorted_bool_filter (f : Article -> bool) (l : list Article) :
  StronglySorted Spec.newerOrEqual l -> StronglySorted Spec.newerOrEqual (List.filter f l).
Proof.
  induction 1 as [|a l Hsorted IH Ha]; simpl; [constructor|].
  destruct (f a); [|exact IH].
  constructor; [exact IH|].
  apply List.Forall_forall. intros b Hb. apply filter_In in Hb as [Hb _].
  rewrite List.Forall_forall in Ha. auto.
Qed.

(** [slice] with a limit within the array. *)
Lemma slice_within {A : Type} (start : Z) (l : list A) :
  0 <= start -> slice start l = drop (Z.to_nat start) l.
Proof. intros H. unfold slice. destruct (start <? 0) eqn:E; [lia | reflexivity]. Qed.

Lemma notPreserved_not_pinned (settings : CleanupSettings) (a : Article) :
  preservePinnedArticles settings = true ->
  notPreserved settings a = true -> isPinned a = false.
Proof.
  unfold notPreserved. intros ->. destruct (isPinned a); cbn; congruence.
Qed.

Lemma notPreserved_plain (settings : CleanupSettings) (a : Article) :
  isPinned a = false -> isBreaking a = false -> notPreserved settings a = true.
Proof.
  unfold notPreserved. intros -> ->. rewrite !andb_false_r. reflexivity.
Qed.

Lemma articlesToDelete_count_only (settings : CleanupSettings) (currentTime : Z)
    (items : list Article) :
  cleanupMode settings = "count_only" ->
  0 <= maxArticleLimit settings < Z.of_nat (length items) ->
  articlesToDelete settings currentTime items
  = List.filter (notPreserved settings)
      (drop (Z.to_nat (maxArticleLimit settings)) (sortNewestFirst items)).
Proof.
  intros Hmode Hlimit. unfold articlesToDelete. rewrite Hmode. cbn.
  destruct (Z.of_nat (length items) >? maxArticleLimit settings) eqn:E; [|lia].
  rewrite slice_within by lia. reflexivity.
Qed.

Lemma filter_all {A : Type} (f : A -> bool) (l : list A) :
  Forall (fun a => f a = true) l -> List.filter f l = l.
Proof.
  induction 1 as [|a l Ha _ IH]; simpl; [reflexivity|]. rewrite Ha, IH. reflexivity.
Qed.

Lemma filter_none {A : Type} (f : A -> bool) (l : list A) :
  Forall (fun a => f a = true) l -> List.filter (fun a => negb (f a)) l = [].
Proof.
  induction 1 as [|a l Ha _ IH]; simpl; [reflexivity|]. rewrite Ha. exact IH.
Qed.

(** C3, as amended.  With both preserve flags set and a limit
    [0 <= L < N - M], the [count_only] plan takes the [N - L] items that
    follow the [L] most recent ones and drops the preserved ones from
    them: it holds [N - L] items less the preserved candidates, exactly
    [N - L] when no item is pinned or preserved as breaking; it lists them
    newest first; none of them is pinned, and none is newer than any of
    the [L] items that are kept. *)
Theorem C3_count_only_plan
    (settings : CleanupSettings) (currentTime : Z) (items : list Article) :
  let L := maxArticleLimit settings in
  let N := Z.of_nat (length items) in
  let M := Z.of_nat (length (List.filter isPinned items)) in
  let plan := articlesToDelete settings currentTime items in
  let kept := take (Z.to_nat L) (sortNewestFirst items) in
  let candidates := drop (Z.to_nat L) (sortNewestFirst items) in
  cleanupMode settings = "count_only" ->
  preservePinnedArticles settings = true ->
  preserveBreakingNews settings = true ->
  0 <= L -> L < N - M ->
  Permutation items (kept ++ candidates)
  /\ Z.of_nat (length candidates) = N - L
  /\ plan = List.filter (notPreserved settings) candidates
  /\ Z.of_nat (length plan)
     = N - L - Z.of_nat (length (List.filter (fun a => negb (notPreserved settings a))
                                             candidates))
  /\ (Forall (fun a => isPinned a = false /\ isBreaking a = false) items ->
      Z.of_nat (length plan) = N - L)
  /\ Forall (fun a => isPinned a = false) plan
  /\ StronglySorted Spec.newerOrEqual plan
  /\ (forall a b, a ∈ plan -> b ∈ kept -> publishedAt a <= publishedAt b).
Proof.
  intros L N M plan kept candidates Hmode Hpin Hbrk HL HLN.
  assert (HM : 0 <= M) by (unfold M; lia).
  assert (Hplan : plan = List.filter (notPreserved settings) candidates).
  { unfold plan, candidates, L. apply articlesToDelete_count_only; [exact Hmode|].
    fold L N. lia. }
  assert (Hlen : Z.of_nat (length candidates) = N - L).
  { unfold candidates. rewrite length_drop, sortNewestFirst_length. unfold N. lia. }
  assert (Hsplit : sortNewestFirst items = (kept ++ candidates)%list).
  { unfold kept, candidates. symmetry. apply take_drop. }
  assert (Hsorted : StronglySorted Spec.newerOrEqual (kept ++ candidates)).
  { rewrite <- Hsplit. apply sortNewestFirst_sorted. }
  split.
  { rewrite <- Hsplit. symmetry. apply sortNewestFirst_Permutation. }
  split; [exact Hlen|].
  split; [exact Hplan|].
  split.
  { rewrite Hplan.
    pose proof (filter_length (notPreserved settings) candidates) as Hfl. lia. }
  split.
  { intros Hplain. rewrite Hplan, filter_all; [exact Hlen|].
    apply List.Forall_forall. intros a Ha.
    assert (Hin : In a items).
    { eapply Permutation_in; [apply sortNewestFirst_Permutation|].
      rewrite Hsplit. apply in_or_app. right. exact Ha. }
    rewrite List.Forall_forall in Hplain. destruct (Hplain a Hin) as [H1 H2].
    apply notPreserved_plain; assumption. }
  split.
  { rewrite Hplan. apply List.Forall_forall. intros a Ha.
    apply filter_In in Ha as [_ Ha].
    eapply notPreserved_not_pinned; eassumption. }
  split.
  { rewrite Hplan. apply StronglySorted_bool_filter.
    eapply StronglySorted_app_1_r. exact Hsorted. }
  intros a b Ha Hb. rewrite Hplan in Ha.
  apply list_elem_of_In, filter_In in Ha as [Ha _].
  apply list_elem_of_In in Ha.
  exact (StronglySorted_app_1_elem_of _ _ _ _ _ Hsorted Hb Ha).
Qed.

Lemma C3_witness :
  let plan := articlesToDelete (Samples.cleanup "count_only" 1 24) 0 Samples.fourArticles in
  Z.of_nat (length plan) = 4 - 1 - 1
  /\ Forall (fun a => isPinned a = false) plan
  /\ StronglySorted Spec.newerOrEqual plan.
Proof.
  destruct (C3_count_only_plan (Samples.cleanup "count_only" 1 24) 0 Samples.fourArticles)
    as (_ & _ & _ & Hcount & _ & Hpinned & Hsorted & _);
    [reflexivity | reflexivity | reflexivity | cbn; lia | cbn; lia |].
  split; [exact Hcount|]. split; [exact Hpinned | exact Hsorted].
Defined.

(** C3 as stated fails: of four items, one pinned and the oldest, with the
    limit 1, the plan holds two items, not [N - L = 3], and it lists them
    newest first. *)
Lemma C3_counterexample :
  let items := Samples.fourArticles in
  let plan := articlesToDelete (Samples.cleanup "count_only" 1 24) 0 items in
  1 < Z.of_nat (length items) - Z.of_nat (length (List.filter isPinned items))
  /\ plan = [Samples.article 4 30 false; Samples.article 3 20 false]
  /\ Z.of_nat (length plan) <> Z.of_nat (length items) - 1
  /\ ~ StronglySorted Spec.olderOrEqual plan.
Proof.
  cbv zeta. split; [vm_compute; reflexivity|]. split; [reflexivity|].
  split; [vm_compute; discriminate|].
  change (articlesToDelete _ _ _)
    with [Samples.article 4 30 false; Samples.article 3 20 false].
  intros H. apply StronglySorted_inv in H as [_ H].
  apply Forall_inv in H. unfold Spec.olderOrEqual in H. cbn in H. lia.
Qed.

(** Scenario C of the specification: 60 stored items, limit 21, none
    pinned or breaking. *)
Example scenario_C :
  let items := (fun i => Samples.article i (1000 + i) false) <$> seqZ 1 60 in
  let plan := articlesToDelete (Samples.cleanup "count_only" 21 24) 0 items in
  length plan = 39%nat
  /\ id <$> plan = reverse (seqZ 1 39)
  /\ id <$> take 21 (sortNewestFirst items) = reverse (seqZ 40 21).
Proof. vm_compute. repeat split. Qed.

(** *** The combined mode *)

Lemma bool_filter_sublist {A : Type} (f : A -> bool) (l : list A) :
  List.filter f l `sublist_of` l.
Proof.
  induction l as [|a l IH]; simpl; [constructor|].
  destruct (f a); [apply sublist_skip | apply sublist_cons]; exact IH.
Qed.

Lemma slice_is_drop {A : Type} (start : Z) (l : list A) :
  exists n, slice start l = drop n l.
Proof. unfold slice. destruct (start <? 0); eauto. Qed.

Lemma NoDup_ids_sublist (l items : list Article) :
  l `sublist_of` items -> NoDup (id <$> items) -> NoDup (id <$> l).
Proof.
  intros Hsub Hnodup. eapply sublist_NoDup; [exact Hnodup|].
  apply fmap_sublist. exact Hsub.
Qed.

Lemma includesArticle_true (l : list Article) (a : Article) :
  includesArticle l a = true <-> exists o, o ∈ l /\ id o = id a.
Proof.
  unfold includesArticle. rewrite existsb_exists. split.
  - intros [o [Hin Heq]]. exists o. split; [apply list_elem_of_In; exact Hin | lia].
  - intros [o [Hin Heq]]. exists o. split; [apply list_elem_of_In; exact Hin | lia].
Qed.

Lemma oldArticle_spec (settings : CleanupSettings) (cutoff : Z) (a : Article) :
  oldArticle settings cutoff a = notPreserved settings a && (publishedAt a <? cutoff).
Proof.
  unfold oldArticle, notPreserved.
  destruct (preservePinnedArticles settings && isPinned a); [reflexivity|].
  destruct (preserveBreakingNews settings && isBreaking a); reflexivity.
Qed.

Lemma count_by_id_once (l : list Article) (a : Article) :
  NoDup (id <$> l) -> a ∈ l ->
  length (List.filter (fun o => id o =? id a) l) = 1%nat.
Proof.
  induction l as [|b l IH]; intros Hnodup Hin; [inversion Hin|].
  cbn in Hnodup. apply NoDup_cons in Hnodup as [Hfresh Hnodup]. cbn.
  destruct (id b =? id a) eqn:Heq.
  - cbn. f_equal. apply length_zero_iff_nil.
    destruct (List.filter _ l) as [|c rest] eqn:Hfilter; [reflexivity|].
    exfalso. apply Hfresh.
    assert (Hc : In c (List.filter (fun o => id o =? id a) l))
      by (rewrite Hfilter; left; reflexivity).
    apply filter_In in Hc as [Hc Hid].
    apply list_elem_of_fmap. exists c. split; [lia | apply list_elem_of_In; exact Hc].
  - apply IH; [exact Hnodup|].
    inversion Hin; subst; [lia | assumption].
Qed.





(** *** Running the plan *)

(** The run never throws. *)
Lemma performAdvancedCleanup_total (faults : Faults) (settings : CleanupSettings)
    (currentTime : Z) (backend : Backend) :
  exists result, performAdvancedCleanup faults settings currentTime backend = Ok result.
Proof.
  unfold performAdvancedCleanup.
  destruct (listFails faults); cbn; [eauto|].
  destruct (nonEmpty _); cbn; eauto.
Qed.

(** Whether the statistics can be written does not touch the articles. *)
Lemma performAdvancedCleanup_update_best_effort (faults : Faults)
    (settings : CleanupSettings) (currentTime : Z) (backend : Backend) (fails : bool) :
  (fun result => collection (fst result))
    <$> performAdvancedCleanup
          {| listFails := listFails faults; deleteFails := deleteFails faults;
             updateFails := fails |} settings currentTime backend
  = (fun result => collection (fst result))
      <$> performAdvancedCleanup faults settings currentTime backend.
Proof.
  unfold performAdvancedCleanup. cbn [listFails deleteFails updateFails].
  destruct (listFails faults); cbn; [reflexivity|].
  destruct (nonEmpty _); cbn; reflexivity.
Qed.

(** C7.  Two articles are due for deletion and the deletion of the first
    one fails.  The run completes, and the second article is gone while
    the first is still stored; yet the statistics written to the settings
    and the closing log line count two deleted articles, the number of
    deletions attempted. *)
Theorem C7_failed_deletion_is_counted_as_deleted :
  let settings := Samples.cleanup "age_only" 21 24 in
  let before := {| collection := Samples.twoOldArticles; savedStats := None |} in
  exists after report,
    performAdvancedCleanup Samples.firstDeleteFails settings 86400100 before
    = Ok (after, report)
    /\ attempted report = Samples.twoOldArticles
    /\ collection after = [Samples.article 1 10 false]
    /\ (length (collection before) - length (collection after) = 1)%nat
    /\ savedStats after
       = Some {| totalDeleted := 2; lastDeletedCount := 2;
                 lastCleanupDate := Some 86400100 |}
    /\ removedLogged report = Some 2.
Proof. cbv zeta. eexists. eexists. repeat split. Qed.

(** *** The breaking flag *)

Lemma breakingNewsDataOf_flag (settings : obj) (sourceName : string) (now : Z)
    (isDuplicate : bool) (item : FeedItem) (data : BreakingNewsData) :
  breakingNewsDataOf settings sourceName now isDuplicate item = Ok (Some data) ->
  title item = Some (Title data)
  /\ Summary data = cleanContentOf settings item
  /\ (IsBreaking data = true <->
      exists keyword, keyword ∈ breakingKeywords
        /\ ((exists before after,
               toLowerCase (Title data) = before +:+ keyword +:+ after)
            \/ (exists before after,
                  toLowerCase (Summary data) = before +:+ keyword +:+ after)))
  /\ Severity data = (if IsBreaking data then "high" else "medium")
  /\ data_isPinned data = false.
Proof.
  unfold breakingNewsDataOf. destruct isDuplicate; [discriminate|].
  destruct (shouldModerateContent _ _ _) as [m|e]; cbn -[existsb breakingKeywords];
    [|discriminate].
  destruct (shouldModerate m); [discriminate|].
  destruct (title item) as [itemTitle|]; [|discriminate].
  intros H. injection H as <-. cbn [Title Summary IsBreaking Severity data_isPinned].
  split; [reflexivity|]. split; [reflexivity|]. split; [|split; reflexivity].
  match goal with
  | |- _ <-> ?R =>
      change (existsb (fun keyword =>
                         includes (toLowerCase itemTitle) keyword
                         || includes (toLowerCase (cleanContentOf settings item)) keyword)
                      breakingKeywords = true <-> R)
  end.
  rewrite existsb_exists. split.
  - intros [k [Hin Hk]]. exists k. split; [apply list_elem_of_In; exact Hin|].
    apply orb_true_iff in Hk as [Hk | Hk]; apply includes_spec in Hk; auto.
  - intros [k [Hin Hk]]. exists k. split; [apply list_elem_of_In; exact Hin|].
    apply orb_true_iff. destruct Hk as [Hk | Hk]; apply includes_spec in Hk; auto.
Qed.

(** C10.  An item titled Breaking: ... is posted with [IsBreaking] true and
    severity high, and the stored article carries that flag.  The cleanup
    reads [article.isBreaking], a property the stored article lacks: with
    [preserveBreakingNews] set it still selects the article for deletion. *)
Theorem C10_breaking_article_is_not_preserved :
  let settings := Samples.cleanup "count_only" 0 24 in
  exists data,
    breakingNewsDataOf builtInNewsSettings "Pattaya Mail" 86400100 false
      Samples.floodItem = Ok (Some data)
    /\ IsBreaking data = true
    /\ Severity data = "high"
    /\ stored_IsBreaking (created 7 data) = true
    /\ preserveBreakingNews settings = true
    /\ articlesToDelete settings 86400100 [created 7 data] = [created 7 data].
Proof. cbv zeta. eexists. repeat split. Qed.

End Retention.

(** ** One cycle at a time *)

Section Cycles.

(** The flag of the news scheduler is set exactly while a cycle is in
    flight, and there is never more than one. *)
Lemma news_step_guard (e : News.Event) (r r' : News.Runtime) :
  (News.isRunning (News.sched r) = true /\ News.inFlight r = 1%nat
   \/ News.isRunning (News.sched r) = false /\ News.inFlight r = 0%nat) ->
  News.step e r = Some r' ->
  News.isRunning (News.sched r') = true /\ News.inFlight r' = 1%nat
  \/ News.isRunning (News.sched r') = false /\ News.inFlight r' = 0%nat.
Proof.
  destruct r as [[running count] n]. cbn.
  intros [[-> ->] | [-> ->]]; destruct e as [|body]; cbn; intros H;
    try discriminate; injection H as <-; cbn; auto.
Qed.

Lemma news_run_guard (events : list News.Event) (r r' : News.Runtime) :
  (News.isRunning (News.sched r) = true /\ News.inFlight r = 1%nat
   \/ News.isRunning (News.sched r) = false /\ News.inFlight r = 0%nat) ->
  News.run events r = Some r' ->
  News.isRunning (News.sched r') = true /\ News.inFlight r' = 1%nat
  \/ News.isRunning (News.sched r') = false /\ News.inFlight r' = 0%nat.
Proof.
  revert r. induction events as [|e events IH]; intros r Hinv; cbn.
  - intros H. injection H as <-. exact Hinv.
  - destruct (News.step e r) as [r1|] eqn:Hstep; [|discriminate].
    apply IH. eapply news_step_guard; eassumption.
Qed.

(** The timer chain of the video scheduler: a cycle in flight has no timer
    pending behind it. *)
Lemma video_step_chain (e : Video.Event) (r r' : Video.Runtime) :
  e <> Video.Call -> e <> Video.Start ->
  (Video.inFlight r = 1%nat /\ Video.timerArmed r = false
   \/ Video.inFlight r = 0%nat) ->
  Video.step e r = Some r' ->
  Video.inFlight r' = 1%nat /\ Video.timerArmed r' = false
  \/ Video.inFlight r' = 0%nat.
Proof.
  destruct r as [s n armed]. intros Hcall Hstart. cbn.
  destruct e as [| |body|]; try congruence; cbn.
  - intros [[-> ->] | ->]; intros H; [|discriminate]. injection H as <-. cbn. auto.
  - intros [[-> ->] | ->]; [discriminate|].
    destruct armed; [|discriminate].
    destruct (Video.isRunning s); intros H; injection H as <-; cbn; auto.
Qed.

Lemma video_run_chain (events : list Video.Event) (r r' : Video.Runtime) :
  Forall (fun e => e <> Video.Call /\ e <> Video.Start) events ->
  (Video.inFlight r = 1%nat /\ Video.timerArmed r = false
   \/ Video.inFlight r = 0%nat) ->
  Video.run events r = Some r' ->
  Video.inFlight r' = 1%nat /\ Video.timerArmed r' = false
  \/ Video.inFlight r' = 0%nat.
Proof.
  intros Hevents. revert r.
  induction Hevents as [|e events [Hcall Hstart] _ IH]; intros r Hinv; cbn.
  - intros H. injection H as <-. exact Hinv.
  - destruct (Video.step e r) as [r1|] eqn:Hstep; [|discriminate].
    apply IH. eapply video_step_chain; eassumption.
Qed.

(** C9, as amended.  In the news scheduler a call of [fetchNews] that
    arrives while a cycle is in flight returns at once and changes
    nothing, so at most one cycle runs; [isRunning] is set exactly while a
    cycle is in flight: it is set when the cycle starts and cleared when
    the cycle ends, whether its body returned or threw, and no error leaves
    [fetchNews].  The video scheduler has no such flag: its cycles follow
    one another because the timer of the next one is armed only when a
    cycle has returned. *)
Theorem C9_one_cycle_at_a_time
    (newsEvents : list News.Event) (news : News.Runtime)
    (videoEvents : list Video.Event) (video : Video.Runtime) :
  News.run newsEvents News.constructed = Some news ->
  Forall (fun e => e <> Video.Call /\ e <> Video.Start) videoEvents ->
  Video.run (Video.Start :: videoEvents) Video.constructed = Some video ->
  ((News.inFlight news <= 1)%nat
   /\ (News.isRunning (News.sched news) = true <-> News.inFlight news = 1%nat)
   /\ (News.inFlight news = 1%nat -> News.step News.Trigger news = Some news)
   /\ (News.inFlight news = 0%nat ->
       exists started,
         News.step News.Trigger news = Some started
         /\ News.isRunning (News.sched started) = true
         /\ News.inFlight started = 1%nat)
   /\ (forall body ended,
         News.step (News.Settle body) news = Some ended ->
         News.isRunning (News.sched ended) = false
         /\ News.inFlight ended = 0%nat
         /\ snd (News.fetchNews_leave body (News.sched news)) = Ok tt))
  /\ (Video.inFlight video <= 1)%nat.
Proof.
  intros Hnews Hchain Hvideo. split.
  - assert (Hinv := news_run_guard newsEvents News.constructed news
                      (or_intror (conj eq_refl eq_refl)) Hnews).
    destruct news as [[running count] n]. cbn in Hinv |- *.
    destruct Hinv as [[-> ->] | [-> ->]].
    + split; [lia|]. split; [tauto|]. split; [reflexivity|]. split; [discriminate|].
      intros body ended H. injection H as <-. cbn.
      split; [reflexivity|]. split; [reflexivity|]. destruct body as [[]|]; reflexivity.
    + split; [lia|]. split; [split; discriminate|]. split; [discriminate|].
      split; [|discriminate]. intros _. eexists. repeat split.
  - cbn in Hvideo.
    eapply video_run_chain in Hvideo; [|exact Hchain|left; split; reflexivity].
    destruct Hvideo as [[-> _] | ->]; lia.
Qed.

Lemma C9_witness :
  exists news video,
    News.run [News.Trigger; News.Trigger; News.Settle (Throw "Network Error");
              News.Trigger] News.constructed = Some news
    /\ Video.run [Video.Start; Video.Settle (Ok tt); Video.TimerFires]
         Video.constructed = Some video
    /\ News.inFlight news = 1%nat
    /\ News.fetchCount (News.sched news) = 2%nat
    /\ News.step News.Trigger news = Some news
    /\ (Video.inFlight video <= 1)%nat.
Proof.
  eexists. eexists. split; [reflexivity|]. split; [reflexivity|].
  split; [reflexivity|]. split; [reflexivity|].
  match goal with
  | |- News.step News.Trigger ?n = _ /\ (Video.inFlight ?v <= _)%nat =>
      destruct (C9_one_cycle_at_a_time
                  [News.Trigger; News.Trigger; News.Settle (Throw "Network Error");
                   News.Trigger] n
                  [Video.Settle (Ok tt); Video.TimerFires] v)
        as [(_ & _ & Hdrop & _) Hvideo]
  end.
  - reflexivity.
  - repeat constructor; discriminate.
  - reflexivity.
  - split; [apply Hdrop; reflexivity | exact Hvideo].
Defined.

(** C9 as stated fails for the video scheduler: its flag [isRunning] is
    still set when a cycle has ended, and a call of [performFetch] that
    arrives while a cycle is in flight starts a second cycle. *)
Lemma C9_counterexample :
  (exists video,
     Video.run [Video.Start; Video.Settle (Ok tt)] Video.constructed = Some video
     /\ Video.inFlight video = 0%nat
     /\ Video.isRunning (Video.sched video) = true)
  /\ (exists video,
        Video.run [Video.Start; Video.Call] Video.constructed = Some video
        /\ Video.inFlight video = 2%nat).
Proof. split; eexists; repeat split. Qed.

End Cycles.

(** ** Topics, categories and trusted channels of the video scheduler *)

Section VideoTopics.

Import Video VideoIngest.

Lemma channelTopic_ok (channel : obj) :
  (exists topic name,
     channelTopic channel = Ok topic
     /\ get topic "Title" = JStr (name +:+ " Content")
     /\ get topic "IsActive" = JBool true
     /\ get topic "Source" = JStr "trusted_channel"
     /\ (get topic "Priority" = JNum 1 \/ get topic "Priority" = JNum 2))
  \/ ((exists message, channelTopic channel = Throw message)
      /\ truthy (get channel "channel_name") = true
      /\ forall name, get channel "channel_name" <> JStr name).
Proof.
  unfold channelTopic, orElse.
  destruct (truthy (get channel "channel_name")) eqn:Htruthy.
  - destruct (get channel "channel_name") as [| |b|n|name|l|fields] eqn:Hname;
      try (right; split; [eexists; reflexivity | split; [reflexivity | discriminate]]).
    left. eexists. exists name. split; [reflexivity|].
    destruct (isStr (get channel "trust_level") "High"); repeat split; auto.
  - left. eexists. exists "Unknown". split; [reflexivity|].
    destruct (isStr (get channel "trust_level") "High"); repeat split; auto.
Qed.

Lemma channelTopics_cases (channels : list obj) :
  match channelTopics channels with
  | Ok topics =>
      length topics = length channels
      /\ Forall (fun topic =>
                   get topic "IsActive" = JBool true
                   /\ get topic "Source" = JStr "trusted_channel"
                   /\ (get topic "Priority" = JNum 1 \/ get topic "Priority" = JNum 2)
                   /\ exists name, get topic "Title" = JStr (name +:+ " Content"))
                topics
  | Throw _ =>
      exists channel,
        channel ∈ channels
        /\ truthy (get channel "channel_name") = true
        /\ forall name, get channel "channel_name" <> JStr name
  end.
Proof.
  induction channels as [|channel channels IH].
  - cbn. split; [reflexivity | constructor].
  - cbn [channelTopics].
    destruct (channelTopic_ok channel)
      as [(topic & name & -> & Htitle & Hactive & Hsource & Hpriority)
         | [[message ->] [Htruthy Hname]]].
    + cbn. destruct (channelTopics channels) as [topics|message]; cbn.
      * destruct IH as [Hlen Hall]. split; [cbn; lia|].
        constructor; [|exact Hall]. repeat split; eauto.
      * destruct IH as (c & Hin & H). exists c. split; [right; exact Hin | exact H].
    + cbn. exists channel. split; [left | split; assumption].
Qed.

(** [generateTopicsFromTrustedChannels] reads the first three channels
    only.  When it returns, it gives one topic for each of them, every
    topic active, marked [trusted_channel], of priority 1 or 2 and titled
    after the channel; it throws exactly when one of those three channels
    has a name that is truthy and is no text. *)
Theorem generateTopics_from_first_three_channels (trustedChannels : list obj) :
  generateTopicsFromTrustedChannels trustedChannels
  = generateTopicsFromTrustedChannels (take 3 trustedChannels)
  /\ match generateTopicsFromTrustedChannels trustedChannels with
     | Ok topics =>
         length topics = Nat.min 3 (length trustedChannels)
         /\ Forall (fun topic =>
                      get topic "IsActive" = JBool true
                      /\ get topic "Source" = JStr "trusted_channel"
                      /\ (get topic "Priority" = JNum 1 \/ get topic "Priority" = JNum 2)
                      /\ exists name, get topic "Title" = JStr (name +:+ " Content"))
                   topics
     | Throw _ =>
         exists channel,
           channel ∈ take 3 trustedChannels
           /\ truthy (get channel "channel_name") = true
           /\ forall name, get channel "channel_name" <> JStr name
     end.
Proof.
  unfold generateTopicsFromTrustedChannels, sliceTo. split.
  - rewrite take_take. reflexivity.
  - pose proof (channelTopics_cases (take 3 trustedChannels)) as H.
    destruct (channelTopics (take 3 trustedChannels)) as [topics|message]; [|exact H].
    destruct H as [Hlen Hall]. split; [|exact Hall].
    rewrite Hlen, length_take. reflexivity.
Qed.

(** [mapCategoryForVideo] gives one of the seven categories of the video
    schema for every category name that is not a member inherited from
    [Object.prototype]; a name outside the mapping gives Entertainment. *)
Theorem mapCategoryForVideo_in_schema (trendingCategory : string) :
  trendingCategory ∉ objectPrototypeNames ->
  exists mapped,
    mapCategoryForVideo trendingCategory = Some mapped
    /\ mapped ∈ ["Travel"; "Food"; "Nightlife"; "Culture"; "Events"; "Entertainment";
                 "Business"]
    /\ (categoryMapping !! trendingCategory = None -> mapped = "Entertainment").
Proof.
  intros Hproto. unfold mapCategoryForVideo.
  rewrite (bool_decide_eq_false_2 _ Hproto).
  destruct (categoryMapping !! trendingCategory) as [mapped|] eqn:Hlookup.
  - exists mapped. split; [reflexivity|]. split; [|discriminate].
    unfold categoryMapping in Hlookup.
    repeat (rewrite lookup_insert in Hlookup; case_decide;
            [injection Hlookup as <-; set_solver|]).
    rewrite lookup_singleton in Hlookup. case_decide; [|discriminate].
    injection Hlookup as <-. set_solver.
  - exists "Entertainment". split; [reflexivity|]. split; [set_solver | reflexivity].
Qed.

Lemma mapCategoryForVideo_in_schema_witness :
  exists mapped,
    mapCategoryForVideo "Adventure" = Some mapped
    /\ mapped ∈ ["Travel"; "Food"; "Nightlife"; "Culture"; "Events"; "Entertainment";
                 "Business"]
    /\ (categoryMapping !! "Adventure" = None -> mapped = "Entertainment").
Proof.
  apply mapCategoryForVideo_in_schema.
  apply (bool_decide_unpack _). vm_compute. exact I.
Defined.

(** [isChannelTrusted] never throws.  When the store lists at least one
    youtube channel, a channel is trusted exactly when the store lists it
    as a youtube channel, and the built-in channels count for nothing;
    when the lookup fails or lists no youtube channel, exactly the four
    built-in channels are trusted. *)
Theorem isChannelTrusted_database_replaces_builtin
    (channelsResponse : Response (list obj)) (channelId : string) :
  let youtube :=
    match channelsResponse with
    | Reply (Some channels) =>
        List.filter (fun c => isStr (get c "Platform") "youtube") channels
    | _ => []
    end in
  exists trusted,
    isChannelTrusted channelsResponse channelId = Ok trusted
    /\ (youtube <> [] ->
        (trusted = true <->
         exists c, c ∈ youtube /\ get c "ChannelId" = JStr channelId))
    /\ (youtube = [] ->
        (trusted = true <->
         channelId ∈ ["UCYfdidRxbB8Qhf0Nx7ioOYw"; "UCMke6DOgpX-dqeTvHKD5upw";
                      "UCu16_yDbSoaq_eKUhIZNpOg"; "UCxDZs_ltFFvn0FDHT6kmoXA"])).
Proof.
  intros youtube.
  assert (Hlist : forall l : list obj,
            existsb (fun channel => isStr (get channel "ChannelId") channelId) l = true
            <-> exists c, c ∈ l /\ get c "ChannelId" = JStr channelId).
  { intros l. rewrite existsb_exists. split.
    - intros [c [Hin Hc]]. exists c.
      split; [apply list_elem_of_In; exact Hin | apply isStr_spec; exact Hc].
    - intros [c [Hin Hc]]. exists c.
      split; [apply list_elem_of_In; exact Hin | apply isStr_spec; exact Hc]. }
  assert (Hbuiltin :
            existsb (fun channel => isStr (get channel "ChannelId") channelId)
                    (List.filter (fun c => isStr (get c "Platform") "youtube")
                                 builtInTrustedChannels) = true
            <-> channelId ∈ ["UCYfdidRxbB8Qhf0Nx7ioOYw"; "UCMke6DOgpX-dqeTvHKD5upw";
                             "UCu16_yDbSoaq_eKUhIZNpOg"; "UCxDZs_ltFFvn0FDHT6kmoXA"]).
  { change (List.filter _ builtInTrustedChannels) with builtInTrustedChannels.
    unfold builtInTrustedChannels. cbn [existsb].
    repeat match goal with
           | |- context [get (builtInTrustedChannel ?i ?n) "ChannelId"] =>
               change (get (builtInTrustedChannel i n) "ChannelId") with (JStr i)
           end.
    cbn [isStr]. rewrite !orb_true_iff, !String.eqb_eq, !elem_of_cons, elem_of_nil.
    intuition (try discriminate; auto). }
  unfold isChannelTrusted.
  destruct channelsResponse as [message|[channels|]]; cbn -[builtInTrustedChannels].
  - eexists. split; [reflexivity|]. split; [intros H; contradiction|].
    intros _. exact Hbuiltin.
  - fold youtube. destruct youtube as [|c0 rest] eqn:Hyoutube; cbn -[builtInTrustedChannels].
    + eexists. split; [reflexivity|]. split; [intros H; contradiction|].
      intros _. exact Hbuiltin.
    + eexists. split; [reflexivity|]. split; [|discriminate].
      intros _. exact (Hlist (c0 :: rest)).
  - eexists. split; [reflexivity|]. split; [intros H; contradiction|].
    intros _. exact Hbuiltin.
Qed.

End VideoTopics.

(** ** What the video scheduler stores *)

Section VideoStored.

Import Video VideoIngest.

Lemma postVideo_adds (post : Post) (videoData : VideoData) (videos : list VideoData)
    (n : nat) :
  exists added,
    fst (postVideo post videoData (videos, n)) = (videos ++ added)%list
    /\ (added = [] \/ added = [videoData])
    /\ (n <= snd (postVideo post videoData (videos, n)) <= n + length added)%nat.
Proof.
  unfold postVideo. destruct (post videos videoData) as [status|]; cbn.
  - exists [videoData]. split; [reflexivity|]. split; [auto|].
    destruct ((status =? 200) || (status =? 201)); cbn; lia.
  - exists []. rewrite app_nil_r. split; [reflexivity|]. split; [auto|]. cbn. lia.
Qed.

Lemma sampleLoop_adds (api : Api) (post : Post) (clock : Clock) (topic : Topic)
    (samples : list VideoData) (videos : list VideoData) (n : nat) :
  samples ⊆ sampleVideos clock topic ->
  exists added,
    fst (sampleLoop api post samples (videos, n)) = (videos ++ added)%list
    /\ Forall (sampleVideo api clock topic) added
    /\ (n <= snd (sampleLoop api post samples (videos, n)) <= n + length added)%nat
    /\ (length added <= length samples)%nat.
Proof.
  revert videos n. induction samples as [|sample samples IH]; intros videos n Hsub.
  - exists []. cbn. rewrite app_nil_r. repeat split; try constructor; lia.
  - cbn [sampleLoop].
    assert (Hrest : samples ⊆ sampleVideos clock topic) by set_solver.
    destruct (determineApprovalStatus api (channel_id sample)) as [status|message] eqn:Hstatus.
    + destruct (postVideo_adds post (withStatus sample status) videos n)
        as (one & Hfst & Hone & Hcount).
      destruct (postVideo post (withStatus sample status) (videos, n)) as [videos1 n1].
      cbn in Hfst, Hcount. subst videos1.
      destruct (IH (videos ++ one)%list n1 Hrest) as (more & Hfst & Hall & Hcount' & Hlen).
      exists (one ++ more)%list. rewrite Hfst, app_assoc. split; [reflexivity|].
      split; [|rewrite length_app; cbn; destruct Hone as [-> | ->]; cbn in *; lia].
      apply Forall_app. split; [|exact Hall].
      destruct Hone as [-> | ->]; constructor; [|constructor].
      exists sample, status. split; [apply Hsub; left | split; [exact Hstatus | reflexivity]].
    + destruct (IH videos n Hrest) as (more & Hfst & Hall & Hcount & Hlen).
      exists more. rewrite Hfst. repeat split; try assumption; cbn; lia.
Qed.

Lemma createSampleVideos_adds (api : Api) (post : Post) (clock : Clock) (topic : Topic)
    (videos : list VideoData) :
  exists added,
    fst (createSampleVideos api post clock topic videos) = (videos ++ added)%list
    /\ Forall (sampleVideo api clock topic) added
    /\ (snd (createSampleVideos api post clock topic videos) <= length added <= 2)%nat.
Proof.
  unfold createSampleVideos.
  destruct (sampleLoop_adds api post clock topic (sampleVideos clock topic) videos 0)
    as (added & Hfst & Hall & Hcount & Hlen); [set_solver|].
  exists added. cbn in Hlen. repeat split; try assumption; lia.
Qed.

Lemma passesFilters_true (api : Api) (video : Snippet) :
  isContentSafe api video = Ok true ->
  isContentFiltered api (title video) (description video) (channelId video) = Ok false ->
  passesFilters api video = Ok true.
Proof. intros Hsafe Hfiltered. unfold passesFilters. rewrite Hsafe. cbn. rewrite Hfiltered. reflexivity. Qed.

Lemma searchLoop_adds (api : Api) (post : Post) (topic : Topic)
    (results : list SearchResult) (videos : list VideoData) (n : nat) :
  exists added,
    fst (searchLoop api post topic results (videos, n)) = (videos ++ added)%list
    /\ Forall (filteredResult api topic results) added
    /\ (length added <= length results)%nat
    /\ forall createdCount,
         snd (searchLoop api post topic results (videos, n)) = Ok createdCount ->
         (n <= createdCount <= n + length added)%nat.
Proof.
  assert (Hgen : forall (rest : list SearchResult) videos n,
    rest ⊆ results ->
    exists added,
      fst (searchLoop api post topic rest (videos, n)) = (videos ++ added)%list
      /\ Forall (filteredResult api topic results) added
      /\ (length added <= length rest)%nat
      /\ forall createdCount,
           snd (searchLoop api post topic rest (videos, n)) = Ok createdCount ->
           (n <= createdCount <= n + length added)%nat).
  { clear videos n. intros rest.
    induction rest as [|video rest IH]; intros videos n Hsub.
    - exists []. cbn. rewrite app_nil_r. split; [reflexivity|]. split; [constructor|].
      split; [lia|]. intros k H. injection H as <-. lia.
    - assert (Hrest : rest ⊆ results) by set_solver.
      assert (Hskip : exists added,
                fst (searchLoop api post topic rest (videos, n)) = (videos ++ added)%list
                /\ Forall (filteredResult api topic results) added
                /\ (length added <= length (video :: rest))%nat
                /\ forall createdCount,
                     snd (searchLoop api post topic rest (videos, n)) = Ok createdCount ->
                     (n <= createdCount <= n + length added)%nat).
      { destruct (IH videos n Hrest) as (added & H1 & H2 & H3 & H4).
        exists added. split; [exact H1|]. split; [exact H2|].
        split; [cbn; lia | exact H4]. }
      assert (Hthrow : forall message,
                exists added,
                  fst (videos, @Throw nat message) = (videos ++ added)%list
                  /\ Forall (filteredResult api topic results) added
                  /\ (length added <= length (video :: rest))%nat
                  /\ forall createdCount,
                       snd (videos, @Throw nat message) = Ok createdCount ->
                       (n <= createdCount <= n + length added)%nat).
      { intros message. exists []. cbn. rewrite app_nil_r. split; [reflexivity|].
        split; [constructor|]. split; [lia|]. discriminate. }
      cbn [searchLoop fst snd].
      destruct (isContentSafe api (snippet video)) as [[|]|message] eqn:Hsafe;
        [|exact Hskip|apply Hthrow].
      destruct (isContentFiltered api _ _ _) as [[|]|message] eqn:Hfiltered;
        [exact Hskip| |apply Hthrow].
      destruct (determineApprovalStatus api _) as [status|message] eqn:Hstatus;
        [|apply Hthrow].
      destruct (postVideo_adds post (videoDataOf topic video status) videos n)
        as (one & Hfst & Hone & Hcount).
      destruct (postVideo post (videoDataOf topic video status) (videos, n))
        as [videos1 n1].
      cbn in Hfst, Hcount. subst videos1.
      destruct (IH (videos ++ one)%list n1 Hrest) as (more & Hfst & Hall & Hlen & Hk).
      exists (one ++ more)%list. rewrite Hfst, app_assoc. split; [reflexivity|].
      split.
      { apply Forall_app. split; [|exact Hall].
        destruct Hone as [-> | ->]; constructor; [|constructor].
        exists video, status. split; [apply Hsub; left|].
        split; [apply passesFilters_true; assumption|].
        split; [exact Hstatus | reflexivity]. }
      split.
      { rewrite length_app. destruct Hone as [-> | ->]; cbn in *; lia. }
      intros k Hkeq. specialize (Hk k Hkeq). rewrite length_app.
      destruct Hone as [-> | ->]; cbn in *; lia. }
  apply Hgen. set_solver.
Qed.

(** Every video that [fetchVideosForTopic] adds to the store is either a
    search result that passed [isContentSafe] and [isContentFiltered],
    stored with the approval status of its channel, or one of the two
    sample videos of the topic, stored with the approval status of its
    channel; the videos already stored are untouched, and the count
    returned never exceeds the number of videos added.  Without a usable
    API key only sample videos are added. *)
Theorem fetchVideosForTopic_stores_filtered_or_sample
    (api : Api) (post : Post) (clock : Clock) (youtubeApiKey : option string)
    (search : Response (list SearchResult)) (topic : Topic) (videos : list VideoData) :
  let results := match search with Reply (Some results) => results | _ => [] end in
  let outcome := fetchVideosForTopic api post clock youtubeApiKey search topic videos in
  exists added,
    fst outcome = (videos ++ added)%list
    /\ Forall (fun v => filteredResult api topic results v \/ sampleVideo api clock topic v)
              added
    /\ (snd outcome <= length added)%nat
    /\ (length added <= length results + 2)%nat
    /\ ((youtubeApiKey = None \/ youtubeApiKey = Some ""
         \/ youtubeApiKey = Some "your_youtube_api_key_here") ->
        Forall (sampleVideo api clock topic) added).
Proof.
  intros results outcome.
  assert (Hsample : exists added,
            fst (createSampleVideos api post clock topic videos) = (videos ++ added)%list
            /\ Forall (fun v => filteredResult api topic results v
                                \/ sampleVideo api clock topic v) added
            /\ (snd (createSampleVideos api post clock topic videos) <= length added)%nat
            /\ (length added <= length results + 2)%nat
            /\ Forall (sampleVideo api clock topic) added).
  { destruct (createSampleVideos_adds api post clock topic videos)
      as (added & Hfst & Hall & Hcount).
    exists added. repeat split; try assumption; try lia.
    eapply Forall_impl; [exact Hall|]. auto. }
  assert (Hreal : exists added,
            fst (fetchRealYouTubeVideos api post clock search topic videos)
            = (videos ++ added)%list
            /\ Forall (fun v => filteredResult api topic results v
                                \/ sampleVideo api clock topic v) added
            /\ (snd (fetchRealYouTubeVideos api post clock search topic videos)
                <= length added)%nat
            /\ (length added <= length results + 2)%nat).
  { unfold fetchRealYouTubeVideos.
    destruct search as [message|[[|video rest]|]].
    - destruct Hsample as (added & H1 & H2 & H3 & H4 & _). eauto 6.
    - exists []. cbn. rewrite app_nil_r. repeat split; try constructor; lia.
    - destruct (searchLoop_adds api post topic (video :: rest) videos 0)
        as (added & Hfst & Hall & Hlen & Hk).
      destruct (searchLoop api post topic (video :: rest) (videos, 0%nat))
        as [videos1 [createdCount|message]]; cbn in Hfst, Hk; subst videos1.
      + exists added. cbn [fst snd]. split; [reflexivity|]. split.
        * eapply Forall_impl; [exact Hall|]. auto.
        * specialize (Hk createdCount eq_refl). unfold results.
          cbn [length fst snd] in Hlen |- *. split; lia.
      + destruct (createSampleVideos_adds api post clock topic (videos ++ added)%list)
          as (more & Hfst & Hmore & Hcount).
        exists (added ++ more)%list. rewrite Hfst, app_assoc. split; [reflexivity|].
        split.
        * apply Forall_app. split; eapply Forall_impl; eauto.
        * rewrite length_app. unfold results. cbn [length fst snd] in Hlen |- *. split; lia.
    - exists []. cbn. rewrite app_nil_r. repeat split; try constructor; lia. }
  unfold outcome, fetchVideosForTopic.
  destruct youtubeApiKey as [key|].
  - destruct (String.eqb key "") eqn:Hempty; cbn [negb andb].
    + destruct Hsample as (added & H1 & H2 & H3 & H4 & H5).
      exists added. repeat split; auto.
    + destruct (String.eqb key "your_youtube_api_key_here") eqn:Hplace; cbn [negb].
      * destruct Hsample as (added & H1 & H2 & H3 & H4 & H5).
        exists added. repeat split; auto.
      * destruct Hreal as (added & H1 & H2 & H3 & H4).
        exists added. repeat split; auto.
        intros [H | [H | H]]; try discriminate; injection H as ->.
        -- rewrite String.eqb_refl in Hempty. discriminate.
        -- rewrite String.eqb_refl in Hplace. discriminate.
  - destruct Hsample as (added & H1 & H2 & H3 & H4 & H5).
    exists added. repeat split; auto.
Qed.

End VideoStored.

(** ** The cleanup of the video scheduler *)

Section VideoCleanup.

Import VideoIngest.

Lemma filter_other_ids (x : string) (l : list StoredVideo) :
  x ∉ documentId <$> l ->
  List.filter (fun other => negb (String.eqb (documentId other) x)) l = l.
Proof.
  induction l as [|a l IH]; intros Hnot; [reflexivity|]. cbn.
  destruct (String.eqb (documentId a) x) eqn:Heq.
  - apply String.eqb_eq in Heq. exfalso. apply Hnot. rewrite <- Heq. cbn. left.
  - cbn. f_equal. apply IH. intros Hin. apply Hnot. cbn. right. exact Hin.
Qed.

Lemma existsb_id (x : string) (l : list StoredVideo) :
  existsb (fun other => String.eqb (documentId other) x) l = true
  <-> x ∈ documentId <$> l.
Proof.
  rewrite existsb_exists, list_elem_of_fmap. split.
  - intros [v [Hin Heq]]. exists v. apply String.eqb_eq in Heq.
    split; [auto | apply list_elem_of_In; exact Hin].
  - intros [v [-> Hin]]. exists v.
    split; [apply list_elem_of_In; exact Hin | apply String.eqb_refl].
Qed.

(** One deletion, in a collection whose tail [kept] does not hold the
    video: the tail stays, and the count moves with the length. *)
Lemma deleteVideo_step (deleteFails : string -> bool) (v : StoredVideo)
    (front kept : list StoredVideo) (n : nat) :
  NoDup (documentId <$> (front ++ kept)%list) ->
  documentId v ∉ documentId <$> kept ->
  exists front',
    fst (deleteVideo deleteFails v ((front ++ kept)%list, n)) = (front' ++ kept)%list
    /\ front' `sublist_of` front
    /\ (length front' + snd (deleteVideo deleteFails v ((front ++ kept)%list, n))
        = length front + n)%nat
    /\ (deleteFails (documentId v) = false -> documentId v ∉ documentId <$> front').
Proof.
  intros Hnodup Hkept. unfold deleteVideo.
  destruct (deleteFails (documentId v)) eqn:Hfault; cbn [orb].
  - exists front. cbn [fst snd]. split; [reflexivity|]. split; [reflexivity|].
    split; [lia | congruence].
  - destruct (existsb _ (front ++ kept)%list) eqn:Hpresent; cbn [negb].
    + rewrite List.filter_app, (filter_other_ids _ kept Hkept).
      exists (List.filter (fun other => negb (String.eqb (documentId other) (documentId v)))
                          front).
      cbn [fst snd]. split; [reflexivity|]. split; [apply bool_filter_sublist|].
      rewrite fmap_app in Hnodup. apply NoDup_app in Hnodup as [Hfront _].
      apply existsb_id in Hpresent. rewrite fmap_app, elem_of_app in Hpresent.
      destruct Hpresent as [Hin | Hin]; [|contradiction].
      split.
      * clear - Hfront Hin. induction front as [|a front IH]; [inversion Hin|].
        cbn in Hfront. apply NoDup_cons in Hfront as [Hfresh Hfront]. cbn.
        destruct (String.eqb (documentId a) (documentId v)) eqn:Heq; cbn.
        -- apply String.eqb_eq in Heq. rewrite filter_other_ids; [lia|].
           rewrite <- Heq. exact Hfresh.
        -- cbn in Hin. apply elem_of_cons in Hin as [Hin | Hin].
           ++ rewrite Hin, String.eqb_refl in Heq. discriminate.
           ++ specialize (IH Hfront Hin). lia.
      * intros _ Hin'. apply list_elem_of_fmap in Hin' as [w [Hw Hin']].
        apply list_elem_of_In, filter_In in Hin' as [_ Hne].
        rewrite Hw, String.eqb_refl in Hne. discriminate.
    + exists front. cbn [fst snd]. split; [reflexivity|]. split; [reflexivity|].
      split; [lia|].
      intros _ Hin. assert (Hall : documentId v ∈ documentId <$> (front ++ kept)%list)
        by (rewrite fmap_app, elem_of_app; left; exact Hin).
      apply existsb_id in Hall. congruence.
Qed.

Lemma deleteVideos_fold (deleteFails : string -> bool) (old front kept : list StoredVideo)
    (n : nat) :
  NoDup (documentId <$> (front ++ kept)%list) ->
  (forall v, v ∈ old -> documentId v ∉ documentId <$> kept) ->
  exists front',
    fst (foldl (fun state video => deleteVideo deleteFails video state)
               ((front ++ kept)%list, n) old) = (front' ++ kept)%list
    /\ front' `sublist_of` front
    /\ (length front'
        + snd (foldl (fun state video => deleteVideo deleteFails video state)
                     ((front ++ kept)%list, n) old)
        = length front + n)%nat
    /\ ((forall x, deleteFails x = false) ->
        forall v, v ∈ old -> documentId v ∉ documentId <$> front').
Proof.
  revert front n. induction old as [|v old IH]; intros front n Hnodup Hold.
  - exists front. cbn. split; [reflexivity|]. split; [reflexivity|]. split; [lia|].
    intros _ v Hv. inversion Hv.
  - cbn [foldl].
    destruct (deleteVideo_step deleteFails v front kept n Hnodup)
      as (front1 & Hfst & Hsub & Hcount & Hgone); [apply Hold; left|].
    destruct (deleteVideo deleteFails v ((front ++ kept)%list, n)) as [cur n1].
    cbn [fst snd] in Hfst, Hcount. subst cur.
    destruct (IH front1 n1) as (front2 & Hfst2 & Hsub2 & Hcount2 & Hgone2).
    + eapply sublist_NoDup; [exact Hnodup|]. apply fmap_sublist.
      apply sublist_app; [exact Hsub | reflexivity].
    + intros w Hw. apply Hold. right. exact Hw.
    + exists front2. split; [exact Hfst2|].
      split; [etransitivity; eassumption|]. split; [lia|].
      intros Hfaults w Hw. apply elem_of_cons in Hw as [-> | Hw].
      * intros Hin. apply (Hgone (Hfaults _)).
        eapply elem_of_sublist; [exact Hin | apply fmap_sublist; exact Hsub2].
      * apply Hgone2; assumption.
Qed.

(** Whatever deletions fail, [performCleanup] never removes one of the 50
    newest videos, removes only videos that were stored, and the
    [deletedCount] it logs is the number of videos it has removed. *)
Theorem performCleanup_counts_removed_and_keeps_newest
    (listFails : bool) (deleteFails : string -> bool) (videos : list StoredVideo) :
  NoDup (documentId <$> videos) ->
  let after := fst (performCleanup listFails deleteFails videos) in
  after `sublist_of` videos
  /\ drop (length videos - 50) videos `sublist_of` after
  /\ (forall deletedCount,
        snd (performCleanup listFails deleteFails videos) = Some deletedCount ->
        (length after + deletedCount = length videos)%nat)
  /\ (length videos <= 50 -> after = videos)%nat.
Proof.
  intros Hnodup after. unfold after, performCleanup.
  destruct listFails.
  { cbn. split; [reflexivity|]. split; [apply sublist_drop|].
    split; [discriminate | reflexivity]. }
  destruct (50 <? Z.of_nat (length videos)) eqn:Hover.
  2:{ cbn. split; [reflexivity|]. split; [apply sublist_drop|].
      split; [discriminate | reflexivity]. }
  apply Z.ltb_lt in Hover.
  set (excess := (length videos - 50)%nat).
  set (k := Nat.min excess 100).
  assert (Hold : take excess (take 100 videos) = take k videos).
  { rewrite take_take. reflexivity. }
  rewrite Hold.
  assert (Hsplit : videos = (take k videos ++ drop k videos)%list)
    by (symmetry; apply take_drop).
  assert (Hfold := deleteVideos_fold deleteFails (take k videos) (take k videos)
                     (drop k videos) 0).
  rewrite <- Hsplit in Hfold.
  destruct Hfold as (front & Hfst & Hsub & Hcount & _); [exact Hnodup| |].
  { intros v Hv Hin. apply list_elem_of_fmap in Hin as [w [Hid Hw]].
    rewrite Hsplit, fmap_app in Hnodup. apply NoDup_app in Hnodup as (_ & Hdisj & _).
    apply (Hdisj (documentId v)).
    - apply list_elem_of_fmap. exists v. auto.
    - apply list_elem_of_fmap. exists w. auto. }
  destruct (foldl _ (videos, 0%nat) (take k videos)) as [cur n].
  cbn [fst snd] in *. subst cur. split; [|split; [|split]].
  - rewrite Hsplit at 2. apply sublist_app; [exact Hsub | reflexivity].
  - apply sublist_inserts_l.
    replace excess with (k + (excess - k))%nat by lia.
    rewrite <- drop_drop. apply sublist_drop.
  - intros deletedCount H. injection H as <-.
    rewrite length_app. rewrite Hsplit at 2. rewrite length_app.
    assert (length (take k videos) = k) by (rewrite length_take; lia). lia.
  - lia.
Qed.

Lemma performCleanup_counts_removed_witness :
  let videos :=
    (fun i => {| documentId := String (ascii_of_nat (48 + i)) ""; stored_video_id := "v" |})
      <$> seq 0 52 in
  let after := fst (performCleanup false (fun d => String.eqb d "0") videos) in
  (length after = 51)%nat
  /\ snd (performCleanup false (fun d => String.eqb d "0") videos) = Some 1%nat
  /\ drop 2 videos `sublist_of` after.
Proof.
  cbv zeta.
  destruct (performCleanup_counts_removed_and_keeps_newest false
              (fun d => String.eqb d "0")
              ((fun i => {| documentId := String (ascii_of_nat (48 + i)) "";
                            stored_video_id := "v" |}) <$> seq 0 52))
    as (_ & Hnewest & Hcount & _).
  { apply (bool_decide_unpack _). vm_compute. exact I. }
  split; [reflexivity|]. split; [reflexivity|]. exact Hnewest.
Defined.

(** When no request fails, [performCleanup] removes the oldest videos:
    none when at most 50 are stored, all but the 50 newest when at most 150
    are stored, and only the 100 oldest when more are stored, since it
    reads one page of 100. *)
Theorem performCleanup_without_faults (videos : list StoredVideo) :
  NoDup (documentId <$> videos) ->
  let removed := Nat.min (length videos - 50) 100 in
  fst (performCleanup false (fun _ => false) videos) = drop removed videos
  /\ (length videos <= 150 ->
      length (fst (performCleanup false (fun _ => false) videos))
      = Nat.min (length videos) 50)%nat
  /\ (150 < length videos ->
      length (fst (performCleanup false (fun _ => false) videos))
      = length videos - 100)%nat.
Proof.
  intros Hnodup removed.
  assert (Hfst : fst (performCleanup false (fun _ => false) videos) = drop removed videos).
  { unfold performCleanup.
    destruct (50 <? Z.of_nat (length videos)) eqn:Hover.
    2:{ apply Z.ltb_ge in Hover. cbn.
        replace removed with 0%nat by (unfold removed; lia). reflexivity. }
    apply Z.ltb_lt in Hover.
    assert (Hold : take (length videos - 50) (take 100 videos) = take removed videos).
    { rewrite take_take. reflexivity. }
    rewrite Hold.
    assert (Hsplit : videos = (take removed videos ++ drop removed videos)%list)
      by (symmetry; apply take_drop).
    assert (Hfold := deleteVideos_fold (fun _ => false) (take removed videos)
                       (take removed videos) (drop removed videos) 0).
    rewrite <- Hsplit in Hfold.
    destruct Hfold as (front & Hfront & Hsub & Hcount & Hgone); [exact Hnodup| |].
    { intros v Hv Hin. apply list_elem_of_fmap in Hin as [w [Hid Hw]].
      rewrite Hsplit, fmap_app in Hnodup. apply NoDup_app in Hnodup as (_ & Hdisj & _).
      apply (Hdisj (documentId v)).
      - apply list_elem_of_fmap. exists v. auto.
      - apply list_elem_of_fmap. exists w. auto. }
    destruct (foldl _ (videos, 0%nat) (take removed videos)) as [cur n].
    cbn [fst snd] in *. subst cur.
    assert (front = []) as ->; [|reflexivity].
    destruct front as [|v front]; [reflexivity|]. exfalso.
    assert (Hv : v ∈ take removed videos)
      by (eapply elem_of_sublist; [left | exact Hsub]).
    apply (Hgone (fun _ => eq_refl) v Hv). cbn. left. }
  split; [exact Hfst|]. rewrite Hfst, length_drop. unfold removed. split; lia.
Qed.

Lemma performCleanup_without_faults_witness :
  let videos :=
    (fun i => {| documentId := String (ascii_of_nat (48 + i)) ""; stored_video_id := "v" |})
      <$> seq 0 60 in
  fst (performCleanup false (fun _ => false) videos) = drop 10 videos
  /\ length (fst (performCleanup false (fun _ => false) videos)) = 50%nat.
Proof.
  cbv zeta.
  destruct (performCleanup_without_faults
              ((fun i => {| documentId := String (ascii_of_nat (48 + i)) "";
                            stored_video_id := "v" |}) <$> seq 0 60))
    as (Hfst & Hsmall & _).
  { apply (bool_decide_unpack _). vm_compute. exact I. }
  split; [exact Hfst|]. apply Hsmall. cbn. lia.
Defined.

End VideoCleanup.

(** ** The two content filters of the video scheduler *)

Section VideoFilters.

Import Video.

Lemma lowerAscii_idempotent (c : ascii) : lowerAscii (lowerAscii c) = lowerAscii c.
Proof. destruct c as [[] [] [] [] [] [] [] []]; reflexivity. Qed.

Lemma toLowerCase_idempotent (s : string) : toLowerCase (toLowerCase s) = toLowerCase s.
Proof.
  induction s as [|c s IH]; [reflexivity|]. cbn [toLowerCase].
  rewrite lowerAscii_idempotent, IH. reflexivity.
Qed.

Lemma toLowerCase_app (a b : string) :
  toLowerCase (a +:+ b) = toLowerCase a +:+ toLowerCase b.
Proof.
  induction a as [|c a IH]; [reflexivity|].
  change (String (lowerAscii c) (toLowerCase (a +:+ b))
          = String (lowerAscii c) (toLowerCase a +:+ toLowerCase b)).
  rewrite IH. reflexivity.
Qed.

Lemma keywordMatches_lower (title description : string) (keywordObj : obj) :
  keywordMatches (toLowerCase title) (toLowerCase description) keywordObj
  = keywordMatches title description keywordObj.
Proof.
  unfold keywordMatches. destruct (get keywordObj "keyword"); try reflexivity.
  rewrite !toLowerCase_app, !toLowerCase_idempotent. reflexivity.
Qed.

Lemma keywordLoop_lower (title description : string) (bannedKeywords : list obj) :
  keywordLoop (toLowerCase title) (toLowerCase description) bannedKeywords
  = keywordLoop title description bannedKeywords.
Proof.
  induction bannedKeywords as [|k rest IH]; [reflexivity|].
  cbn [keywordLoop]. rewrite keywordMatches_lower, IH. reflexivity.
Qed.

(** Neither filter reads the case of the letters A-Z: a search result
    and its lower-cased copy get the same verdict from [isContentSafe],
    from [isContentFiltered] and so from the two guards of the loop. *)
Theorem passesFilters_ignores_letter_case (api : Api) (video : Snippet) :
  let lowered := {| title := toLowerCase (title video);
                    description := toLowerCase (description video);
                    channelId := channelId video |} in
  isContentSafe api lowered = isContentSafe api video
  /\ isContentFiltered api (title lowered) (description lowered) (channelId lowered)
     = isContentFiltered api (title video) (description video) (channelId video)
  /\ passesFilters api lowered = passesFilters api video.
Proof.
  intros lowered.
  assert (Hsafe : isContentSafe api lowered = isContentSafe api video).
  { unfold isContentSafe, lowered. cbn [title description].
    rewrite !toLowerCase_idempotent. reflexivity. }
  assert (Hfiltered :
            isContentFiltered api (title lowered) (description lowered) (channelId lowered)
            = isContentFiltered api (title video) (description video) (channelId video)).
  { unfold isContentFiltered, lowered. cbn [title description channelId].
    destruct (bannedChannelsOf api (channelId video)) as [m|data]; [reflexivity|].
    cbn. destruct (channelIsBanned (default [] data)); [reflexivity|].
    destruct (activeBannedKeywords api) as [m|keywords]; [reflexivity|].
    cbn. rewrite keywordLoop_lower. reflexivity. }
  split; [exact Hsafe|]. split; [exact Hfiltered|].
  unfold passesFilters. rewrite Hsafe, Hfiltered. reflexivity.
Qed.

Lemma safetyLoop_spec (title description : string) (bannedKeywords : list obj) :
  Forall (fun k => exists s, get k "Keyword" = JStr s) bannedKeywords ->
  exists safe,
    safetyLoop title description bannedKeywords = Ok safe
    /\ (safe = false <->
        exists k s, k ∈ bannedKeywords
          /\ get k "Keyword" = JStr s
          /\ get k "MatchType" = JStr "contains"
          /\ (includes title (toLowerCase s) = true
              \/ includes description (toLowerCase s) = true)).
Proof.
  induction 1 as [|k rest [s Hs] _ IH].
  - exists true. split; [reflexivity|]. split; [discriminate|].
    intros (k & s & Hin & _). inversion Hin.
  - cbn [safetyLoop]. rewrite Hs.
    destruct (isStr (get k "MatchType") "contains"
              && (includes title (toLowerCase s) || includes description (toLowerCase s)))
      eqn:Hhit.
    + exists false. split; [reflexivity|]. split; [|reflexivity]. intros _.
      apply andb_true_iff in Hhit as [Htype Hincl].
      apply isStr_spec in Htype. apply orb_true_iff in Hincl.
      exists k, s. split; [left|]. auto.
    + destruct IH as (safe & Hloop & Hiff). exists safe. split; [exact Hloop|].
      rewrite Hiff. split.
      * intros (k' & s' & Hin & H'). exists k', s'. split; [right; exact Hin | exact H'].
      * intros (k' & s' & Hin & Hk' & Htype & Hincl).
        apply elem_of_cons in Hin as [-> | Hin].
        -- exfalso. rewrite Hs in Hk'. injection Hk' as <-.
           apply isStr_spec in Htype. apply orb_true_iff in Hincl.
           rewrite Htype, Hincl in Hhit. discriminate.
        -- exists k', s'. auto.
Qed.

(** When the store answers with at least one active safety keyword, the
    built-in list is not consulted: [isContentSafe] rejects a video exactly
    when an active stored keyword whose [MatchType] is ['contains'] occurs
    in its lower-cased title or description.  A stored keyword with any
    other [MatchType] never rejects. *)
Theorem isContentSafe_store_keywords_replace_builtin
    (api : Api) (video : Snippet) (keywords : list obj) :
  let active := List.filter (fun k => truthy (get k "IsActive")) keywords in
  contentSafetyKeywords api = Reply (Some keywords) ->
  active <> [] ->
  Forall (fun k => exists s, get k "Keyword" = JStr s) active ->
  exists safe,
    isContentSafe api video = Ok safe
    /\ (safe = false <->
        exists k s, k ∈ active
          /\ get k "Keyword" = JStr s
          /\ get k "MatchType" = JStr "contains"
          /\ (includes (toLowerCase (title video)) (toLowerCase s) = true
              \/ includes (toLowerCase (description video)) (toLowerCase s) = true)).
Proof.
  intros active Hreply Hactive Hwell. unfold isContentSafe. rewrite Hreply.
  cbn [await tryCatch mbind Exc_bind]. fold active.
  destruct active as [|k rest] eqn:Hlist; [contradiction|].
  cbn [nonEmpty mret Exc_ret tryCatch mbind Exc_bind].
  apply safetyLoop_spec. exact Hwell.
Qed.

Lemma isContentSafe_store_keywords_witness :
  includes (toLowerCase (title Samples.scamVideo)) "scam" = true
  /\ isContentSafe Samples.bannedKeywordsDown Samples.scamVideo = Ok true.
Proof.
  split; [reflexivity|].
  destruct (isContentSafe_store_keywords_replace_builtin Samples.bannedKeywordsDown
              Samples.scamVideo
              [ {[ "Keyword" := JStr "violence"; "MatchType" := JStr "contains";
                   "IsActive" := JBool true ]} ])
    as (safe & Hsafe & _).
  - reflexivity.
  - vm_compute. discriminate.
  - vm_compute. constructor; [exists "violence"; reflexivity | constructor].
  - reflexivity.
Defined.

Lemma keywordLoop_malformed (title description : string)
    (before after : list obj) (malformed : obj) :
  Forall (fun k => keywordMatches title description k = Ok false) before ->
  (forall s, get malformed "keyword" <> JStr s) ->
  exists message,
    keywordLoop title description (before ++ malformed :: after) = Throw message.
Proof.
  intros Hbefore Hmalformed. induction Hbefore as [|k before Hk _ IH].
  - cbn [app keywordLoop]. unfold keywordMatches.
    destruct (get malformed "keyword") eqn:Hget;
      try (eexists; reflexivity).
    exfalso. exact (Hmalformed _ eq_refl).
  - cbn [app keywordLoop]. rewrite Hk. exact IH.
Qed.

(** A banned-keyword rule without a text [keyword] switches the keyword
    filter off: when the channel is not banned and no rule ahead of it
    matches, [isContentFiltered] answers false, whatever the rules after
    it say. *)
Theorem isContentFiltered_malformed_rule_fails_open
    (api : Api) (title description channelId : string)
    (bannedChannels : option (list obj)) (before after : list obj) (malformed : obj) :
  bannedChannelsOf api channelId = Reply bannedChannels ->
  channelIsBanned (default [] bannedChannels) = false ->
  activeBannedKeywords api = Reply (Some (before ++ malformed :: after)%list) ->
  Forall (fun k => keywordMatches title description k = Ok false) before ->
  (forall s, get malformed "keyword" <> JStr s) ->
  isContentFiltered api title description channelId = Ok false.
Proof.
  intros Hchannels Hbanned Hkeywords Hbefore Hmalformed.
  destruct (keywordLoop_malformed title description before after malformed
              Hbefore Hmalformed) as [message Hloop].
  unfold isContentFiltered. rewrite Hchannels. cbn [await mbind Exc_bind].
  rewrite Hbanned, Hkeywords. cbn [await mbind Exc_bind default from_option].
  change (tryCatch (keywordLoop title description (before ++ malformed :: after)%list)
                   (fun _ => mret false) = Ok false).
  rewrite Hloop. reflexivity.
Qed.

Lemma isContentFiltered_malformed_rule_witness :
  keywordMatches "Buy now, limited time scam offer" "Only today"
    (Spec.stored Samples.scamRule) = Ok true
  /\ isContentFiltered Samples.malformedRuleApi
       "Buy now, limited time scam offer" "Only today" "UCok" = Ok false.
Proof.
  split; [reflexivity|].
  apply (isContentFiltered_malformed_rule_fails_open Samples.malformedRuleApi
           "Buy now, limited time scam offer" "Only today" "UCok" (Some []) []
           [Spec.stored Samples.scamRule]
           {[ "match_type" := JStr "Contains"; "active" := JBool true ]}).
  - reflexivity.
  - reflexivity.
  - reflexivity.
  - constructor.
  - intros s. vm_compute. discriminate.
Defined.

End VideoFilters.

(** ** From a feed item to the posted record *)

Section NewsItem.

Import News.

Lemma hasGt_strip (inTag : bool) (s : string) :
  hasGt (strip inTag s) = true -> hasGt s = true.
Proof.
  revert inTag. induction s as [|c s IH]; intros inTag; [destruct inTag; auto|].
  cbn [strip hasGt]. destruct inTag.
  - destruct (Ascii.eqb c ">"); [reflexivity|]. cbn [orb]. apply IH.
  - destruct (Ascii.eqb c "<" && hasGt s) eqn:Htag.
    + intros H. apply IH in H. rewrite H. apply orb_true_r.
    + cbn [hasGt]. destruct (Ascii.eqb c ">"); [reflexivity|]. cbn [orb]. apply IH.
Qed.

Lemma strip_no_tag (inTag : bool) (s before after : string) :
  strip inTag s = before +:+ String "<" after -> hasGt after = false.
Proof.
  revert inTag before. induction s as [|c s IH]; intros inTag before.
  - destruct inTag, before; discriminate.
  - cbn [strip]. destruct inTag.
    + destruct (Ascii.eqb c ">"); apply IH.
    + destruct (Ascii.eqb c "<" && hasGt s) eqn:Htag; [apply IH|].
      destruct before as [|c' before].
      * intros H. injection H as -> <-.
        rewrite Ascii.eqb_refl in Htag. cbn [andb] in Htag.
        destruct (hasGt (strip false s)) eqn:Hout; [|reflexivity].
        apply hasGt_strip in Hout. congruence.
      * intros H. injection H as _ H. exact (IH false before H).
Qed.

Lemma strip_plain (s : string) :
  (forall before after, s = before +:+ String "<" after -> hasGt after = false) ->
  strip false s = s.
Proof.
  induction s as [|c s IH]; intros Hplain; [reflexivity|]. cbn [strip].
  destruct (Ascii.eqb c "<" && hasGt s) eqn:Htag.
  - apply andb_true_iff in Htag as [Hc Hgt]. apply Ascii.eqb_eq in Hc. subst c.
    rewrite (Hplain "" s eq_refl) in Hgt. discriminate.
  - f_equal. apply IH. intros before after ->.
    apply (Hplain (String c before) after). reflexivity.
Qed.

Lemma strip_length (inTag : bool) (s : string) :
  (String.length (strip inTag s) <= String.length s)%nat.
Proof.
  revert inTag. induction s as [|c s IH]; intros inTag; [destruct inTag; cbn; lia|].
  cbn [strip]. destruct inTag.
  - destruct (Ascii.eqb c ">"); cbn [String.length];
      [specialize (IH false) | specialize (IH true)]; lia.
  - destruct (Ascii.eqb c "<" && hasGt s); cbn [String.length];
      [specialize (IH true) | specialize (IH false)]; lia.
Qed.

(** The replacement [/<[^>]*>/g] leaves no tag: in its result no [<] is
    followed by a [>].  It never lengthens the text, and applying it again
    changes nothing. *)
Theorem stripTags_leaves_no_tag (s : string) :
  (forall before after,
     stripTags s = before +:+ String "<" after -> hasGt after = false)
  /\ stripTags (stripTags s) = stripTags s
  /\ (String.length (stripTags s) <= String.length s)%nat.
Proof.
  assert (Hplain : forall before after,
            stripTags s = before +:+ String "<" after -> hasGt after = false)
    by (intros before after; apply strip_no_tag).
  split; [exact Hplain|]. split; [|apply strip_length].
  unfold stripTags at 1. apply strip_plain. exact Hplain.
Qed.

Lemma substring_prefix (n : nat) (s : string) :
  exists rest, s = substring 0 n s +:+ rest.
Proof.
  revert s. induction n as [|n IH]; intros s.
  - exists s. destruct s; reflexivity.
  - destruct s as [|c s]; [exists ""; reflexivity|].
    destruct (IH s) as [rest Hrest]. exists rest. cbn [substring].
    change (String c s = String c (substring 0 n s +:+ rest)). f_equal. exact Hrest.
Qed.

Lemma substring_length (n : nat) (s : string) :
  (String.length (substring 0 n s) <= n)%nat.
Proof.
  revert s. induction n as [|n IH]; intros s; destruct s as [|c s]; cbn; try lia.
  specialize (IH s). lia.
Qed.

Lemma hasGt_app (a b : string) : hasGt (a +:+ b) = hasGt a || hasGt b.
Proof.
  induction a as [|c a IH]; [reflexivity|].
  change (Ascii.eqb c ">" || hasGt (a +:+ b) = Ascii.eqb c ">" || hasGt a || hasGt b).
  rewrite IH. apply orb_assoc.
Qed.

Lemma append_assoc (a b c : string) : (a +:+ b) +:+ c = a +:+ (b +:+ c).
Proof.
  induction a as [|x a IH]; [reflexivity|].
  change (String x ((a +:+ b) +:+ c) = String x (a +:+ (b +:+ c))). f_equal. exact IH.
Qed.

Lemma cleanContentOf_plain (settings : obj) (item : FeedItem) (before after : string) :
  cleanContentOf settings item = before +:+ String "<" after -> hasGt after = false.
Proof.
  unfold cleanContentOf. set (text := orText _ _). set (n := Z.to_nat _).
  intros Hclean. destruct (substring_prefix n (stripTags text)) as [rest Hrest].
  rewrite Hclean, append_assoc in Hrest.
  change (String "<" after +:+ rest) with (String "<" (after +:+ rest)) in Hrest.
  apply strip_no_tag in Hrest. rewrite hasGt_app in Hrest.
  apply orb_false_iff in Hrest as [H _]. exact H.
Qed.

(** The [Summary] of a posted record is plain, clipped text: it holds no
    tag and at most [settings.maxContentLength] characters, 500 when the
    settings name no length. *)
Theorem posted_summary_is_clipped_plain_text
    (settings : obj) (sourceName : string) (now : Z) (isDuplicate : bool)
    (item : FeedItem) (data : BreakingNewsData) :
  breakingNewsDataOf settings sourceName now isDuplicate item = Ok (Some data) ->
  (Z.of_nat (String.length (Summary data)) <= Z.max 0 (contentLimit settings))
  /\ (get settings "maxContentLength" = JUndefined ->
      (String.length (Summary data) <= 500)%nat)
  /\ (forall before after,
        Summary data = before +:+ String "<" after -> hasGt after = false).
Proof.
  intros Hposted.
  assert (Hsummary : Summary data = cleanContentOf settings item).
  { revert Hposted. unfold breakingNewsDataOf. destruct isDuplicate; [discriminate|].
    destruct (shouldModerateContent _ _ _) as [m|e]; cbn -[existsb breakingKeywords];
      [|discriminate].
    destruct (shouldModerate m); [discriminate|].
    destruct (title item); [|discriminate].
    intros H. injection H as <-. reflexivity. }
  rewrite Hsummary.
  assert (Hlen : (String.length (cleanContentOf settings item)
                  <= Z.to_nat (contentLimit settings))%nat)
    by apply substring_length.
  split; [lia|]. split; [|apply cleanContentOf_plain].
  intros Hnone. unfold contentLimit in Hlen. rewrite Hnone in Hlen. exact Hlen.
Qed.

Lemma posted_summary_witness :
  (String.length "Heavy rain since the morning." <= 500)%nat
  /\ (forall before after,
        "Heavy rain since the morning." = before +:+ String "<" after ->
        hasGt after = false).
Proof.
  destruct (posted_summary_is_clipped_plain_text builtInNewsSettings "Pattaya Mail"
              86400100 false Samples.floodItem
              {| Title := "Breaking: flood closes Beach Road";
                 Summary := "Heavy rain since the morning.";
                 Severity := "high";
                 Source := "Pattaya Mail";
                 URL := "http://www.pattayamail.com/flood";
                 IsBreaking := true;
                 PublishedTimestamp := 1000;
                 data_isPinned := false;
                 moderationStatus := "approved";
                 data_publishedAt := 86400100 |} eq_refl)
    as (_ & Hlen & Hplain).
  split; [apply Hlen; reflexivity | exact Hplain].
Defined.

(** With auto-moderation on, a record is posted only when no moderation
    keyword occurs in the lower-cased title and summary it carries; it is
    posted as approved and not pinned, and an item that is a duplicate or
    has no title is never posted. *)
Theorem posted_article_passed_moderation
    (settings : obj) (keywords : list string) (sourceName : string) (now : Z)
    (isDuplicate : bool) (item : FeedItem) (data : BreakingNewsData) :
  breakingNewsDataOf settings sourceName now isDuplicate item = Ok (Some data) ->
  truthy (get settings "autoModerationEnabled") = true ->
  get settings "moderationKeywords" = JArr (JStr <$> keywords) ->
  isDuplicate = false
  /\ title item = Some (Title data)
  /\ moderationStatus data = "approved"
  /\ data_isPinned data = false
  /\ (forall k, k ∈ keywords ->
        includes (toLowerCase (Title data +:+ " " +:+ Summary data)) (toLowerCase k)
        = false).
Proof.
  intros Hposted Hauto Hkeywords. revert Hposted. unfold breakingNewsDataOf.
  destruct isDuplicate; [discriminate|].
  destruct (shouldModerateContent_strings settings keywords
              (orText (title item) "") (cleanContentOf settings item) Hkeywords)
    as (m & Hm & Hiff).
  rewrite Hm. cbn -[existsb breakingKeywords].
  destruct (shouldModerate m) eqn:Hflag; [discriminate|].
  destruct (title item) as [itemTitle|] eqn:Htitle; [|discriminate].
  intros H. injection H as <-. cbn [Title Summary moderationStatus data_isPinned].
  split; [reflexivity|]. split; [reflexivity|]. split; [reflexivity|].
  split; [reflexivity|].
  intros k Hk.
  destruct (includes (toLowerCase (itemTitle +:+ " " +:+ cleanContentOf settings item))
                     (toLowerCase k)) eqn:Hincl; [|reflexivity].
  exfalso. assert (Hyes : false = true); [|discriminate].
  apply Hiff. split; [exact Hauto|]. exists k. split; [exact Hk|].
  apply includes_spec.
  replace (orText (Some itemTitle) "") with itemTitle by (destruct itemTitle; reflexivity).
  exact Hincl.
Qed.

Lemma posted_article_passed_moderation_witness :
  Forall (fun k =>
            includes (toLowerCase ("Breaking: flood closes Beach Road" +:+ " "
                                   +:+ "Heavy rain since the morning."))
                     (toLowerCase k) = false)
         Samples.builtInModerationKeywords.
Proof.
  destruct (posted_article_passed_moderation builtInNewsSettings
              Samples.builtInModerationKeywords "Pattaya Mail"
              86400100 false Samples.floodItem
              {| Title := "Breaking: flood closes Beach Road";
                 Summary := "Heavy rain since the morning.";
                 Severity := "high";
                 Source := "Pattaya Mail";
                 URL := "http://www.pattayamail.com/flood";
                 IsBreaking := true;
                 PublishedTimestamp := 1000;
                 data_isPinned := false;
                 moderationStatus := "approved";
                 data_publishedAt := 86400100 |} eq_refl eq_refl eq_refl)
    as (_ & _ & _ & _ & Hclean).
  apply List.Forall_forall. intros k Hk. apply Hclean, list_elem_of_In, Hk.
Defined.

End NewsItem.

(** ** Sources, controls and the simple cleanup of the news scheduler *)

Section NewsControls.

Import News NewsOps.

Lemma builtInNewsSources_usable :
  Forall (fun s => isActive s = true /\ isRssFeed s = true) builtInNewsSources.
Proof. repeat constructor. Qed.

Lemma activeSources_cases (sourcesResponse : Response (list obj)) :
  activeSources sourcesResponse
  = match sourcesResponse with
    | Reply (Some dbSources) =>
        match List.filter isActive dbSources with
        | [] => Ok (builtInNewsSources, true)
        | first :: rest => Ok (first :: rest, false)
        end
    | _ => Ok (builtInNewsSources, true)
    end.
Proof.
  unfold activeSources. destruct sourcesResponse as [message|[dbSources|]];
    try reflexivity.
  cbn -[List.filter builtInNewsSources].
  destruct (List.filter isActive dbSources); reflexivity.
Qed.

(** A cycle of [fetchNews] always has sources to read.  They are the
    active sources of the store, in their order, when it answers with at
    least one; otherwise the four built-in sources, each of them an active
    RSS feed. *)
Theorem activeSources_never_empty (sourcesResponse : Response (list obj)) :
  exists sources usingFallbackSources,
    activeSources sourcesResponse = Ok (sources, usingFallbackSources)
    /\ sources <> []
    /\ Forall (fun s => isActive s = true) sources
    /\ (usingFallbackSources = true ->
        sources = builtInNewsSources
        /\ Forall (fun s => isRssFeed s = true) sources)
    /\ (usingFallbackSources = false ->
        exists dbSources,
          sourcesResponse = Reply (Some dbSources)
          /\ sources = List.filter isActive dbSources)
    /\ (forall dbSources,
          sourcesResponse = Reply (Some dbSources) ->
          List.filter isActive dbSources <> [] ->
          usingFallbackSources = false).
Proof.
  assert (Hactive : Forall (fun s => isActive s = true) builtInNewsSources)
    by (eapply Forall_impl; [apply builtInNewsSources_usable | intros s [H _]; exact H]).
  assert (Hrss : Forall (fun s => isRssFeed s = true) builtInNewsSources)
    by (eapply Forall_impl; [apply builtInNewsSources_usable | intros s [_ H]; exact H]).
  rewrite activeSources_cases.
  destruct sourcesResponse as [message|[dbSources|]].
  - exists builtInNewsSources, true. split; [reflexivity|]. split; [discriminate|].
    split; [exact Hactive|]. split; [auto|]. split; discriminate.
  - destruct (List.filter isActive dbSources) as [|first rest] eqn:Hfilter.
    + exists builtInNewsSources, true. split; [reflexivity|]. split; [discriminate|].
      split; [exact Hactive|]. split; [auto|]. split; [discriminate|].
      intros dbSources' H Hsome. injection H as <-. congruence.
    + exists (first :: rest), false. split; [reflexivity|]. split; [discriminate|].
      split.
      * rewrite <- Hfilter. apply List.Forall_forall. intros s Hs.
        apply filter_In in Hs as [_ Hs]. exact Hs.
      * split; [discriminate|]. split; [|reflexivity].
        intros _. exists dbSources. split; [reflexivity | symmetry; exact Hfilter].
  - exists builtInNewsSources, true. split; [reflexivity|]. split; [discriminate|].
    split; [exact Hactive|]. split; [auto|]. split; discriminate.
Qed.

Lemma getNewsSettings_interval (settingsResponse : Response obj) :
  exists settings,
    getNewsSettings settingsResponse = Ok settings
    /\ ((forall db, settingsResponse = Reply (Some db) ->
                    db !! "fetchIntervalMinutes" = None) ->
        get settings "fetchIntervalMinutes" = JNum 30)
    /\ (forall db stored,
          settingsResponse = Reply (Some db) ->
          db !! "fetchIntervalMinutes" = Some stored ->
          get settings "fetchIntervalMinutes" = stored).
Proof.
  rewrite getNewsSettings_cases. destruct settingsResponse as [m|[db|]].
  - exists builtInNewsSettings. split; [reflexivity|]. split; [reflexivity|]. discriminate.
  - destruct (decide (0 < size db)%nat) as [Hsize|Hsize].
    + exists (spread builtInNewsSettings db). split; [reflexivity|]. split.
      * intros Hnone. specialize (Hnone db eq_refl). unfold get, spread.
        rewrite lookup_union_r by exact Hnone. reflexivity.
      * intros db' stored H Hstored. injection H as <-. unfold get, spread.
        rewrite (lookup_union_Some_l db builtInNewsSettings _ _ Hstored). reflexivity.
    + exists builtInNewsSettings. split; [reflexivity|]. split; [reflexivity|].
      intros db' stored H Hstored. injection H as <-. exfalso. apply Hsize.
      assert (size db <> 0)%nat; [|lia].
      apply map_size_non_empty_iff. intros ->. rewrite lookup_empty in Hstored.
      discriminate.
  - exists builtInNewsSettings. split; [reflexivity|]. split; [reflexivity|]. discriminate.
Qed.

Lemma fetchIntervalOf_cases (intervalMinutes : jsval) (settings : obj) :
  fetchIntervalOf intervalMinutes settings
  = if truthy intervalMinutes then intervalMinutes
    else if truthy (get settings "fetchIntervalMinutes")
         then get settings "fetchIntervalMinutes"
         else JNum 5.
Proof.
  unfold fetchIntervalOf, orElse.
  destruct (truthy intervalMinutes) eqn:Harg; cbv iota;
    [rewrite Harg; reflexivity|].
  destruct (truthy (get settings "fetchIntervalMinutes")) eqn:Hset; cbv iota;
    rewrite ?Hset; reflexivity.
Qed.

(** [start] never throws and never arms its timer with a falsy interval:
    the interval is the argument when that is truthy; otherwise the stored
    [fetchIntervalMinutes], which is 30 whenever the store cannot be
    reached or does not set it; and 5 only for a stored falsy value. *)
Theorem start_interval_is_never_falsy
    (intervalMinutes : jsval) (settingsResponse : Response obj) (c : Controls) :
  exists c' fetchInterval,
    start intervalMinutes settingsResponse c = Ok (c', fetchInterval)
    /\ truthy fetchInterval = true
    /\ timers c' = (timers c ++ [(nextHandle c, fetchInterval)])%list
    /\ (truthy intervalMinutes = true -> fetchInterval = intervalMinutes)
    /\ (truthy intervalMinutes = false ->
        (forall db, settingsResponse = Reply (Some db) ->
                    db !! "fetchIntervalMinutes" = None) ->
        fetchInterval = JNum 30)
    /\ (truthy intervalMinutes = false ->
        forall db stored,
          settingsResponse = Reply (Some db) ->
          db !! "fetchIntervalMinutes" = Some stored ->
          fetchInterval = if truthy stored then stored else JNum 5).
Proof.
  unfold start.
  destruct (getNewsSettings_interval settingsResponse)
    as (settings & -> & Hdefault & Hstored).
  cbn [mbind Exc_bind mret Exc_ret]. eexists. eexists. split; [reflexivity|].
  cbn [timers]. rewrite fetchIntervalOf_cases.
  split; [|split; [reflexivity|]].
  - destruct (truthy intervalMinutes) eqn:Harg; [exact Harg|].
    destruct (truthy (get settings "fetchIntervalMinutes")) eqn:Hset;
      [exact Hset | reflexivity].
  - split; [intros ->; reflexivity|]. split.
    + intros -> Hnone. rewrite (Hdefault Hnone). reflexivity.
    + intros -> db stored Hreply Hdb. rewrite (Hstored db stored Hreply Hdb).
      reflexivity.
Qed.

Lemma start_interval_sound (intervalMinutes : jsval) (settingsResponse : Response obj)
    (c : Controls) :
  exists c' fetchInterval,
    start intervalMinutes settingsResponse c = Ok (c', fetchInterval)
    /\ interval c' = interval c
    /\ timers c' = (timers c ++ [(nextHandle c, fetchInterval)])%list.
Proof.
  unfold start.
  destruct (getNewsSettings_interval settingsResponse) as (settings & -> & _).
  cbn [mbind Exc_bind mret Exc_ret]. eexists. eexists. split; [reflexivity|].
  split; reflexivity.
Qed.

Lemma call_ok (k : Call) (c : Controls) :
  exists c', call k c = Ok c'
    /\ (interval c = None -> interval c' = None)
    /\ (interval c = None ->
        length (timers c')
        = (length (timers c)
           + match k with CallStart _ _ => 1 | CallStop => 0 end)%nat).
Proof.
  destruct k as [intervalMinutes settingsResponse|].
  - destruct (start_interval_sound intervalMinutes settingsResponse c)
      as (c' & fetchInterval & Hstart & Hinterval & Htimers).
    exists c'. unfold call. rewrite Hstart. split; [reflexivity|].
    split; [intros H; rewrite Hinterval; exact H|].
    intros _. rewrite Htimers, length_app. reflexivity.
  - exists (stop c). split; [reflexivity|]. unfold stop.
    split; intros H; rewrite H; [exact H | cbn; lia].
Qed.

(** The constructor sets no [interval] and [start] drops the handle of
    its timer.  So after any calls of [start] and [stop] on a new instance
    [stop] has cleared no timer, one timer per call of [start] is running,
    and the status still says that the scheduler is not running. *)
Theorem stop_clears_no_timer (ks : list Call) :
  exists c,
    calls ks constructedControls = Ok c
    /\ interval c = None
    /\ running c = false
    /\ stop c = c
    /\ length (timers c)
       = length (List.filter (fun k => match k with
                                       | CallStart _ _ => true
                                       | CallStop => false
                                       end) ks).
Proof.
  assert (Hgen : forall c0, interval c0 = None ->
            exists c, calls ks c0 = Ok c /\ interval c = None
              /\ length (timers c)
                 = (length (timers c0)
                    + length (List.filter (fun k => match k with
                                                    | CallStart _ _ => true
                                                    | CallStop => false
                                                    end) ks))%nat).
  { induction ks as [|k ks IH]; intros c0 Hc0.
    - exists c0. cbn. split; [reflexivity|]. split; [exact Hc0 | lia].
    - destruct (call_ok k c0) as (c1 & Hcall & Hnone & Hlen).
      destruct (IH c1 (Hnone Hc0)) as (c & Hcalls & Hc & Hlenc).
      exists c. cbn [calls]. rewrite Hcall. cbn [mbind Exc_bind].
      split; [exact Hcalls|]. split; [exact Hc|].
      rewrite Hlenc, (Hlen Hc0). destruct k; cbn; lia. }
  destruct (Hgen constructedControls eq_refl) as (c & Hcalls & Hc & Hlen).
  exists c. split; [exact Hcalls|]. split; [exact Hc|].
  unfold running, stop. rewrite Hc. split; [reflexivity|]. split; [reflexivity|].
  exact Hlen.
Qed.

End NewsControls.

(** ** Running a deletion plan *)

Section NewsCleanup.

Import News NewsOps.

Lemma includesArticle_cons (a : Article) (rest : list Article) (o : Article) :
  includesArticle (a :: rest) o = (id a =? id o) || includesArticle rest o.
Proof. reflexivity. Qed.

Lemma includesArticle_false (l : list Article) (a : Article) :
  includesArticle l a = false <-> forall o, o ∈ l -> id o <> id a.
Proof.
  split.
  - intros Hnot o Ho Hid.
    assert (includesArticle l a = true) by (apply includesArticle_true; eauto).
    congruence.
  - intros Hall. destruct (includesArticle l a) eqn:Hin; [|reflexivity].
    apply includesArticle_true in Hin as (o & Ho & Hid). destruct (Hall o Ho Hid).
Qed.

Lemma same_id_same_article (l : list Article) (a b : Article) :
  NoDup (id <$> l) -> a ∈ l -> b ∈ l -> id a = id b -> a = b.
Proof.
  induction l as [|c l IH]; intros Hnodup Ha Hb Hid; [inversion Ha|].
  cbn in Hnodup. apply NoDup_cons in Hnodup as [Hfresh Hnodup].
  apply elem_of_cons in Ha as [-> | Ha]; apply elem_of_cons in Hb as [-> | Hb].
  - reflexivity.
  - exfalso. apply Hfresh. rewrite Hid. apply list_elem_of_fmap. eauto.
  - exfalso. apply Hfresh. rewrite <- Hid. apply list_elem_of_fmap. eauto.
  - apply IH; assumption.
Qed.

Lemma filter_implied {A : Type} (f g h : A -> bool) (l : list A) :
  (forall o, f o = true -> g o = true /\ h o = true) ->
  List.filter f l `sublist_of` List.filter g (List.filter h l).
Proof.
  intros Himpl. induction l as [|a l IH]; [constructor|]. cbn.
  destruct (f a) eqn:Hf.
  - destruct (Himpl a Hf) as [Hg Hh]. rewrite Hh. cbn. rewrite Hg.
    apply sublist_skip. exact IH.
  - destruct (h a); [|exact IH]. cbn. destruct (g a); [|exact IH].
    apply sublist_cons. exact IH.
Qed.

Lemma filter_true {A : Type} (l : list A) : List.filter (fun _ => true) l = l.
Proof. induction l as [|a l IH]; [reflexivity|]. cbn. f_equal. exact IH. Qed.

Lemma filter_twice {A : Type} (f g : A -> bool) (l : list A) :
  List.filter f (List.filter g l) = List.filter (fun o => g o && f o) l.
Proof.
  induction l as [|a l IH]; [reflexivity|]. cbn.
  destruct (g a); cbn; [destruct (f a); [f_equal|]|]; exact IH.
Qed.

Lemma deleteArticle_cases (deleteFails : Z -> bool) (a : Article) (l : list Article) :
  deleteArticle deleteFails a l = l
  \/ deleteArticle deleteFails a l = List.filter (fun other => negb (id other =? id a)) l.
Proof. unfold deleteArticle. destruct (_ || _); auto. Qed.

Lemma deleteArticle_without_faults (a : Article) (l : list Article) :
  deleteArticle (fun _ => false) a l
  = List.filter (fun other => negb (id other =? id a)) l.
Proof.
  unfold deleteArticle. cbn [orb].
  destruct (includesArticle l a) eqn:Hin; [reflexivity|]. cbn [negb].
  symmetry. apply filter_all. apply List.Forall_forall. intros o Ho.
  rewrite includesArticle_false in Hin.
  apply negb_true_iff, Z.eqb_neq, Hin, list_elem_of_In, Ho.
Qed.

(** A run of deletions removes planned articles only, whatever fails. *)
Lemma deleteAll_bounds (deleteFails : Z -> bool) (plan l : list Article) :
  List.filter (fun o => negb (includesArticle plan o)) l
    `sublist_of` deleteAll deleteFails plan l
  /\ deleteAll deleteFails plan l `sublist_of` l.
Proof.
  revert l. induction plan as [|a plan IH]; intros l.
  - cbn. rewrite filter_true. split; reflexivity.
  - cbn [deleteAll]. destruct (IH (deleteArticle deleteFails a l)) as [Hlow Hhigh].
    destruct (deleteArticle_cases deleteFails a l) as [Hsame | Hgone];
      [rewrite Hsame in * | rewrite Hgone in *].
    + split; [|exact Hhigh]. etransitivity; [|exact Hlow].
      rewrite <- (filter_true l) at 2. apply filter_implied.
      intros o Ho. rewrite includesArticle_cons in Ho.
      apply negb_true_iff, orb_false_iff in Ho as [_ Ho]. rewrite Ho. auto.
    + split; [|etransitivity; [exact Hhigh | apply bool_filter_sublist]].
      etransitivity; [|exact Hlow]. apply filter_implied.
      intros o Ho. rewrite includesArticle_cons in Ho.
      apply negb_true_iff, orb_false_iff in Ho as [Ha Ho]. rewrite Ho.
      split; [reflexivity|]. rewrite Z.eqb_sym, Ha. reflexivity.
Qed.

(** Without faults the run removes exactly the planned articles. *)
Lemma deleteAll_without_faults (plan l : list Article) :
  deleteAll (fun _ => false) plan l
  = List.filter (fun o => negb (includesArticle plan o)) l.
Proof.
  revert l. induction plan as [|a plan IH]; intros l.
  - cbn. rewrite filter_true. reflexivity.
  - cbn [deleteAll]. rewrite deleteArticle_without_faults, IH, filter_twice.
    apply List.filter_ext. intros o. rewrite includesArticle_cons, negb_orb.
    rewrite (Z.eqb_sym (id a) (id o)). reflexivity.
Qed.

(** Removing the middle of a collection by the [id]s of its articles. *)
Lemma filter_middle (older middle newest plan : list Article) :
  NoDup (id <$> (older ++ middle ++ newest)%list) ->
  (forall o, o ∈ plan <-> o ∈ middle) ->
  List.filter (fun o => negb (includesArticle plan o)) (older ++ middle ++ newest)%list
  = (older ++ newest)%list.
Proof.
  intros Hnodup Hplan.
  assert (Hkeep : forall o, o ∈ (older ++ middle ++ newest)%list ->
            includesArticle plan o = true <-> o ∈ middle).
  { intros o Ho. rewrite includesArticle_true. split.
    - intros (p & Hp & Hid). apply Hplan in Hp.
      assert (p = o); [|subst; exact Hp].
      apply (same_id_same_article _ _ _ Hnodup); [|exact Ho | exact Hid].
      rewrite !elem_of_app. auto.
    - intros Hm. exists o. split; [apply Hplan; exact Hm | reflexivity]. }
  assert (Hdisjoint : forall o, o ∈ middle -> o ∈ (older ++ newest)%list -> False).
  { intros o Hm Hrest.
    rewrite !fmap_app in Hnodup. apply NoDup_app in Hnodup as (_ & Hold & Hnodup).
    apply NoDup_app in Hnodup as (_ & Hnew & _).
    apply elem_of_app in Hrest as [Hrest | Hrest].
    - apply (Hold (id o)); [apply list_elem_of_fmap; eauto|].
      apply elem_of_app. left. apply list_elem_of_fmap. eauto.
    - apply (Hnew (id o)); apply list_elem_of_fmap; eauto. }
  assert (Hstay : forall part, (forall o, o ∈ part -> o ∈ (older ++ newest)%list) ->
            List.filter (fun o => negb (includesArticle plan o)) part = part).
  { intros part Hpart. apply filter_all, List.Forall_forall. intros o Ho.
    apply list_elem_of_In in Ho. apply negb_true_iff.
    destruct (includesArticle plan o) eqn:Hin; [|reflexivity].
    exfalso. apply (Hdisjoint o); [|apply Hpart; exact Ho].
    apply Hkeep; [|exact Hin]. specialize (Hpart o Ho).
    rewrite !elem_of_app in *. tauto. }
  assert (Hgo : List.filter (fun o => negb (includesArticle plan o)) middle = []).
  { apply filter_none, List.Forall_forall. intros o Ho. apply list_elem_of_In in Ho.
    apply Hkeep; [rewrite !elem_of_app; auto | exact Ho]. }
  rewrite !List.filter_app, Hgo.
  rewrite (Hstay older) by (intros o Ho; apply elem_of_app; auto).
  rewrite (Hstay newest) by (intros o Ho; apply elem_of_app; auto).
  reflexivity.
Qed.

(** [cleanupOldArticles] reads the 200 newest articles and deletes those
    beyond the limit among them.  Whatever fails, it deletes none of the
    [maxArticleLimit] newest articles and none older than the 200 it read;
    when nothing fails it deletes the others, pinned or not, so that a
    collection of at most 200 articles is cut to the limit. *)
Theorem cleanupOldArticles_cuts_to_limit
    (listFails : bool) (deleteFails : Z -> bool) (cleanupSettings : CleanupSettings)
    (collection : list Article) :
  let N := length collection in
  let read := Nat.min N 200 in
  let limit := Z.to_nat (maxArticleLimit cleanupSettings) in
  let kept := (take (N - read) collection ++ drop (N - Nat.min read limit) collection)%list in
  let after := cleanupOldArticles listFails deleteFails cleanupSettings collection in
  NoDup (id <$> collection) ->
  0 <= maxArticleLimit cleanupSettings ->
  kept `sublist_of` after
  /\ after `sublist_of` collection
  /\ (listFails = false -> (forall i, deleteFails i = false) ->
      after = kept
      /\ (N <= 200 -> length after = Nat.min N limit)%nat).
Proof.
  intros N read limit kept after Hnodup Hlimit.
  set (older := take (N - read) collection).
  set (middle := take (read - Nat.min read limit) (drop (N - read) collection)).
  set (newest := drop (N - Nat.min read limit) collection).
  assert (Hsplit : collection = (older ++ middle ++ newest)%list).
  { unfold older, middle, newest.
    rewrite <- (take_drop (N - read) collection) at 1. f_equal.
    rewrite <- (take_drop (read - Nat.min read limit) (drop (N - read) collection)) at 1.
    f_equal. rewrite drop_drop. f_equal. unfold read, N. lia. }
  assert (Hkept_sub : kept `sublist_of` collection).
  { assert (H : (older ++ newest)%list `sublist_of` (older ++ middle ++ newest)%list)
      by (apply sublist_app; [reflexivity | apply sublist_inserts_l; reflexivity]).
    rewrite <- Hsplit in H. exact H. }
  assert (Hlen_kept : (N <= 200 -> length kept = Nat.min N limit)%nat).
  { intros Hsmall. unfold kept. rewrite length_app, length_take, length_drop.
    unfold read. fold N. lia. }
  unfold after, cleanupOldArticles.
  destruct listFails.
  { split; [exact Hkept_sub|]. split; [reflexivity|]. discriminate. }
  rewrite slice_within by exact Hlimit. fold limit.
  assert (Hread : length (take 200 (reverse collection)) = read)
    by (rewrite length_take, length_reverse; unfold read, N; lia).
  rewrite Hread.
  destruct (Z.of_nat read >? maxArticleLimit cleanupSettings) eqn:Hover.
  2:{ assert (Hall : kept = collection).
      { unfold kept. replace (Nat.min read limit) with read by lia.
        apply take_drop. }
      rewrite Hall. split; [reflexivity|]. split; [reflexivity|].
      intros _ _. split; [reflexivity|]. rewrite <- Hall at 1. exact Hlen_kept. }
  assert (Hplan : drop limit (take 200 (reverse collection)) = reverse middle).
  { rewrite Hsplit at 1. rewrite !reverse_app, <- app_assoc.
    assert (Hlen_mid : length middle = (read - Nat.min read limit)%nat).
    { unfold middle. rewrite length_take, length_drop. fold N. unfold read. lia. }
    assert (Hlen_new : length newest = Nat.min read limit).
    { unfold newest. rewrite length_drop. fold N. unfold read. lia. }
    replace (take 200 (reverse newest ++ reverse middle ++ reverse older))
      with (reverse newest ++ reverse middle)%list.
    - rewrite drop_app_length'; [reflexivity|]. rewrite length_reverse. lia.
    - rewrite app_assoc.
      destruct (decide (N <= 200)%nat) as [Hsmall|Hlarge].
      + assert (older = []) as ->.
        { unfold older. replace (N - read)%nat with 0%nat by (unfold read; lia).
          reflexivity. }
        rewrite reverse_nil, app_nil_r. symmetry. apply take_ge.
        rewrite length_app, !length_reverse. unfold read in *. lia.
      + symmetry. apply take_app_length'.
        rewrite length_app, !length_reverse. unfold read in *. lia. }
  rewrite Hplan.
  assert (Hfilter : List.filter (fun o => negb (includesArticle (reverse middle) o)) collection
                    = kept).
  { assert (H : List.filter (fun o => negb (includesArticle (reverse middle) o))
                              (older ++ middle ++ newest)%list
                 = (older ++ newest)%list).
    { apply filter_middle; [rewrite <- Hsplit; exact Hnodup|].
      intros o. apply elem_of_reverse. }
    rewrite <- Hsplit in H. exact H. }
  destruct (deleteAll_bounds deleteFails (reverse middle) collection) as [Hlow Hhigh].
  rewrite Hfilter in Hlow. split; [exact Hlow|]. split; [exact Hhigh|].
  intros _ Hfaults.
  assert (Hsame : deleteAll deleteFails (reverse middle) collection
                  = deleteAll (fun _ => false) (reverse middle) collection).
  { clear - Hfaults. generalize collection. induction (reverse middle) as [|a plan IH];
      intros l; [reflexivity|]. cbn [deleteAll]. rewrite <- IH. f_equal.
    unfold deleteArticle. rewrite Hfaults. reflexivity. }
  rewrite Hsame, deleteAll_without_faults, Hfilter. split; [reflexivity | exact Hlen_kept].
Qed.

Lemma cleanupOldArticles_cuts_to_limit_witness :
  cleanupOldArticles false (fun _ => false) (Samples.cleanup "count_only" 1 24)
    Samples.fourArticles
  = [Samples.article 4 30 false]
  /\ isPinned (Samples.article 1 10 true) = true.
Proof.
  destruct (cleanupOldArticles_cuts_to_limit false (fun _ => false)
              (Samples.cleanup "count_only" 1 24) Samples.fourArticles)
    as (_ & _ & Hexact).
  - apply (bool_decide_unpack _). vm_compute. exact I.
  - vm_compute. discriminate.
  - destruct (Hexact eq_refl (fun _ => eq_refl)) as [Hafter _].
    split; [exact Hafter | reflexivity].
Defined.

(** *** The plan of [performAdvancedCleanup] and its run *)

Lemma articlesToDelete_cases (settings : CleanupSettings) (currentTime : Z)
    (items : list Article) :
  let old := List.filter (oldArticle settings (cutoffTime settings currentTime)) items in
  articlesToDelete settings currentTime items
  = if String.eqb (cleanupMode settings) "age_only" then old
    else if String.eqb (cleanupMode settings) "count_only"
         then excessArticles settings items
         else (old ++ excessArticles settings
                        (List.filter (fun a => negb (includesArticle old a)) items))%list.
Proof. reflexivity. Qed.

Lemma includesArticle_app (l1 l2 : list Article) (o : Article) :
  includesArticle (l1 ++ l2) o = includesArticle l1 o || includesArticle l2 o.
Proof. apply existsb_app. Qed.

Lemma filter_nil {A : Type} (f : A -> bool) (l : list A) :
  (forall o, o ∈ l -> f o = false) -> List.filter f l = [].
Proof.
  induction l as [|a l IH]; intros Hall; [reflexivity|]. cbn.
  rewrite (Hall a) by left. apply IH. intros o Ho. apply Hall. right. exact Ho.
Qed.

Lemma excessArticles_members (settings : CleanupSettings) (l : list Article) (a : Article) :
  a ∈ excessArticles settings l -> a ∈ l /\ notPreserved settings a = true.
Proof.
  unfold excessArticles. destruct (_ >? _); [|intros H; inversion H].
  destruct (slice_is_drop (maxArticleLimit settings) (sortNewestFirst l)) as [n ->].
  intros Ha. apply list_elem_of_In, filter_In in Ha as [Ha Hfree]. split; [|exact Hfree].
  rewrite <- (sortNewestFirst_Permutation l).
  eapply elem_of_sublist; [apply list_elem_of_In; exact Ha | apply sublist_drop].
Qed.

Lemma excessArticles_NoDup (settings : CleanupSettings) (l : list Article) :
  NoDup (id <$> l) -> NoDup (id <$> excessArticles settings l).
Proof.
  intros Hnodup. unfold excessArticles. destruct (_ >? _); [|constructor].
  destruct (slice_is_drop (maxArticleLimit settings) (sortNewestFirst l)) as [n ->].
  apply (NoDup_ids_sublist _ (sortNewestFirst l)).
  - etransitivity; [apply bool_filter_sublist | apply sublist_drop].
  - rewrite (sortNewestFirst_Permutation l). exact Hnodup.
Qed.

Lemma articlesToDelete_members (settings : CleanupSettings) (currentTime : Z)
    (items : list Article) (a : Article) :
  a ∈ articlesToDelete settings currentTime items ->
  a ∈ items /\ notPreserved settings a = true.
Proof.
  rewrite articlesToDelete_cases. cbv zeta.
  assert (Hold : a ∈ List.filter (oldArticle settings (cutoffTime settings currentTime)) items ->
                 a ∈ items /\ notPreserved settings a = true).
  { intros Ha. apply list_elem_of_In, filter_In in Ha as [Hin Ha].
    split; [apply list_elem_of_In; exact Hin|].
    rewrite oldArticle_spec in Ha. apply andb_true_iff in Ha as [H _]. exact H. }
  destruct (String.eqb _ "age_only"); [exact Hold|].
  destruct (String.eqb _ "count_only"); [apply excessArticles_members|].
  intros Ha. apply elem_of_app in Ha as [Ha | Ha]; [auto|].
  apply excessArticles_members in Ha as [Ha Hfree]. split; [|exact Hfree].
  apply list_elem_of_In, filter_In in Ha as [Ha _]. apply list_elem_of_In. exact Ha.
Qed.

Lemma articlesToDelete_NoDup (settings : CleanupSettings) (currentTime : Z)
    (items : list Article) :
  NoDup (id <$> items) -> NoDup (id <$> articlesToDelete settings currentTime items).
Proof.
  intros Hnodup. rewrite articlesToDelete_cases. cbv zeta.
  set (old := List.filter _ items).
  assert (Hold : NoDup (id <$> old))
    by (eapply NoDup_ids_sublist; [apply bool_filter_sublist | exact Hnodup]).
  destruct (String.eqb _ "age_only"); [exact Hold|].
  destruct (String.eqb _ "count_only"); [apply excessArticles_NoDup; exact Hnodup|].
  rewrite fmap_app. apply NoDup_app. split; [exact Hold|]. split.
  - intros i Hi Hexcess.
    apply list_elem_of_fmap in Hi as (a & -> & Ha).
    apply list_elem_of_fmap in Hexcess as (b & Hid & Hb).
    apply excessArticles_members in Hb as [Hb _].
    apply list_elem_of_In, filter_In in Hb as [_ Hb].
    apply negb_true_iff in Hb. rewrite includesArticle_false in Hb.
    exact (Hb a Ha Hid).
  - apply excessArticles_NoDup.
    eapply NoDup_ids_sublist; [apply bool_filter_sublist | exact Hnodup].
Qed.

(** In the mode [age_only] the count limit plays no part: the plan holds,
    in the order of the collection, exactly the articles that are older
    than [maxArticleAgeHours] and not preserved. *)
Theorem age_only_plan_is_the_old_unpreserved_articles
    (settings : CleanupSettings) (currentTime : Z) (items : list Article) :
  let plan := articlesToDelete settings currentTime items in
  cleanupMode settings = "age_only" ->
  plan `sublist_of` items
  /\ (forall a,
        a ∈ plan <->
        a ∈ items
        /\ publishedAt a < currentTime - maxArticleAgeHours settings * 60 * 60 * 1000
        /\ notPreserved settings a = true)
  /\ (forall limit,
        articlesToDelete
          {| cleanupMode := cleanupMode settings; maxArticleLimit := limit;
             maxArticleAgeHours := maxArticleAgeHours settings;
             preservePinnedArticles := preservePinnedArticles settings;
             preserveBreakingNews := preserveBreakingNews settings;
             cleanupStats := cleanupStats settings |} currentTime items
        = plan).
Proof.
  intros plan Hmode. unfold plan. rewrite !articlesToDelete_cases. cbv zeta.
  cbn [cleanupMode]. rewrite Hmode. cbn [String.eqb Ascii.eqb Bool.eqb].
  split; [apply bool_filter_sublist|]. split; [|reflexivity].
  intros a. rewrite list_elem_of_In, filter_In, oldArticle_spec, andb_true_iff.
  rewrite <- list_elem_of_In. unfold cutoffTime. rewrite Z.ltb_lt. tauto.
Qed.

Lemma age_only_plan_witness :
  articlesToDelete (Samples.cleanup "age_only" 0 24) 86400025 Samples.fourArticles
  = [Samples.article 3 20 false]
  /\ (Samples.article 1 10 true ∈ Samples.fourArticles
      /\ notPreserved (Samples.cleanup "age_only" 0 24) (Samples.article 1 10 true) = false).
Proof.
  destruct (age_only_plan_is_the_old_unpreserved_articles
              (Samples.cleanup "age_only" 0 24) 86400025 Samples.fourArticles eq_refl)
    as (_ & _ & Hlimit).
  split; [|split; [left | reflexivity]].
  rewrite <- (Hlimit 21). reflexivity.
Defined.

(** When no article is older than [maxArticleAgeHours] and the collection
    is within [maxArticleLimit], a run deletes nothing and writes no
    statistics, in every mode. *)
Theorem cleanup_within_limits_changes_nothing
    (faults : Faults) (settings : CleanupSettings) (currentTime : Z) (backend : Backend) :
  (forall a, a ∈ collection backend ->
             cutoffTime settings currentTime <= publishedAt a) ->
  Z.of_nat (length (collection backend)) <= maxArticleLimit settings ->
  performAdvancedCleanup faults settings currentTime backend
  = Ok (backend, {| attempted := []; removedLogged := None |}).
Proof.
  intros Hyoung Hcount.
  assert (Hplan : articlesToDelete settings currentTime (collection backend) = []).
  { rewrite articlesToDelete_cases. cbv zeta.
    assert (Hold : List.filter (oldArticle settings (cutoffTime settings currentTime))
                               (collection backend) = []).
    { apply filter_nil. intros a Ha. rewrite oldArticle_spec.
      apply andb_false_iff. right. apply Z.ltb_ge. apply Hyoung. exact Ha. }
    assert (Hexcess : forall l, l `sublist_of` collection backend ->
                                excessArticles settings l = []).
    { intros l Hl. unfold excessArticles. apply sublist_length in Hl.
      destruct (Z.of_nat (length l) >? maxArticleLimit settings) eqn:Hover;
        [lia | reflexivity]. }
    rewrite Hold. destruct (String.eqb _ "age_only"); [reflexivity|].
    destruct (String.eqb _ "count_only"); [apply Hexcess; reflexivity|].
    cbn [app]. apply Hexcess. apply bool_filter_sublist. }
  unfold performAdvancedCleanup. destruct (listFails faults); [reflexivity|].
  cbn -[articlesToDelete deleteAll]. rewrite Hplan. reflexivity.
Qed.

Lemma cleanup_within_limits_witness :
  performAdvancedCleanup Samples.firstDeleteFails
    (Samples.cleanup "both_count_and_age" 4 24) 50
    {| collection := Samples.fourArticles; savedStats := None |}
  = Ok ({| collection := Samples.fourArticles; savedStats := None |},
        {| attempted := []; removedLogged := None |}).
Proof.
  apply (cleanup_within_limits_changes_nothing Samples.firstDeleteFails
           (Samples.cleanup "both_count_and_age" 4 24) 50
           {| collection := Samples.fourArticles; savedStats := None |}).
  - intros a Ha. apply list_elem_of_In in Ha. cbn in Ha.
    destruct Ha as [<-|[<-|[<-|[<-|[]]]]]; vm_compute; discriminate.
  - vm_compute. discriminate.
Defined.



Lemma filter_split_length {A : Type} (f : A -> bool) (l : list A) :
  (length (List.filter f l) + length (List.filter (fun a => negb (f a)) l)
   = length l)%nat.
Proof.
  induction l as [|a l IH]; [reflexivity|]. cbn. destruct (f a); cbn; lia.
Qed.

Lemma deleteAll_length (plan l : list Article) :
  NoDup (id <$> l) -> NoDup (id <$> plan) -> (forall a, a ∈ plan -> a ∈ l) ->
  (length (deleteAll (fun _ => false) plan l) + length plan = length l)%nat.
Proof.
  revert l. induction plan as [|a plan IH]; intros l Hl Hplan Hsub; [cbn; lia|].
  cbn [deleteAll length]. rewrite deleteArticle_without_faults.
  cbn in Hplan. apply NoDup_cons in Hplan as [Hfresh Hplan].
  set (l1 := List.filter (fun other => negb (id other =? id a)) l).
  assert (Hone : (length l1 + 1 = length l)%nat).
  { assert (H := filter_split_length (fun other => id other =? id a) l).
    rewrite (count_by_id_once l a Hl) in H by (apply Hsub; left).
    fold l1 in H. lia. }
  rewrite <- Hone. rewrite <- (IH l1); [lia| |exact Hplan|].
  - eapply NoDup_ids_sublist; [apply bool_filter_sublist | exact Hl].
  - intros o Ho. apply list_elem_of_In, filter_In.
    split; [apply list_elem_of_In, Hsub; right; exact Ho|].
    apply negb_true_iff, Z.eqb_neq. intros Hid. apply Hfresh.
    rewrite <- Hid. apply list_elem_of_fmap. eauto.
Qed.

(** When no request fails, a run removes exactly the articles of its
    plan, and the statistics it writes and the count it logs are the
    number of articles that have gone. *)
Theorem cleanup_without_faults_counts_right
    (settings : CleanupSettings) (currentTime : Z) (backend : Backend) :
  let plan := articlesToDelete settings currentTime (collection backend) in
  let faultFree :=
    {| listFails := false; deleteFails := fun _ => false; updateFails := false |} in
  NoDup (id <$> collection backend) ->
  plan <> [] ->
  exists after report,
    performAdvancedCleanup faultFree settings currentTime backend = Ok (after, report)
    /\ collection after
       = List.filter (fun a => negb (includesArticle plan a)) (collection backend)
    /\ (length (collection after) + length plan = length (collection backend))%nat
    /\ removedLogged report
       = Some (Z.of_nat (length (collection backend) - length (collection after)))
    /\ savedStats after
       = Some {| totalDeleted :=
                   totalDeleted (cleanupStats settings)
                   + Z.of_nat (length (collection backend) - length (collection after));
                 lastDeletedCount :=
                   Z.of_nat (length (collection backend) - length (collection after));
                 lastCleanupDate := Some currentTime |}.
Proof.
  intros plan faultFree Hnodup Hplan.
  assert (Hlen : (length (deleteAll (fun _ => false) plan (collection backend))
                  + length plan = length (collection backend))%nat).
  { apply deleteAll_length; [exact Hnodup | apply articlesToDelete_NoDup; exact Hnodup|].
    intros a Ha. apply articlesToDelete_members in Ha as [Ha _]. exact Ha. }
  unfold performAdvancedCleanup, faultFree.
  cbn -[articlesToDelete deleteAll]. fold plan.
  destruct plan as [|first rest] eqn:Hshape; [contradiction|].
  cbn -[articlesToDelete deleteAll]. eexists. eexists. split; [reflexivity|].
  cbn [collection savedStats removedLogged].
  split; [apply deleteAll_without_faults|]. split; [exact Hlen|].
  replace (length (collection backend)
           - length (deleteAll (fun _ => false) (first :: rest) (collection backend)))%nat
    with (length (first :: rest)) by lia.
  split; reflexivity.
Qed.

Lemma cleanup_without_faults_witness :
  exists after report,
    performAdvancedCleanup
      {| listFails := false; deleteFails := fun _ => false; updateFails := false |}
      (Samples.cleanup "age_only" 21 24) 86400100
      {| collection := Samples.twoOldArticles; savedStats := None |} = Ok (after, report)
    /\ collection after = []
    /\ removedLogged report = Some 2.
Proof.
  destruct (cleanup_without_faults_counts_right (Samples.cleanup "age_only" 21 24)
              86400100 {| collection := Samples.twoOldArticles; savedStats := None |})
    as (after & report & Hrun & Hafter & _ & Hlogged & _).
  - apply (bool_decide_unpack _). vm_compute. exact I.
  - vm_compute. discriminate.
  - exists after, report. split; [exact Hrun|]. split.
    + rewrite Hafter. reflexivity.
    + rewrite Hlogged, Hafter. reflexivity.
Defined.

(** *** A second run *)

Lemma insertNewestFirst_head (a : Article) (l : list Article) :
  Forall (fun x => publishedAt x <= publishedAt a) l -> insertNewestFirst a l = a :: l.
Proof.
  intros Hall. destruct l as [|b l]; [reflexivity|]. cbn.
  apply Forall_cons in Hall as [Hb _].
  destruct (publishedAt a <? publishedAt b) eqn:Hlt; [lia | reflexivity].
Qed.

Lemma insertNewestFirst_filter (f : Article -> bool) (a : Article) (l : list Article) :
  StronglySorted Spec.newerOrEqual l ->
  List.filter f (insertNewestFirst a l)
  = if f a then insertNewestFirst a (List.filter f l) else List.filter f l.
Proof.
  induction 1 as [|b l Hsorted IH Hb]; [cbn; destruct (f a); reflexivity|].
  cbn [insertNewestFirst]. destruct (publishedAt a <? publishedAt b) eqn:Hlt.
  - cbn [List.filter]. rewrite IH. destruct (f a), (f b); try reflexivity.
    cbn [insertNewestFirst]. rewrite Hlt. reflexivity.
  - change (List.filter f (a :: b :: l))
      with (if f a then a :: List.filter f (b :: l) else List.filter f (b :: l)).
    destruct (f a) eqn:Hfa; [|reflexivity].
    symmetry. apply insertNewestFirst_head.
    assert (Hall : Forall (fun x => publishedAt x <= publishedAt a) (b :: l)).
    { constructor; [lia|]. eapply Forall_impl; [exact Hb|].
      intros x Hx. unfold Spec.newerOrEqual in Hx. lia. }
    apply List.Forall_forall. intros x Hx. apply filter_In in Hx as [Hx _].
    rewrite List.Forall_forall in Hall. apply (Hall x). exact Hx.
Qed.

(** Sorting newest first and dropping articles can be done in either
    order: the sort is stable. *)
Lemma sortNewestFirst_filter (f : Article -> bool) (l : list Article) :
  sortNewestFirst (List.filter f l) = List.filter f (sortNewestFirst l).
Proof.
  induction l as [|a l IH]; [reflexivity|].
  change (sortNewestFirst (a :: l)) with (insertNewestFirst a (sortNewestFirst l)).
  rewrite insertNewestFirst_filter by apply sortNewestFirst_sorted.
  cbn [List.filter]. destruct (f a); [|exact IH].
  change (sortNewestFirst (a :: List.filter f l))
    with (insertNewestFirst a (sortNewestFirst (List.filter f l))).
  rewrite IH. reflexivity.
Qed.

Lemma excessArticles_exhaustive (settings : CleanupSettings) (l : list Article) :
  NoDup (id <$> l) ->
  0 <= maxArticleLimit settings ->
  excessArticles settings
    (List.filter (fun o => negb (includesArticle (excessArticles settings l) o)) l)
  = [].
Proof.
  intros Hnodup Hlimit.
  set (excess := excessArticles settings l).
  set (keep := fun o => negb (includesArticle excess o)).
  unfold excessArticles at 1.
  destruct (Z.of_nat (length (List.filter keep l)) >? maxArticleLimit settings) eqn:Hover;
    [|reflexivity].
  cbv zeta. rewrite sortNewestFirst_filter, slice_within by exact Hlimit.
  set (sorted := sortNewestFirst l). set (n := Z.to_nat (maxArticleLimit settings)).
  assert (Hlen : (n < length l)%nat).
  { assert (H := sublist_length _ _ (bool_filter_sublist keep l)). lia. }
  assert (Hexcess : excess = List.filter (notPreserved settings) (drop n sorted)).
  { unfold excess, excessArticles.
    destruct (Z.of_nat (length l) >? maxArticleLimit settings) eqn:Hl; [|lia].
    cbv zeta. rewrite slice_within by exact Hlimit. reflexivity. }
  assert (Hsorted : NoDup (id <$> sorted))
    by (unfold sorted; rewrite (sortNewestFirst_Permutation l); exact Hnodup).
  assert (Hhead : List.filter keep (take n sorted) = take n sorted).
  { apply filter_all, List.Forall_forall. intros o Ho. apply list_elem_of_In in Ho.
    apply negb_true_iff, includesArticle_false. intros p Hp Hid.
    rewrite Hexcess in Hp. apply list_elem_of_In, filter_In in Hp as [Hp _].
    apply list_elem_of_In in Hp.
    rewrite <- (take_drop n sorted), fmap_app in Hsorted.
    apply NoDup_app in Hsorted as (_ & Hdisjoint & _).
    apply (Hdisjoint (id o)); [apply list_elem_of_fmap; eauto|].
    rewrite <- Hid. apply list_elem_of_fmap. eauto. }
  rewrite <- (take_drop n sorted) at 1. rewrite List.filter_app, Hhead.
  rewrite drop_app_length'
    by (rewrite length_take; unfold sorted; rewrite sortNewestFirst_length; lia).
  rewrite filter_twice. apply filter_nil. intros o Ho.
  destruct (keep o) eqn:Hkeep; [|reflexivity]. cbn [andb].
  destruct (notPreserved settings o) eqn:Hfree; [|reflexivity].
  exfalso. unfold keep in Hkeep. apply negb_true_iff in Hkeep.
  rewrite includesArticle_false in Hkeep. apply (Hkeep o); [|reflexivity].
  rewrite Hexcess. apply list_elem_of_In, filter_In.
  split; [apply list_elem_of_In; exact Ho | exact Hfree].
Qed.

Lemma articlesToDelete_exhaustive (settings : CleanupSettings) (currentTime : Z)
    (items : list Article) :
  NoDup (id <$> items) ->
  0 <= maxArticleLimit settings ->
  articlesToDelete settings currentTime
    (List.filter
       (fun a => negb (includesArticle (articlesToDelete settings currentTime items) a))
       items)
  = [].
Proof.
  intros Hnodup Hlimit.
  set (plan := articlesToDelete settings currentTime items).
  set (cutoff := cutoffTime settings currentTime).
  assert (Hold : forall part,
            (forall a, a ∈ items -> oldArticle settings cutoff a = true ->
                       includesArticle part a = true) ->
            List.filter (oldArticle settings cutoff)
              (List.filter (fun a => negb (includesArticle part a)) items) = []).
  { intros part Hpart. rewrite filter_twice. apply filter_nil. intros a Ha.
    destruct (oldArticle settings cutoff a) eqn:Hage; [|apply andb_false_r].
    rewrite (Hpart a Ha Hage). reflexivity. }
  assert (Hself : forall (f : Article -> bool) a, a ∈ items -> f a = true ->
            includesArticle (List.filter f items) a = true).
  { intros f a Ha Hf. apply includesArticle_true. exists a.
    split; [|reflexivity]. apply list_elem_of_In, filter_In.
    split; [apply list_elem_of_In; exact Ha | exact Hf]. }
  rewrite (articlesToDelete_cases settings currentTime (List.filter _ items)).
  cbv zeta. fold cutoff.
  assert (Hplan := articlesToDelete_cases settings currentTime items).
  cbv zeta in Hplan. fold plan cutoff in Hplan.
  destruct (String.eqb (cleanupMode settings) "age_only").
  { apply Hold. rewrite Hplan. apply Hself. }
  destruct (String.eqb (cleanupMode settings) "count_only").
  { rewrite Hplan. apply excessArticles_exhaustive; assumption. }
  set (old := List.filter (oldArticle settings cutoff) items) in *.
  set (remaining := List.filter (fun a => negb (includesArticle old a)) items) in *.
  assert (Hnone : List.filter (oldArticle settings cutoff)
                    (List.filter (fun a => negb (includesArticle plan a)) items) = []).
  { apply Hold. intros a Ha Hage. rewrite Hplan, includesArticle_app.
    unfold old. rewrite (Hself _ a Ha Hage). reflexivity. }
  rewrite Hnone. cbn [app includesArticle existsb negb]. rewrite filter_true.
  assert (Hrest : List.filter (fun a => negb (includesArticle plan a)) items
                  = List.filter
                      (fun a => negb (includesArticle (excessArticles settings remaining) a))
                      remaining).
  { unfold remaining. rewrite filter_twice. apply List.filter_ext. intros a.
    rewrite Hplan, includesArticle_app, negb_orb. reflexivity. }
  rewrite Hrest. apply excessArticles_exhaustive; [|exact Hlimit].
  eapply NoDup_ids_sublist; [apply bool_filter_sublist | exact Hnodup].
Qed.

(** A run in which no request fails leaves nothing for the next one (a
    limit below zero apart): at the same time and with the limits
    unchanged, the plan of a second run is empty, and that run deletes
    nothing and writes no statistics. *)
Theorem second_cleanup_finds_nothing
    (settings : CleanupSettings) (currentTime : Z) (backend after : Backend)
    (report : Report) (faults : Faults) (stats : CleanupStats) :
  let faultFree :=
    {| listFails := false; deleteFails := fun _ => false; updateFails := false |} in
  let settings' :=
    {| cleanupMode := cleanupMode settings;
       maxArticleLimit := maxArticleLimit settings;
       maxArticleAgeHours := maxArticleAgeHours settings;
       preservePinnedArticles := preservePinnedArticles settings;
       preserveBreakingNews := preserveBreakingNews settings;
       cleanupStats := stats |} in
  NoDup (id <$> collection backend) ->
  0 <= maxArticleLimit settings ->
  performAdvancedCleanup faultFree settings currentTime backend = Ok (after, report) ->
  articlesToDelete settings' currentTime (collection after) = []
  /\ performAdvancedCleanup faults settings' currentTime after
     = Ok (after, {| attempted := []; removedLogged := None |}).
Proof.
  intros faultFree settings' Hnodup Hlimit Hrun.
  assert (Hplan : articlesToDelete settings' currentTime (collection after) = []).
  { change (articlesToDelete settings' currentTime (collection after))
      with (articlesToDelete settings currentTime (collection after)).
    revert Hrun. unfold performAdvancedCleanup, faultFree.
    cbn -[articlesToDelete deleteAll].
    set (plan := articlesToDelete settings currentTime (collection backend)).
    destruct (nonEmpty plan) eqn:Hsome.
    - intros H. injection H as <- <-.
      change (articlesToDelete settings currentTime
                (deleteAll (fun _ => false) plan (collection backend)) = []).
      rewrite deleteAll_without_faults.
      apply articlesToDelete_exhaustive; assumption.
    - intros H. injection H as <- <-. fold plan.
      destruct plan; [reflexivity | discriminate]. }
  split; [exact Hplan|].
  unfold performAdvancedCleanup. destruct (listFails faults); [reflexivity|].
  cbn -[articlesToDelete deleteAll]. rewrite Hplan. reflexivity.
Qed.

Lemma second_cleanup_witness :
  exists after report,
    performAdvancedCleanup
      {| listFails := false; deleteFails := fun _ => false; updateFails := false |}
      (Samples.cleanup "both_count_and_age" 1 24) 86400025
      {| collection := Samples.fourArticles; savedStats := None |} = Ok (after, report)
    /\ collection after = [Samples.article 1 10 true; Samples.article 2 40 false]
    /\ articlesToDelete (Samples.cleanup "both_count_and_age" 1 24) 86400025
         (collection after) = [].
Proof.
  eexists. eexists. split; [reflexivity|]. split; [reflexivity|].
  eapply (second_cleanup_finds_nothing (Samples.cleanup "both_count_and_age" 1 24)
            86400025 {| collection := Samples.fourArticles; savedStats := None |}
            _ _ Samples.firstDeleteFails Samples.noStats).
  - apply (bool_decide_unpack _). vm_compute. exact I.
  - vm_compute. discriminate.
  - reflexivity.
Defined.

End NewsCleanup.

(** ** The breaking-news service *)

Section ServiceModeration.

Import Service.

Lemma keywordsLoop_moderationLoop (content : string) (keywords : list jsval) :
  keywordsLoop content keywords
  = (fun m => if News.shouldModerate m then "needs_review" else "approved")
      <$> News.moderationLoop content keywords.
Proof.
  induction keywords as [|k rest IH]; [reflexivity|].
  destruct k; try reflexivity. cbn [keywordsLoop News.moderationLoop].
  destruct (includes content (toLowerCase s)); [reflexivity | exact IH].
Qed.

Lemma checkModerationKeywords_scheduler (settings : obj) (title summary : string) :
  checkModerationKeywords (Ok (Some settings)) title summary
  = (fun m => if News.shouldModerate m then "needs_review" else "approved")
      <$> News.shouldModerateContent title summary settings.
Proof.
  unfold checkModerationKeywords, News.shouldModerateContent. cbn [getSettings].
  destruct (negb (truthy (get settings "autoModerationEnabled"))); [reflexivity|].
  destruct (News.iterate _) as [keywords|message]; [|reflexivity].
  cbn [mbind Exc_bind]. apply keywordsLoop_moderationLoop.
Qed.

(** The service and the scheduler moderate alike: on the same settings
    [checkModerationKeywords] answers ['needs_review'] exactly when
    [shouldModerateContent] says that the content should be moderated, and
    it throws exactly when that throws.  When the settings cannot be read
    the service falls back on defaults that hold the moderation keywords
    of the scheduler's built-in settings. *)
Theorem checkModerationKeywords_agrees_with_scheduler
    (found : Exc (option obj)) (title summary : string) :
  checkModerationKeywords found title summary
  = (fun m => if News.shouldModerate m then "needs_review" else "approved")
      <$> News.shouldModerateContent title summary (getSettings found)
  /\ (forall settings, found = Ok (Some settings) -> getSettings found = settings)
  /\ ((forall settings, found <> Ok (Some settings)) ->
      News.shouldModerateContent title summary (getSettings found)
      = News.shouldModerateContent title summary News.builtInNewsSettings).
Proof.
  split; [|split].
  - change (checkModerationKeywords found title summary)
      with (checkModerationKeywords (Ok (Some (getSettings found))) title summary).
    apply checkModerationKeywords_scheduler.
  - intros settings ->. reflexivity.
  - intros Hnone. destruct found as [[settings|]|message];
      [destruct (Hnone settings eq_refl) | reflexivity | reflexivity].
Qed.

Lemma processArticle_cases (found : Exc (option obj)) (existing : Exc nat)
    (createFails : bool) (now : Z) (article : Article) (sourceName : string)
    (entry : Entry) :
  processArticle found existing createFails now article sourceName = Some entry ->
  existing = Ok 0%nat
  /\ createFails = false
  /\ checkModerationKeywords found (News.orText (title article) "")
       (News.orText (description article) "") = Ok (moderationStatus entry)
  /\ URL entry = url article
  /\ IsBreaking entry = false
  /\ isPinned entry = false
  /\ entry_publishedAt entry
     = (if String.eqb (moderationStatus entry) "approved" then Some now else None).
Proof.
  unfold processArticle. destruct existing as [[|n]|m]; cbn; try discriminate.
  destruct (checkModerationKeywords _ _ _) as [status|m]; cbn; [|discriminate].
  destruct createFails; cbn; [discriminate|].
  intros H. injection H as <-. cbn. repeat split; reflexivity.
Qed.

Lemma checkModerationKeywords_status (found : Exc (option obj)) (title summary status : string) :
  checkModerationKeywords found title summary = Ok status ->
  status = "approved" \/ status = "needs_review".
Proof.
  unfold checkModerationKeywords.
  destruct (negb _); [intros H; injection H as <-; auto|].
  destruct (News.iterate _) as [keywords|m]; [|discriminate]. cbn [mbind Exc_bind].
  induction keywords as [|k rest IH]; [intros H; injection H as <-; auto|].
  destruct k; try discriminate. cbn [keywordsLoop].
  destruct (includes _ _); [intros H; injection H as <-; auto | exact IH].
Qed.

(** What the scheduler drops, the service keeps for review.  An article
    that the moderation flags is not posted by the scheduler; the service
    stores it with the status ['needs_review'] and unpublished.  Every
    entry the service stores is published exactly when it is approved,
    and is neither breaking nor pinned. *)
Theorem processArticle_keeps_flagged_articles_for_review
    (settings : obj) (existing : Exc nat) (createFails : bool) (now : Z)
    (article : Article) (sourceName : string) (entry : Entry) :
  processArticle (Ok (Some settings)) existing createFails now article sourceName
  = Some entry ->
  (moderationStatus entry = "approved" /\ entry_publishedAt entry = Some now
   \/ moderationStatus entry = "needs_review" /\ entry_publishedAt entry = None)
  /\ IsBreaking entry = false
  /\ isPinned entry = false
  /\ (moderationStatus entry = "needs_review" <->
      exists m,
        News.shouldModerateContent (News.orText (title article) "")
          (News.orText (description article) "") settings = Ok m
        /\ News.shouldModerate m = true)
  /\ (moderationStatus entry = "needs_review" ->
      forall name time item,
        News.title item = title article ->
        News.cleanContentOf settings item = News.orText (description article) "" ->
        News.breakingNewsDataOf settings name time false item = Ok None).
Proof.
  intros Hstored.
  apply processArticle_cases in Hstored
    as (_ & _ & Hstatus & _ & Hbreaking & Hpinned & Hpublished).
  assert (Hkind := checkModerationKeywords_status _ _ _ _ Hstatus).
  rewrite checkModerationKeywords_scheduler in Hstatus.
  assert (Hiff : moderationStatus entry = "needs_review" <->
            exists m,
              News.shouldModerateContent (News.orText (title article) "")
                (News.orText (description article) "") settings = Ok m
              /\ News.shouldModerate m = true).
  { destruct (News.shouldModerateContent _ _ settings) as [m|message]; [|discriminate].
    cbn in Hstatus. injection Hstatus as Hstatus. split.
    - intros Hreview. exists m. split; [reflexivity|].
      destruct (News.shouldModerate m); [reflexivity|]. congruence.
    - intros (m' & Hm' & Hflag). injection Hm' as <-. rewrite Hflag in Hstatus.
      symmetry. exact Hstatus. }
  split.
  { rewrite Hpublished. destruct Hkind as [-> | ->]; [left | right]; split; reflexivity. }
  split; [exact Hbreaking|]. split; [exact Hpinned|]. split; [exact Hiff|].
  intros Hreview name time item Htitle Hclean.
  apply Hiff in Hreview as (m & Hm & Hflag).
  unfold News.breakingNewsDataOf. rewrite Hclean, Htitle, Hm. cbn [mbind Exc_bind].
  rewrite Hflag. reflexivity.
Qed.

Lemma processArticle_keeps_flagged_witness :
  exists entry,
    processArticle (Ok (Some News.builtInNewsSettings)) (Ok 0%nat) false 1000
      {| title := Some "Buy now, limited time scam offer";
         description := Some "Only today";
         url := "http://example.com/offer";
         publishedAt := None |} "RSS" = Some entry
    /\ moderationStatus entry = "needs_review"
    /\ entry_publishedAt entry = None
    /\ News.breakingNewsDataOf News.builtInNewsSettings "RSS" 1000 false
         {| News.title := Some "Buy now, limited time scam offer";
            News.link := "http://example.com/offer";
            News.contentSnippet := Some "Only today";
            News.content := None;
            News.summary := None;
            News.pubDate := None |} = Ok None.
Proof.
  eexists. split; [reflexivity|]. split; [reflexivity|]. split; [reflexivity|].
  eapply (processArticle_keeps_flagged_articles_for_review News.builtInNewsSettings
            (Ok 0%nat) false 1000
            {| title := Some "Buy now, limited time scam offer";
               description := Some "Only today";
               url := "http://example.com/offer";
               publishedAt := None |} "RSS").
  - reflexivity.
  - reflexivity.
  - reflexivity.
  - reflexivity.
Defined.

Lemma existingEntries_none (findManyFails : bool) (entries : list Entry) (u : string) :
  existingEntries findManyFails entries u = Ok 0%nat -> u ∉ URL <$> entries.
Proof.
  unfold existingEntries. destruct findManyFails; [discriminate|].
  intros H. injection H as H. apply length_zero_iff_nil in H.
  intros Hin. apply list_elem_of_fmap in Hin as (e & -> & He).
  assert (Hfound : In e (List.filter (fun e' => String.eqb (URL e') (URL e)) entries)).
  { apply filter_In. split; [apply list_elem_of_In; exact He | apply String.eqb_refl]. }
  rewrite H in Hfound. destruct Hfound.
Qed.

(** One round of the loop adds at most one entry, counts it once, and
    adds none whose [URL] is stored already. *)
Lemma processRound_step (r : Round) (entries : list Entry) (tally : Tally) :
  exists added,
    fst (processRound r (entries, tally)) = (entries ++ added)%list
    /\ (length added <= 1)%nat
    /\ total (snd (processRound r (entries, tally))) = (total tally + length added)%nat
    /\ approved (snd (processRound r (entries, tally)))
       = (approved tally
          + length (List.filter (fun e => String.eqb (moderationStatus e) "approved") added))%nat
    /\ needsReview (snd (processRound r (entries, tally)))
       = (needsReview tally
          + length (List.filter
                      (fun e => negb (String.eqb (moderationStatus e) "approved")) added))%nat
    /\ Forall (fun e => URL e ∉ URL <$> entries) added
    /\ Forall (fun e => entry_publishedAt e <> None <-> moderationStatus e = "approved")
              added.
Proof.
  unfold processRound.
  destruct (processArticle _ _ _ _ _ _) as [entry|] eqn:Hprocessed.
  - apply processArticle_cases in Hprocessed
      as (Hnone & _ & Hstatus & Hurl & _ & _ & Hpublished).
    apply existingEntries_none in Hnone. rewrite <- Hurl in Hnone.
    apply checkModerationKeywords_status in Hstatus.
    exists [entry]. cbn [fst snd length List.filter].
    split; [reflexivity|]. split; [lia|].
    assert (Hrule : entry_publishedAt entry <> None
                    <-> moderationStatus entry = "approved").
    { rewrite Hpublished. destruct Hstatus as [-> | ->]; cbn; split; congruence. }
    destruct (String.eqb (moderationStatus entry) "approved"); cbn;
      (split; [lia|]); (split; [lia|]); (split; [lia|]);
      (split; constructor; [assumption | constructor | assumption | constructor]).
  - exists []. cbn. rewrite app_nil_r.
    split; [reflexivity|]. split; [lia|]. split; [lia|]. split; [lia|]. split; [lia|].
    split; constructor.
Qed.

Lemma fetchAndProcessNews_fold (rounds : list Round) (entries : list Entry) (tally : Tally) :
  let result := foldl (fun state r => processRound r state) (entries, tally) rounds in
  exists added,
    fst result = (entries ++ added)%list
    /\ (length added <= length rounds)%nat
    /\ total (snd result) = (total tally + length added)%nat
    /\ approved (snd result)
       = (approved tally
          + length (List.filter (fun e => String.eqb (moderationStatus e) "approved") added))%nat
    /\ needsReview (snd result)
       = (needsReview tally
          + length (List.filter
                      (fun e => negb (String.eqb (moderationStatus e) "approved")) added))%nat
    /\ (NoDup (URL <$> entries) -> NoDup (URL <$> (entries ++ added)%list))
    /\ Forall (fun e => entry_publishedAt e <> None <-> moderationStatus e = "approved")
              added.
Proof.
  revert entries tally. induction rounds as [|r rounds IH]; intros entries tally result.
  - exists []. unfold result. cbn. rewrite app_nil_r.
    split; [reflexivity|]. split; [lia|]. split; [lia|]. split; [lia|]. split; [lia|].
    split; [auto | constructor].
  - unfold result. cbn [foldl].
    destruct (processRound_step r entries tally)
      as (first & Hfst & Hone & Htotal & Happroved & Hreview & Hfresh & Hrule).
    destruct (processRound r (entries, tally)) as [entries1 tally1].
    cbn [fst snd] in Hfst, Htotal, Happroved, Hreview. subst entries1.
    destruct (IH (entries ++ first)%list tally1)
      as (rest & Hfst' & Hlen' & Htotal' & Happroved' & Hreview' & Hnodup' & Hrule').
    exists (first ++ rest)%list. rewrite Hfst', Htotal', Happroved', Hreview'.
    rewrite !List.filter_app, !length_app, app_assoc. cbn [length].
    split; [reflexivity|]. split; [lia|]. split; [lia|]. split; [lia|]. split; [lia|].
    split; [|apply Forall_app; split; assumption].
    intros Hnodup. apply Hnodup'. rewrite fmap_app. apply NoDup_app.
    split; [exact Hnodup|]. split.
    + intros u Hu Hfirst. apply list_elem_of_fmap in Hfirst as (e & -> & He).
      rewrite List.Forall_forall in Hfresh.
      apply (Hfresh e); [apply list_elem_of_In; exact He | exact Hu].
    + destruct first as [|e [|e' first]]; cbn in Hone |- *;
        [constructor | apply NoDup_singleton | lia].
Qed.

(** The counts that [fetchAndProcessNews] returns add up: [total] is the
    number of entries the run has stored, [approved] the number of those
    it published and [needsReview] the number it left unpublished; and
    the run only appends entries, at most one for each article. *)
Theorem fetchAndProcessNews_counts_add_up (rounds : list Round) (entries : list Entry) :
  let after := fst (fetchAndProcessNews rounds entries) in
  let counts := snd (fetchAndProcessNews rounds entries) in
  exists added,
    after = (entries ++ added)%list
    /\ (length added <= length rounds)%nat
    /\ total counts = length added
    /\ total counts = (approved counts + needsReview counts)%nat
    /\ approved counts
       = length (List.filter (fun e => match entry_publishedAt e with
                                       | Some _ => true
                                       | None => false
                                       end) added)
    /\ needsReview counts
       = length (List.filter (fun e => match entry_publishedAt e with
                                       | Some _ => false
                                       | None => true
                                       end) added).
Proof.
  intros after counts. unfold after, counts, fetchAndProcessNews.
  destruct (fetchAndProcessNews_fold rounds entries
              {| total := 0; approved := 0; needsReview := 0 |})
    as (added & Hfst & Hlen & Htotal & Happroved & Hreview & _ & Hrule).
  cbv zeta in *. cbn [total approved needsReview] in *.
  exists added. split; [exact Hfst|]. split; [exact Hlen|]. split; [lia|].
  assert (Hsplit := filter_split_length
                      (fun e => String.eqb (moderationStatus e) "approved") added).
  split; [lia|].
  assert (Hsame : forall e, In e added ->
            String.eqb (moderationStatus e) "approved"
            = match entry_publishedAt e with Some _ => true | None => false end).
  { intros e He. rewrite List.Forall_forall in Hrule. specialize (Hrule e He).
    destruct (entry_publishedAt e) as [time|].
    - apply String.eqb_eq, Hrule. discriminate.
    - destruct (String.eqb (moderationStatus e) "approved") eqn:Heq; [|reflexivity].
      apply String.eqb_eq, Hrule in Heq. congruence. }
  rewrite Happroved, Hreview. split.
  - rewrite (List.filter_ext_in _ _ added Hsame). reflexivity.
  - cbn [Nat.add]. f_equal. apply List.filter_ext_in. intros e He.
    rewrite (Hsame e He). destruct (entry_publishedAt e); reflexivity.
Qed.

(** The duplicate check of [processArticle] holds whatever fails: when
    no two stored entries share a [URL], none do after a run of
    [fetchAndProcessNews], even if the articles of the run repeat one. *)
Theorem fetchAndProcessNews_keeps_urls_unique (rounds : list Round) (entries : list Entry) :
  NoDup (URL <$> entries) ->
  NoDup (URL <$> fst (fetchAndProcessNews rounds entries)).
Proof.
  intros Hnodup. unfold fetchAndProcessNews.
  destruct (fetchAndProcessNews_fold rounds entries
              {| total := 0; approved := 0; needsReview := 0 |})
    as (added & Hfst & _ & _ & _ & _ & Hunique & _).
  cbv zeta in Hfst. rewrite Hfst. apply Hunique. exact Hnodup.
Qed.

Lemma fetchAndProcessNews_keeps_urls_unique_witness :
  let offer :=
    {| article := {| title := Some "Pattaya beach walk";
                     description := Some "A quiet morning";
                     url := "http://example.com/walk";
                     publishedAt := None |};
       sourceName := "RSS"; now := 1000; found := Ok None;
       findManyFails := false; createFails := false |} in
  length (fst (fetchAndProcessNews [offer; offer] [])) = 1%nat
  /\ NoDup (URL <$> fst (fetchAndProcessNews [offer; offer] [])).
Proof.
  cbv zeta. split; [reflexivity|].
  apply fetchAndProcessNews_keeps_urls_unique. constructor.
Defined.

End ServiceModeration.

(** ** The cycle counter of the news scheduler *)

Section NewsCounter.

Lemma news_run_count (events : list News.Event) (r0 r : News.Runtime) :
  News.run events r0 = Some r ->
  (News.fetchCount (News.sched r) + News.inFlight r0
   = News.fetchCount (News.sched r0) + News.inFlight r
     + length (List.filter (fun e => match e with
                                     | News.Settle _ => true
                                     | News.Trigger => false
                                     end) events))%nat
  /\ (News.fetchCount (News.sched r)
      <= News.fetchCount (News.sched r0)
         + length (List.filter (fun e => match e with
                                         | News.Trigger => true
                                         | News.Settle _ => false
                                         end) events))%nat.
Proof.
  revert r0. induction events as [|e events IH]; intros r0; cbn [News.run].
  - intros H. injection H as <-. cbn. lia.
  - destruct (News.step e r0) as [r1|] eqn:Hstep; [|discriminate].
    intros Hrun. destruct (IH r1 Hrun) as [Hcount Hbound].
    destruct r0 as [[running count] n]. destruct e as [|body]; cbn in Hstep.
    + destruct running; injection Hstep as <-; cbn in *; lia.
    + destruct n as [|n]; [discriminate|]. injection Hstep as <-. cbn in *. lia.
Qed.

(** [fetchCount] counts the cycles that ran: after any calls of
    [fetchNews] on a new instance it is the number of cycles that have
    ended plus the one that may be in flight.  A call that returns at the
    test of [isRunning] is not counted. *)
Theorem fetchCount_counts_the_cycles_that_ran (events : list News.Event) (r : News.Runtime) :
  News.run events News.constructed = Some r ->
  News.fetchCount (News.sched r)
  = (length (List.filter (fun e => match e with
                                   | News.Settle _ => true
                                   | News.Trigger => false
                                   end) events)
     + News.inFlight r)%nat
  /\ (News.fetchCount (News.sched r)
      <= length (List.filter (fun e => match e with
                                       | News.Trigger => true
                                       | News.Settle _ => false
                                       end) events))%nat.
Proof.
  intros Hrun. destruct (news_run_count events News.constructed r Hrun) as [Hcount Hbound].
  cbn in Hcount, Hbound. lia.
Qed.

Lemma fetchCount_counts_witness :
  exists r,
    News.run [News.Trigger; News.Trigger; News.Settle (Ok tt); News.Trigger]
             News.constructed = Some r
    /\ News.fetchCount (News.sched r) = 2%nat
    /\ News.inFlight r = 1%nat.
Proof.
  eexists. split; [reflexivity|].
  split; [|reflexivity].
  apply (fetchCount_counts_the_cycles_that_ran
           [News.Trigger; News.Trigger; News.Settle (Ok tt); News.Trigger]).
  reflexivity.
Defined.

End NewsCounter.

(** ** Topics and timers of a video cycle *)

Section VideoCycle.

Import Video.

Lemma trendingTagTopics_source (api : Api) (topics : list obj) :
  trendingTagTopics api = Ok topics ->
  Forall (fun t => get t "Source" = JStr "trending-tags-video") topics.
Proof.
  unfold trendingTagTopics. destruct (activeTrendingTags api) as [m|data]; [discriminate|].
  cbn [await mbind Exc_bind]. destruct (default [] data) as [|tag tags].
  - intros H. injection H as <-. constructor.
  - cbn [nonEmpty]. intros H. injection H as <-. apply List.Forall_forall. intros t Ht.
    apply list_elem_of_In in Ht. change (t ∈ tagTopic <$> (tag :: tags)) in Ht.
    apply list_elem_of_fmap in Ht as (tag' & -> & _). reflexivity.
Qed.

Lemma trustedChannelTopics_source (api : Api) (topics : list obj) :
  trustedChannelTopics api = Ok topics ->
  Forall (fun t => get t "Source" = JStr "trusted_channel") topics.
Proof.
  unfold trustedChannelTopics.
  destruct (verifiedTrustedChannels api) as [m|data]; [discriminate|].
  cbn [await mbind Exc_bind]. destruct (default [] data) as [|channel channels].
  - intros H. injection H as <-. constructor.
  - cbn [nonEmpty]. unfold generateTopicsFromTrustedChannels. intros Htopics.
    assert (Hcases := channelTopics_cases (sliceTo 3 (channel :: channels))).
    rewrite Htopics in Hcases. destruct Hcases as [_ Hall].
    eapply Forall_impl; [exact Hall|]. intros t (_ & Hsource & _). exact Hsource.
Qed.

(** A cycle never lacks topics, and the emergency topics are never used:
    [performFetch] always finds at least one topic, from the trending
    tags, from the trusted channels or from the built-in list, and none of
    them is marked [emergency].  So the test that would skip the fetch for
    want of topics never holds. *)
Theorem activeTopics_never_empty_nor_emergency (api : Api) :
  exists topics,
    activeTopics api = Ok topics
    /\ topics <> []
    /\ Forall (fun t => get t "Source" <> JStr "emergency") topics
    /\ (Forall (fun t => get t "Source" = JStr "trending-tags-video") topics
        \/ Forall (fun t => get t "Source" = JStr "trusted_channel") topics
        \/ topics = builtInTopics).
Proof.
  rewrite activeTopics_resolve. eexists. split; [reflexivity|].
  assert (Hbuiltin : Forall (fun t => get t "Source" <> JStr "emergency") builtInTopics)
    by (repeat constructor; discriminate).
  assert (Hother : forall (source : string) (l : list obj),
            source <> "emergency" ->
            Forall (fun t => get t "Source" = JStr source) l ->
            Forall (fun t => get t "Source" <> JStr "emergency") l).
  { intros source l Hne Hall. eapply Forall_impl; [exact Hall|].
    intros t Ht. rewrite Ht. congruence. }
  cbn [Spec.resolve].
  destruct (trendingTagTopics api) as [[|tag tags]|m] eqn:Htags;
    try (apply trendingTagTopics_source in Htags;
         split; [discriminate|]; split; [|left; exact Htags];
         eapply Hother; [|exact Htags]; discriminate);
    (destruct (trustedChannelTopics api) as [[|topic topics]|m'] eqn:Hchannels;
     try (apply trustedChannelTopics_source in Hchannels;
          split; [discriminate|]; split; [|right; left; exact Hchannels];
          eapply Hother; [|exact Hchannels]; discriminate);
     (split; [discriminate|]; split; [exact Hbuiltin | right; right; reflexivity])).
Qed.



End VideoCycle.

(** ** Partial settings *)

Section PartialSettings.

(** [getNewsSettings] never throws and never loses a built-in field:
    every field of the built-in settings is defined in its result, with
    the stored value when the store holds one and the built-in value
    otherwise; and every stored field is passed on. *)
Theorem getNewsSettings_defines_every_builtin_field (settingsResponse : Response obj) :
  exists settings,
    News.getNewsSettings settingsResponse = Ok settings
    /\ (forall field builtIn,
          News.builtInNewsSettings !! field = Some builtIn ->
          exists value,
            settings !! field = Some value
            /\ (forall db stored,
                  settingsResponse = Reply (Some db) -> db !! field = Some stored ->
                  value = stored)
            /\ ((forall db, settingsResponse = Reply (Some db) -> db !! field = None) ->
                value = builtIn))
    /\ (forall db field stored,
          settingsResponse = Reply (Some db) -> db !! field = Some stored ->
          settings !! field = Some stored).
Proof.
  rewrite getNewsSettings_cases.
  assert (Hnonempty : forall (db : obj) field stored,
            db !! field = Some stored -> (0 < size db)%nat).
  { intros db field stored Hstored. assert (size db <> 0)%nat; [|lia].
    apply map_size_non_empty_iff. intros ->. rewrite lookup_empty in Hstored.
    discriminate. }
  destruct settingsResponse as [m|[db|]].
  - exists News.builtInNewsSettings. split; [reflexivity|]. split; [|discriminate].
    intros field builtIn Hfield. exists builtIn. split; [exact Hfield|].
    split; [discriminate | reflexivity].
  - destruct (decide (0 < size db)%nat) as [Hsize|Hsize].
    + exists (spread News.builtInNewsSettings db). split; [reflexivity|]. split.
      * intros field builtIn Hfield. unfold spread.
        destruct (db !! field) as [stored|] eqn:Hdb.
        -- exists stored. split; [apply lookup_union_Some_l; exact Hdb|].
           split; [intros db' stored' H Hstored; injection H as <-; congruence|].
           intros Hnone. specialize (Hnone db eq_refl). congruence.
        -- exists builtIn. split; [rewrite lookup_union_r; assumption|].
           split; [intros db' stored' H Hstored; injection H as <-; congruence|].
           reflexivity.
      * intros db' field stored H Hstored. injection H as <-.
        apply lookup_union_Some_l. exact Hstored.
    + exists News.builtInNewsSettings. split; [reflexivity|]. split.
      * intros field builtIn Hfield. exists builtIn. split; [exact Hfield|].
        split; [|reflexivity].
        intros db' stored H Hstored. injection H as <-.
        destruct (Hsize (Hnonempty _ _ _ Hstored)).
      * intros db' field stored H Hstored. injection H as <-.
        destruct (Hsize (Hnonempty _ _ _ Hstored)).
  - exists News.builtInNewsSettings. split; [reflexivity|]. split; [|discriminate].
    intros field builtIn Hfield. exists builtIn. split; [exact Hfield|].
    split; [discriminate | reflexivity].
Qed.

(** The service does not merge stored settings with its defaults.  With
    stored settings that leave out [autoModerationEnabled], the service
    approves every article, while the scheduler, reading the same stored
    settings, still moderates with its built-in flag. *)
Theorem partial_settings_moderate_in_scheduler_only
    (db : obj) (title summary : string) :
  db <> ∅ ->
  db !! "autoModerationEnabled" = None ->
  Service.checkModerationKeywords (Ok (Some db)) title summary = Ok "approved"
  /\ exists settings,
       News.getNewsSettings (Reply (Some db)) = Ok settings
       /\ get settings "autoModerationEnabled" = JBool true
       /\ (db !! "moderationKeywords" = None ->
           News.shouldModerateContent title summary settings
           = News.shouldModerateContent title summary News.builtInNewsSettings).
Proof.
  intros Hnonempty Hnone. split.
  - unfold Service.checkModerationKeywords, Service.getSettings, get.
    rewrite Hnone. reflexivity.
  - rewrite getNewsSettings_cases.
    destruct (decide (0 < size db)%nat) as [Hsize|Hsize].
    2:{ exfalso. apply Hnonempty. apply map_size_empty_iff. lia. }
    exists (spread News.builtInNewsSettings db). split; [reflexivity|].
    assert (Hflag : get (spread News.builtInNewsSettings db) "autoModerationEnabled"
                    = JBool true).
    { unfold get, spread. rewrite lookup_union_r by exact Hnone. reflexivity. }
    split; [exact Hflag|]. intros Hkeywords.
    unfold News.shouldModerateContent. rewrite Hflag.
    assert (Hsame : get (spread News.builtInNewsSettings db) "moderationKeywords"
                    = get News.builtInNewsSettings "moderationKeywords").
    { unfold get, spread. rewrite lookup_union_r by exact Hkeywords. reflexivity. }
    rewrite Hsame. reflexivity.
Qed.

Lemma partial_settings_witness :
  Service.checkModerationKeywords (Ok (Some {[ "fetchIntervalMinutes" := JNum 10 ]}))
    "This is spam content" "Buy now!" = Ok "approved"
  /\ News.shouldModerate
       <$> News.shouldModerateContent "This is spam content" "Buy now!"
             (spread News.builtInNewsSettings {[ "fetchIntervalMinutes" := JNum 10 ]})
     = Ok true.
Proof.
  destruct (partial_settings_moderate_in_scheduler_only
              {[ "fetchIntervalMinutes" := JNum 10 ]} "This is spam content" "Buy now!")
    as (Hservice & _).
  - intros H. apply (f_equal (fun m : obj => m !! "fetchIntervalMinutes")) in H.
    vm_compute in H. discriminate.
  - reflexivity.
  - split; [exact Hservice | reflexivity].
Defined.

End PartialSettings.
